(** * invsto: row validation and the moving-average crossover engine

    A shallow embedding of
      - [app/csv_parser.py]   ([CSVParser]: the strict row validator,
                               [parse_csv] and [generate_statistics]),
      - [app/import_data.py]  ([StockDataImporter]: the lenient validator,
                               [parse_csv_data] and [insert_data_batch]),
      - [app/api.py]          ([get_strategy_performance]: the pandas
                               pipeline behind [/strategy/performance]),
    followed by the properties of these functions.

    Numbers.  The validators parse floats and compare them, and never
    compute with them: there a Python float is [Float.float], the value it
    denotes (a rational, an infinity or NaN), with the IEEE comparisons.
    The signal engine computes with floats: there a float is
    [Float64.float64], IEEE 754 binary64 with signed zeros, infinities and
    NaN, every operation rounded to nearest with ties to even.  Integer
    columns of a data frame are modelled by [Z].

    Libraries.  [csv.DictReader] is modelled by what it yields: the field
    names, the rows, and the exception that ends the iteration when there
    is one.  The pandas operations follow pandas 2: [rolling(...).mean()]
    is the windowed pass of [pandas/_libs/window/aggregations.pyx]
    ([roll_mean], with its compensated running sum) over the bounds of
    [FixedWindowIndexer]. *)

From Stdlib Require Import QArith Qabs ZArith List Bool String Ascii Lia Lqa.
From Stdlib Require Import Floats.SpecFloat.
From stdpp Require Import base option list gmap strings.

Local Open Scope string_scope.
Local Open Scope list_scope.
Local Open Scope nat_scope.

(* ===================================================================== *)
(** ** Floating-point values of the validators *)
(* ===================================================================== *)

Module Float.

Inductive float : Type :=
| Fin (q : Q)
| PInf
| NInf
| NaN.

Definition zero : float := Fin 0.

Definition of_Z (z : Z) : float := Fin (inject_Z z).

Definition Qltb (a b : Q) : bool := negb (Qle_bool b a).

Definition is_nan (x : float) : bool :=
  match x with NaN => true | _ => false end.

(** [x < y]; false as soon as one side is NaN. *)
Definition ltb (x y : float) : bool :=
  match x, y with
  | NaN, _ | _, NaN => false
  | Fin a, Fin b => Qltb a b
  | _, NInf => false
  | NInf, _ => true
  | PInf, _ => false
  | Fin _, PInf => true
  end.

(** [x > y] *)
Definition gtb (x y : float) : bool := ltb y x.

(** [x == y]; NaN is equal to nothing. *)
Definition eqb (x y : float) : bool :=
  match x, y with
  | Fin a, Fin b => Qeq_bool a b
  | PInf, PInf | NInf, NInf => true
  | _, _ => false
  end.

End Float.

Import Float.

(* ===================================================================== *)
(** ** Floating-point values of the signal engine: binary64 *)
(* ===================================================================== *)

Module Float64.

(** [numpy.float64]: sign, mantissa and exponent, or a signed zero, a
    signed infinity or NaN.  The arithmetic is that of the Standard
    Library's specification of IEEE 754 at precision 53. *)
Definition float64 : Type := spec_float.

Definition prec : Z := 53.
Definition emax : Z := 1024.

Definition nan : float64 := S754_nan.
Definition zero : float64 := S754_zero false.

(** The float nearest to an integer: [astype(float)], a C cast. *)
Definition of_Z (z : Z) : float64 := binary_normalize prec emax z 0 false.

Definition one : float64 := of_Z 1.

Definition neg (x : float64) : float64 := SFopp x.
Definition add (x y : float64) : float64 := SFadd prec emax x y.
Definition sub (x y : float64) : float64 := SFsub prec emax x y.
Definition mul (x y : float64) : float64 := SFmul prec emax x y.
Definition div (x y : float64) : float64 := SFdiv prec emax x y.

(** [x < y], [x > y] and [x == y]; false as soon as one side is NaN. *)
Definition ltb (x y : float64) : bool := SFltb x y.
Definition gtb (x y : float64) : bool := SFltb y x.
Definition eqb (x y : float64) : bool := SFeqb x y.

Definition is_nan (x : float64) : bool :=
  match x with S754_nan => true | _ => false end.

Definition is_inf (x : float64) : bool :=
  match x with S754_infinity _ => true | _ => false end.

Definition is_zero (x : float64) : bool :=
  match x with S754_zero _ => true | _ => false end.

(** C's [signbit]. *)
Definition signbit (x : float64) : bool :=
  match x with
  | S754_zero s | S754_infinity s | S754_finite s _ _ => s
  | S754_nan => false
  end.


(** The double nearest to the decimal [m / 10^digits], for [m] and
    [10^digits] below 2^53: what [float] reads in a numeral such as
    [99.59]. *)
Definition of_decimal (m : Z) (digits : nat) : float64 :=
  div (of_Z m) (of_Z (10 ^ Z.of_nat digits)).

End Float64.

Import Float64(float64).

(* ===================================================================== *)
(** ** Python values, exceptions, logging *)
(* ===================================================================== *)

Module Py.

(** [datetime.datetime], second precision. *)
Record datetime : Type := mk_datetime {
  year : nat; month : nat; day : nat;
  hour : nat; minute : nat; second : nat
}.

(** The calendar date [strftime('%Y-%m-%d')] prints. *)
Record date : Type := mk_date { d_year : nat; d_month : nat; d_day : nat }.

Definition strftime_Ymd (t : datetime) : date :=
  mk_date (year t) (month t) (day t).

(** A cell of a [csv.DictReader] row: text, or [None] where the line was
    shorter than the header. *)
Inductive pyval : Type :=
| PyNone
| PyStr (s : string).

(** A row: [Dict[str, str]]. *)
Abbreviation Row := (gmap string pyval).

Inductive exn : Type :=
| KeyError (key : string)
| TypeError
| AttributeError
| ValueError (text : string)
| OverflowError
| FileNotFoundError
| PermissionError
| UnicodeDecodeError
| CsvError (text : string).

Definition is_FileNotFoundError (e : exn) : bool :=
  match e with FileNotFoundError => true | _ => false end.

Definition is_ValueError (e : exn) : bool :=
  match e with ValueError _ => true | _ => false end.

(** The parsing builtins the validators call on text.  They are library
    functions, taken as an interface: [None] stands for [ValueError]. *)
Class Builtins : Type := {
  (** [datetime.strptime(s, '%Y-%m-%d %H:%M:%S')] *)
  strptime : string → option datetime;
  (** [float(s)] *)
  float_of_str : string → option float;
  (** [int(s)] *)
  int_of_str : string → option Z;
  (** [s.strip()] *)
  strip : string → string
}.

(** What the module logger receives. *)
Inductive level : Type := INFO | WARNING | ERROR.

Inductive number : Type :=
| NumFloat (x : float)
| NumInt (z : Z).

Inductive log_message : Type :=
| NegativeValueFound (field_name : string) (value : number)
| InvalidCsvStructure (got : option (list string))
| HeaderValidationPassed
| CsvFileNotFound
| ErrorParsingCsvFile (e : exn)
| ParsingCompleted
| ValidRows (n : nat)
| InvalidRows (n : nat).

Definition log_record : Type := level * log_message.

(** Computations that log and may raise: the log survives an
    exception, as in Python. *)
Definition M (A : Type) : Type :=
  list log_record → (exn + A) * list log_record.

Definition ret {A} (a : A) : M A := λ log, (inr a, log).

Definition bind {A B} (c : M A) (k : A → M B) : M B :=
  λ log, match c log with
         | (inl e, log') => (inl e, log')
         | (inr a, log') => k a log'
         end.

Definition raise {A} (e : exn) : M A := λ log, (inl e, log).

Definition logger (l : level) (m : log_message) : M unit :=
  λ log, (inr tt, (log ++ [(l, m)])%list).

(** [try: body except <filter>: handler]; an exception the filter does
    not select propagates. *)
Definition try_except {A} (body : M A) (catches : exn → bool)
    (handler : exn → M A) : M A :=
  λ log, match body log with
         | (inl e, log') =>
             if catches e then handler e log' else (inl e, log')
         | r => r
         end.

Definition Exception (_ : exn) : bool := true.

(** A computation whose result does not depend on the log it starts
    from, and which only appends to that log. *)
Definition stable {A} (c : M A) : Prop :=
  ∀ log, c log = ((c []).1, log ++ (c []).2).

(** [row[key]] *)
Definition getitem (row : Row) (key : string) : M pyval :=
  match row !! key with
  | Some v => ret v
  | None => raise (KeyError key)
  end.

Section Calls.
Context `{Builtins}.

(** [datetime.strptime(v, fmt)]: [TypeError] on a non-string. *)
Definition py_strptime (v : pyval) : M datetime :=
  match v with
  | PyNone => raise TypeError
  | PyStr s =>
      match strptime s with
      | Some t => ret t
      | None => raise (ValueError s)
      end
  end.

Definition py_float (v : pyval) : M float :=
  match v with
  | PyNone => raise TypeError
  | PyStr s =>
      match float_of_str s with
      | Some x => ret x
      | None => raise (ValueError s)
      end
  end.

Definition py_int (v : pyval) : M Z :=
  match v with
  | PyNone => raise TypeError
  | PyStr s =>
      match int_of_str s with
      | Some z => ret z
      | None => raise (ValueError s)
      end
  end.

(** [v.strip()]: [AttributeError] on [None]. *)
Definition py_strip (v : pyval) : M string :=
  match v with
  | PyNone => raise AttributeError
  | PyStr s => ret (strip s)
  end.
End Calls.

(** [csv.DictReader(file)], by what it gives: [fieldnames] ([None] on an
    empty file), or the exception reading the first line raises; then the
    rows the iteration yields, and the exception that ends the iteration
    when it is not exhausted normally ([csv.Error] on a field over the
    size limit, [UnicodeDecodeError] on bytes that are not UTF-8). *)
Record DictReader : Type := mk_reader {
  fieldnames : exn + option (list string);
  rows : list Row;
  stop : option exn
}.

(** The file at [csv_file_path]: what [os.path.exists] answers, and what
    [open] gives, a reader on the file or an exception. *)
Record file : Type := mk_file {
  exists_ : bool;
  open_ : exn + DictReader
}.

(** A file that exists, opens, and is read to its end: a header line
    and the rows. *)
Definition readable (header : option (list string)) (rows : list Row) : file :=
  mk_file true (inr (mk_reader (inr header) rows None)).

End Py.

Import Py.

#[global] Instance M_ret : MRet M := @Py.ret.
#[global] Instance M_bind : MBind M := λ A B k c, Py.bind c k.
(* ===================================================================== *)
(** ** app/csv_parser.py *)
(* ===================================================================== *)

Module CSVParser.

(** The tuple [(dt, close, high, low, open_price, volume, instrument)]. *)
Record parsed_row : Type := mk_parsed_row {
  r_dt : datetime;
  r_close : float;
  r_high : float;
  r_low : float;
  r_open_price : float;
  r_volume : Z;
  r_instrument : string
}.

(** The second component of [validate_row]'s result: the f-strings of
    the source with their interpolated values as arguments; [NoError] is
    the empty string. *)
Inductive error_msg : Type :=
| NoError
| InvalidDatetimeFormat (text : pyval)
| InvalidPrice (field_name : string) (text : pyval)
| InvalidVolume (text : pyval)
| EmptyInstrumentName
| HighLessThanLow (high low : float)
| HighLessThanOpenOrClose (high open_price close : float)
| LowGreaterThanOpenOrClose (low open_price close : float)
| UnexpectedError (e : exn).

(** The object: [csv_file_path] and the two accumulators.
    [self.statistics] is a projection of the accumulators computed after
    the row loop and is left out. *)
Record t : Type := mk {
  csv_file_path : string;
  parsed_data : list parsed_row;
  invalid_rows : list (nat * error_msg)
}.

Definition __init__ (csv_file_path : string) : t := mk csv_file_path [] [].

Definition expected_columns : list string :=
  ["datetime"; "close"; "high"; "low"; "open"; "volume"; "instrument"].

Definition validate_header (header : option (list string)) : M bool :=
  if decide (header ≠ Some expected_columns) then
    logger ERROR (InvalidCsvStructure header);; mret false
  else
    logger INFO HeaderValidationPassed;; mret true.

(** What [validate_numeric] and [validate_integer] log for a value
    they have parsed. *)
Definition numeric_warning (field_name : string) (x : float)
  : list log_record :=
  if Float.ltb x Float.zero
  then [(WARNING, NegativeValueFound field_name (NumFloat x))] else [].

Definition integer_warning (field_name : string) (z : Z) : list log_record :=
  if (z <? 0)%Z
  then [(WARNING, NegativeValueFound field_name (NumInt z))] else [].

(** What [validate_row] answers once the six typed fields have parsed
    (lines 97-113), as a function of the parsed values. *)
Definition checks (dt : datetime) (close high low open_price : float)
    (volume : Z) (instrument : string)
  : bool * error_msg * option parsed_row :=
  if String.eqb instrument "" then (false, EmptyInstrumentName, None)
  else if Float.ltb high low then (false, HighLessThanLow high low, None)
  else if Float.ltb high open_price || Float.ltb high close then
    (false, HighLessThanOpenOrClose high open_price close, None)
  else if Float.gtb low open_price || Float.gtb low close then
    (false, LowGreaterThanOpenOrClose low open_price close, None)
  else
    (true, NoError,
     Some (mk_parsed_row dt close high low open_price volume instrument)).

Section Validators.
Context `{Builtins}.

Definition validate_datetime (datetime_str : pyval) : M (option datetime) :=
  try_except (t ← py_strptime datetime_str; mret (Some t))
    is_ValueError (λ _, mret None).

Definition validate_numeric (value : pyval) (field_name : string)
  : M (option float) :=
  try_except
    (num_value ← py_float value;
     (if Float.ltb num_value Float.zero
      then logger WARNING (NegativeValueFound field_name (NumFloat num_value))
      else mret tt);;
     mret (Some num_value))
    is_ValueError (λ _, mret None).

Definition validate_integer (value : pyval) (field_name : string)
  : M (option Z) :=
  try_except
    (int_value ← py_int value;
     (if (int_value <? 0)%Z
      then logger WARNING (NegativeValueFound field_name (NumInt int_value))
      else mret tt);;
     mret (Some int_value))
    is_ValueError (λ _, mret None).

Definition validate_row (row : Row) (row_number : nat)
  : M (bool * error_msg * option parsed_row) :=
  try_except
    (v_datetime ← getitem row "datetime";
     dt ← validate_datetime v_datetime;
     match dt with
     | None => mret (false, InvalidDatetimeFormat v_datetime, None)
     | Some dt =>
     v_close ← getitem row "close";
     close ← validate_numeric v_close "close";
     match close with
     | None => mret (false, InvalidPrice "close" v_close, None)
     | Some close =>
     v_high ← getitem row "high";
     high ← validate_numeric v_high "high";
     match high with
     | None => mret (false, InvalidPrice "high" v_high, None)
     | Some high =>
     v_low ← getitem row "low";
     low ← validate_numeric v_low "low";
     match low with
     | None => mret (false, InvalidPrice "low" v_low, None)
     | Some low =>
     v_open ← getitem row "open";
     open_price ← validate_numeric v_open "open";
     match open_price with
     | None => mret (false, InvalidPrice "open" v_open, None)
     | Some open_price =>
     v_volume ← getitem row "volume";
     volume ← validate_integer v_volume "volume";
     match volume with
     | None => mret (false, InvalidVolume v_volume, None)
     | Some volume =>
     v_instrument ← getitem row "instrument";
     instrument ← py_strip v_instrument;
     if String.eqb instrument "" then
       mret (false, EmptyInstrumentName, None)
     else if Float.ltb high low then
       mret (false, HighLessThanLow high low, None)
     else if Float.ltb high open_price || Float.ltb high close then
       mret (false, HighLessThanOpenOrClose high open_price close, None)
     else if Float.gtb low open_price || Float.gtb low close then
       mret (false, LowGreaterThanOpenOrClose low open_price close, None)
     else
       mret (true, NoError,
             Some (mk_parsed_row dt close high low open_price volume
                     instrument))
     end end end end end end)
    Exception
    (λ e, mret (false, UnexpectedError e, None)).

(** The body of [for row_number, row in enumerate(csv_reader, start=2)]. *)
Definition parse_step (self : t) (row_number : nat) (row : Row) : M t :=
  '(is_valid, error_msg, parsed_row) ← validate_row row row_number;
  match is_valid, parsed_row with
  | true, Some parsed_row =>
      mret (mk (csv_file_path self)
               (parsed_data self ++ [parsed_row])
               (invalid_rows self))
  | _, _ =>
      mret (mk (csv_file_path self)
               (parsed_data self)
               (invalid_rows self ++ [(row_number, error_msg)]))
  end.

(** The loop over [enumerate(rows, start)]. *)
Fixpoint parse_rows (self : t) (start : nat) (rows : list Row) : M t :=
  match rows with
  | [] => mret self
  | row :: rows' =>
      self' ← parse_step self start row;
      parse_rows self' (S start) rows'
  end.

(** [parse_csv]; the file system is an argument.  The [try] covers the
    opening of the file, the header and the row loop: whatever is raised
    there is logged and the answer is [False], with the rows stored so
    far kept in the object.  The loop body itself raises nothing
    ([validate_row] catches every exception), so the only exceptions are
    those of [open] and of the reader. *)
Definition parse_csv (self : t) (f : file) : M (bool * t) :=
  if negb (exists_ f) then
    logger ERROR CsvFileNotFound;; mret (false, self)
  else
    match open_ f with
    | inl e => logger ERROR (ErrorParsingCsvFile e);; mret (false, self)
    | inr csv_reader =>
        match fieldnames csv_reader with
        | inl e => logger ERROR (ErrorParsingCsvFile e);; mret (false, self)
        | inr header =>
            ok ← validate_header header;
            if negb ok then mret (false, self)
            else
              self' ← parse_rows self 2 (rows csv_reader);
              match stop csv_reader with
              | Some e =>
                  logger ERROR (ErrorParsingCsvFile e);; mret (false, self')
              | None =>
                  logger INFO ParsingCompleted;;
                  logger INFO (ValidRows (length (parsed_data self')));;
                  logger INFO (InvalidRows (length (invalid_rows self')));;
                  mret (true, self')
              end
        end
    end.
End Validators.

(** What [parse_csv] logs once the row loop is over. *)
Definition closing_records (self' : t) (stop : option exn)
  : list log_record :=
  match stop with
  | Some e => [(ERROR, ErrorParsingCsvFile e)]
  | None =>
      [(INFO, ParsingCompleted);
       (INFO, ValidRows (length (parsed_data self')));
       (INFO, InvalidRows (length (invalid_rows self')))]
  end.

End CSVParser.
(* ===================================================================== *)
(** ** app/import_data.py *)
(* ===================================================================== *)

Module StockDataImporter.

Inductive error_msg : Type :=
| NoError
| EmptyInstrumentName
| DataValidationError (e : exn)
| UnexpectedError (e : exn).

Section Validators.
Context `{Builtins}.

(** The two [except] clauses are one handler that dispatches on the
    class of the exception. *)
Definition validate_row_data (row : Row) : M (bool * error_msg) :=
  try_except
    (v_datetime ← getitem row "datetime";
     _ ← py_strptime v_datetime;
     v_close ← getitem row "close";
     _ ← py_float v_close;
     v_high ← getitem row "high";
     _ ← py_float v_high;
     v_low ← getitem row "low";
     _ ← py_float v_low;
     v_open ← getitem row "open";
     _ ← py_float v_open;
     v_volume ← getitem row "volume";
     _ ← py_int v_volume;
     v_instrument ← getitem row "instrument";
     instrument ← py_strip v_instrument;
     if String.eqb instrument "" then mret (false, EmptyInstrumentName)
     else mret (true, NoError))
    Exception
    (λ e, if is_ValueError e
          then mret (false, DataValidationError e)
          else mret (false, UnexpectedError e)).
End Validators.

End StockDataImporter.

(* ===================================================================== *)
(** ** The pandas operations of app/api.py *)
(* ===================================================================== *)

Module Pandas.

(** A float64 Series is a list of [float64]; a missing value is NaN. *)

(** [Rolling._prep_values]: an infinite observation is made missing
    before the windowed pass. *)
Definition prep_values (values : list float64) : list float64 :=
  (λ x, if Float64.is_inf x then Float64.nan else x) <$> values.

(** The variables of [roll_mean]. *)
Record mean_state : Type := mk_state {
  nobs : Z;
  sum_x : float64;
  neg_ct : Z;
  compensation_add : float64;
  compensation_remove : float64;
  num_consecutive_same_value : Z;
  prev_value : float64
}.

(** The "setup" of a window that starts afresh at [values[s]]. *)
Definition setup (first : float64) : mean_state :=
  mk_state 0 Float64.zero 0 Float64.zero Float64.zero 0 first.

(** [add_mean]: an observation enters, by Kahan summation; a NaN is
    skipped. *)
Definition add_mean (val : float64) (st : mean_state) : mean_state :=
  if Float64.eqb val val then
    let y := Float64.sub val (compensation_add st) in
    let t := Float64.add (sum_x st) y in
    mk_state (nobs st + 1) t
      (if Float64.signbit val then neg_ct st + 1 else neg_ct st)
      (Float64.sub (Float64.sub t (sum_x st)) y)
      (compensation_remove st)
      (if Float64.eqb val (prev_value st)
       then num_consecutive_same_value st + 1 else 1)
      val
  else st.

(** [remove_mean]: an observation leaves. *)
Definition remove_mean (val : float64) (st : mean_state) : mean_state :=
  if Float64.eqb val val then
    let y := Float64.sub (Float64.neg val) (compensation_remove st) in
    let t := Float64.add (sum_x st) y in
    mk_state (nobs st - 1) t
      (if Float64.signbit val then neg_ct st - 1 else neg_ct st)
      (compensation_add st)
      (Float64.sub (Float64.sub t (sum_x st)) y)
      (num_consecutive_same_value st)
      (prev_value st)
  else st.

(** [calc_mean]: the quotient of the running sum by the number of
    observations; the last observation itself when the observations of
    the window are one run of equal values; 0 when the sign of the
    quotient contradicts the signs of the observations; NaN with fewer
    than [minp] observations. *)
Definition calc_mean (minp : Z) (st : mean_state) : float64 :=
  if ((minp <=? nobs st) && (0 <? nobs st))%Z then
    let result := Float64.div (sum_x st) (Float64.of_Z (nobs st)) in
    if (nobs st <=? num_consecutive_same_value st)%Z then prev_value st
    else if (neg_ct st =? 0)%Z && Float64.ltb result Float64.zero
    then Float64.zero
    else if (neg_ct st =? nobs st)%Z && Float64.gtb result Float64.zero
    then Float64.zero
    else result
  else Float64.nan.

(** [FixedWindowIndexer.get_window_bounds]: row [i] has the bounds
    [start[i] = max(i + 1 - window, 0)] and [end[i] = i + 1]. *)
Definition window_start (window : Z) (i : nat) : nat :=
  Z.to_nat (Z.of_nat i + 1 - window).

Definition window_end (i : nat) : nat := i + 1.

(** [values[j]] *)
Definition value_at (values : list float64) (j : nat) : float64 :=
  nth j values Float64.nan.

(** [range(a, b)] *)
Definition range (a b : nat) : list nat := seq a (b - a).

Definition add_range (values : list float64) (a b : nat) (st : mean_state)
  : mean_state :=
  fold_left (λ st j, add_mean (value_at values j) st) (range a b) st.

Definition remove_range (values : list float64) (a b : nat) (st : mean_state)
  : mean_state :=
  fold_left (λ st j, remove_mean (value_at values j) st) (range a b) st.

(** The body of the loop of [roll_mean] at row [i], from the state left
    by row [i - 1]: a window that does not overlap the previous one is
    set up afresh, otherwise the observations that left are removed and
    the new ones added. *)
Definition advance (values : list float64) (window : Z) (i : nat)
    (st : mean_state) : mean_state :=
  let s := window_start window i in
  let e := window_end i in
  if (i =? 0) || (window_end (i - 1) <=? s) then
    add_range values s e (setup (value_at values s))
  else
    add_range values (window_end (i - 1)) e
      (remove_range values (window_start window (i - 1)) s st).

Fixpoint roll_loop (values : list float64) (window minp : Z)
    (st : mean_state) (rows : list nat) : list float64 :=
  match rows with
  | [] => []
  | i :: rows' =>
      let st' := advance values window i st in
      calc_mean minp st' :: roll_loop values window minp st' rows'
  end.

(** [roll_mean(values, start, end, minp)] *)
Definition roll_mean (values : list float64) (window minp : Z)
  : list float64 :=
  roll_loop values window minp (setup Float64.nan) (seq 0 (length values)).

(** The state of [roll_mean] after row [i]. *)
Fixpoint state_at (values : list float64) (window : Z) (i : nat)
  : mean_state :=
  match i with
  | 0 => advance values window 0 (setup Float64.nan)
  | S j => advance values window i (state_at values window j)
  end.

(** What [add_mean] does to [prev_value] and
    [num_consecutive_same_value]: the last observation, and the length
    of the run of equal observations it ends. *)
Definition run_step (run : float64 * Z) (val : float64) : float64 * Z :=
  if Float64.eqb val val then
    (val, if Float64.eqb val run.1 then (run.2 + 1)%Z else 1%Z)
  else run.

(** The observations of a list: its members other than NaN. *)
Definition observed (values : list float64) : list float64 :=
  List.filter (λ val, Float64.eqb val val) values.

(** [values[a:b]] *)
Definition slice (values : list float64) (a b : nat) : list float64 :=
  value_at values <$> range a b.

(** [s.rolling(window=window, min_periods=min_periods).mean()].
    [rolling] refuses [min_periods > window] and a negative window with
    [ValueError]; a window that does not fit a 64-bit integer fails with
    [OverflowError] when the bounds are computed. *)
Definition rolling_mean (window min_periods : Z) (s : list float64)
  : exn + list float64 :=
  if (window <? min_periods)%Z then
    inl (ValueError "min_periods must be <= window")
  else if (window <? 0)%Z then
    inl (ValueError "window must be an integer 0 or greater")
  else if (2 ^ 63 <=? window)%Z then inl OverflowError
  else inr (roll_mean (prep_values s) window min_periods).

(** [s.shift(1)] *)
Definition shift (s : list float64) : list float64 :=
  match s with
  | [] => []
  | _ :: _ => Float64.nan :: removelast s
  end.

(** [s.fillna(v)] *)
Definition fillna (v : float64) (s : list float64) : list float64 :=
  (λ x, if Float64.is_nan x then v else x) <$> s.

(** [s.astype(float)] of an integer Series *)
Definition astype_float (s : list Z) : list float64 := Float64.of_Z <$> s.

(** [s.diff()]: [s - s.shift(1)], a float Series. *)
Definition diff (s : list Z) : list float64 :=
  let f := astype_float s in zip_with Float64.sub f (shift f).

(** [s.pct_change()]: [s / s.shift(1) - 1].  (pandas before 3.0 first
    pads closes that are NaN forward, a default it deprecates; what is
    stated below about the value of a return is stated for closes that
    are not NaN.) *)
Definition pct_change (s : list float64) : list float64 :=
  zip_with (λ x prev, Float64.sub (Float64.div x prev) Float64.one)
    s (shift s).

(** [s.prod()] with the default [skipna=True]: a NaN counts as 1, and
    the elements are multiplied from the first one on. *)
Definition prod (s : list float64) : float64 :=
  match (λ x, if Float64.is_nan x then Float64.one else x) <$> s with
  | [] => Float64.one
  | x :: xs => fold_left Float64.mul xs x
  end.

(** [df.loc[mask, col] = v] on one column *)
Definition loc_assign (mask : list bool) (v : Z) (col : list Z) : list Z :=
  zip_with (λ (m : bool) x, if m then v else x) mask col.

(** [index[mask]] *)
Definition select {A} (mask : list bool) (index : list A) : list A :=
  fst <$> List.filter snd (zip index mask).

End Pandas.

(* ===================================================================== *)
(** ** app/api.py: get_strategy_performance *)
(* ===================================================================== *)

Module Api.
Import Pandas.

(** A row of [SELECT datetime, close FROM stock_data ... ORDER BY
    datetime ASC], its close as [astype(float)] gives it. *)
Record row : Type := mk_row { datetime_ : datetime; close_ : float64 }.

(** The columns of [df] once the function has filled them in. *)
Record DataFrame : Type := mk_df {
  index : list datetime;
  close : list float64;
  short_ma : list float64;
  long_ma : list float64;
  signal : list Z;
  position : list float64;
  returns : list float64;
  strategy_returns : list float64
}.

Record performance : Type := mk_performance {
  buy_signals : list date;
  sell_signals : list date;
  num_buys : nat;
  num_sells : nat;
  total_trades : nat;
  cumulative_return : float64;
  short_window : Z;
  long_window : Z;
  instrument : string
}.

Inductive outcome : Type :=
| Message (message : string)
| Performance (p : performance)
| HTTPException (status_code : nat) (detail : exn).

Definition signal_column (short_ma long_ma : list float64) : list Z :=
  let signal := (λ _, 0%Z) <$> short_ma in
  let signal :=
    loc_assign (zip_with Float64.gtb short_ma long_ma) 1%Z signal in
  loc_assign (zip_with Float64.ltb short_ma long_ma) (-1)%Z signal.

Definition position_column (signal : list Z) : list float64 :=
  fillna Float64.zero (diff signal).

Definition strategy_returns_column (returns : list float64)
    (signal : list Z) : list float64 :=
  zip_with Float64.mul returns
    (fillna Float64.zero (shift (astype_float signal))).

(** Lines 139-148 and 156-157: the data frame. *)
Definition build_frame (rows : list row) (short_window long_window : Z)
  : exn + DataFrame :=
  let index := datetime_ <$> rows in
  let close := close_ <$> rows in
  match rolling_mean short_window 1 close with
  | inl e => inl e
  | inr short_ma =>
  match rolling_mean long_window 1 close with
  | inl e => inl e
  | inr long_ma =>
      let signal := signal_column short_ma long_ma in
      let position := position_column signal in
      let returns := fillna Float64.zero (pct_change close) in
      let strategy_returns := strategy_returns_column returns signal in
      inr (mk_df index close short_ma long_ma signal position returns
             strategy_returns)
  end end.

Definition buy_events (index : list datetime) (position : list float64)
  : list date :=
  strftime_Ymd <$>
    select ((λ p, Float64.eqb p (Float64.of_Z 2)) <$> position) index.

Definition sell_events (index : list datetime) (position : list float64)
  : list date :=
  strftime_Ymd <$>
    select ((λ p, Float64.eqb p (Float64.of_Z (-2))) <$> position) index.

(** The handler after the query: [rows] is what [cursor.fetchall()]
    returned. *)
Definition get_strategy_performance (rows : list row)
    (instrument : string) (short_window long_window : Z) : outcome :=
  match rows with
  | [] => Message "No data found for the given instrument."
  | _ :: _ =>
      match build_frame rows short_window long_window with
      | inl e => HTTPException 500 e
      | inr df =>
          let buy_signals := buy_events (index df) (position df) in
          let sell_signals := sell_events (index df) (position df) in
          let num_buys := length buy_signals in
          let num_sells := length sell_signals in
          let total_trades := Nat.min num_buys num_sells in
          let cumulative_return :=
            Float64.sub
              (prod ((λ x, Float64.add x Float64.one) <$>
                       strategy_returns df))
              Float64.one in
          Performance
            (mk_performance buy_signals sell_signals num_buys num_sells
               total_trades cumulative_return short_window long_window
               instrument)
      end
  end.

End Api.

(* ===================================================================== *)
(** ** The specification's formulas for the signal engine *)
(* ===================================================================== *)

(** These follow the wording of the specification, index by index, in
    binary64 arithmetic; the theorems below compare them with the columns
    of [Api.build_frame]. *)
Module Spec.

(** [close[j]] for [j] from [i + 1 - size] to [i]: the trailing window
    of [size] observations ending at [i]. *)
Definition trailing_window (close : list float64) (size i : nat)
  : list float64 :=
  (λ j, nth j close Float64.nan) <$> seq (i + 1 - size) size.

(** The sum of a non-empty list, its terms added from the first on. *)
Definition sum (xs : list float64) : float64 :=
  match xs with
  | [] => Float64.zero
  | x :: xs' => fold_left Float64.add xs' x
  end.

Definition arithmetic_mean (xs : list float64) : float64 :=
  Float64.div (sum xs) (Float64.of_Z (Z.of_nat (length xs))).



(** The closes of a window that count as observations: the finite ones. *)
Definition observations (xs : list float64) : list float64 :=
  List.filter (λ x, negb (Float64.is_nan x) && negb (Float64.is_inf x)) xs.

(** The size of the trailing window at index [i]: [min(window, i + 1)]. *)
Definition window_size (window : Z) (i : nat) : nat :=
  Z.to_nat (Z.min window (Z.of_nat i + 1)).

(** What the code makes of "the mean of the trailing window" at row [i]:
    the value [m] is [calc_mean] of the running state, whose count is the
    number of finite closes among the last [min(window, i + 1)]; it is
    NaN when there is none, and their common value when they are all
    equal.  Otherwise it is the quotient of the compensated running sum
    by that count, the arithmetic mean up to rounding. *)
Definition trailing_mean (close : list float64) (window : Z) (i : nat)
    (m : float64) : Prop :=
  let obs := observations (trailing_window close (window_size window i) i) in
  let st := Pandas.state_at (Pandas.prep_values close) window i in
  m = Pandas.calc_mean 1 st
  ∧ Pandas.nobs st = Z.of_nat (length obs)
  ∧ (obs = [] → m = Float64.nan)
  ∧ (∀ x, last obs = Some x →
          Forall (λ y, Float64.eqb y x = true) obs → m = x).

(** [r[i] = close[i]/close[i-1] - 1] for [i > 0], [r[0] = 0]. *)
Definition r (close : list float64) (i : nat) : float64 :=
  match i with
  | 0 => Float64.zero
  | S j =>
      Float64.sub
        (Float64.div (nth i close Float64.nan) (nth j close Float64.nan))
        Float64.one
  end.

(** [strat[i] = r[i] * signal[i-1]] for [i > 0], [strat[0] = 0]. *)
Definition strat (close : list float64) (signal : list Z) (i : nat)
  : float64 :=
  match i with
  | 0 => Float64.zero
  | S j => Float64.mul (r close i) (Float64.of_Z (nth j signal 0%Z))
  end.

(** The factor [1 + strat[i]]. *)
Definition factor (close : list float64) (signal : list Z) (i : nat)
  : float64 :=
  Float64.add Float64.one (strat close signal i).

(** [Π (1 + strat[i]) - 1], the factors taken in time order. *)
Definition cumulative_return (close : list float64) (signal : list Z)
  : float64 :=
  Float64.sub
    (match seq 0 (length close) with
     | [] => Float64.one
     | i :: rest =>
         fold_left (λ acc j, Float64.mul acc (factor close signal j)) rest
           (factor close signal i)
     end)
    Float64.one.

(** The dates of the indices [i] at which [position_delta[i] == delta]. *)
Definition events_where (delta : Z) (index : list datetime)
    (position : list float64) : list date :=
  (λ i, strftime_Ymd (nth i index (mk_datetime 0 0 0 0 0 0))) <$>
    List.filter
      (λ i, Float64.eqb (nth i position Float64.nan) (Float64.of_Z delta))
      (seq 0 (length index)).

(** [enumerate(rows, start)] *)
Fixpoint enumerate {A} (start : nat) (rows : list A) : list (nat * A) :=
  match rows with
  | [] => []
  | x :: rows' => (start, x) :: enumerate (S start) rows'
  end.

End Spec.

(** Batch validation, row by row: what [validate_row] answers for the row
    with a given ordinal, and the list the row goes to. *)
Module Batch.
Import CSVParser.

Section Verdicts.
Context `{Builtins}.

Definition verdict (ordinal : nat) (row : Row)
  : bool * error_msg * option parsed_row :=
  match (validate_row row ordinal []).1 with
  | inr r => r
  | inl e => (false, UnexpectedError e, None)
  end.

Definition accepted (entry : nat * Row) : option parsed_row :=
  match verdict entry.1 entry.2 with
  | (true, _, Some parsed) => Some parsed
  | _ => None
  end.

Definition rejected (entry : nat * Row) : option (nat * error_msg) :=
  match verdict entry.1 entry.2 with
  | (true, _, Some _) => None
  | (_, msg, _) => Some (entry.1, msg)
  end.
End Verdicts.

End Batch.

(* ===================================================================== *)
(** ** A reference instance of the parsing builtins *)
(* ===================================================================== *)

(** The examples need concrete parsers.  This instance reads the canonical
    forms only (zero-padded timestamps, plain decimal numerals with an
    optional sign) and gives them the value Python gives them; Python's
    builtins accept more spellings, which no theorem depends on. *)
Module Reference.

Definition digit (c : ascii) : option Z :=
  let n := Z.of_nat (nat_of_ascii c) in
  if ((48 <=? n) && (n <=? 57))%Z then Some (n - 48)%Z else None.

Fixpoint digits_from (acc : Z) (cs : list ascii) : option Z :=
  match cs with
  | [] => Some acc
  | c :: cs' =>
      match digit c with
      | Some d => digits_from (10 * acc + d)%Z cs'
      | None => None
      end
  end.

(** A non-empty run of decimal digits. *)
Definition digits (cs : list ascii) : option Z :=
  match cs with
  | [] => None
  | _ :: _ => digits_from 0 cs
  end.

Definition split_sign (cs : list ascii) : bool * list ascii :=
  match cs with
  | "-"%char :: cs' => (true, cs')
  | "+"%char :: cs' => (false, cs')
  | _ => (false, cs)
  end.

Definition int_of_str (s : string) : option Z :=
  let '(negative, body) := split_sign (list_ascii_of_string s) in
  match digits body with
  | Some n => Some (if negative then (- n)%Z else n)
  | None => None
  end.

Fixpoint split_at_dot (cs : list ascii) : list ascii * option (list ascii) :=
  match cs with
  | [] => ([], None)
  | "."%char :: cs' => ([], Some cs')
  | c :: cs' => let '(a, b) := split_at_dot cs' in (c :: a, b)
  end.

Definition float_of_str (s : string) : option float :=
  let '(negative, body) := split_sign (list_ascii_of_string s) in
  let '(int_part, frac_part) := split_at_dot body in
  match digits int_part, frac_part with
  | Some n, None =>
      Some (Float.of_Z (if negative then (- n)%Z else n))
  | Some n, Some frac =>
      match digits frac with
      | Some f =>
          let scale := Pos.pow 10 (Pos.of_nat (length frac)) in
          let m := (n * Zpos scale + f)%Z in
          Some (Fin (Qred (Qmake (if negative then (- m)%Z else m) scale)))
      | None => None
      end
  | None, _ => None
  end.

Definition is_leap (y : Z) : bool :=
  ((y mod 4 =? 0) && (negb (y mod 100 =? 0) || (y mod 400 =? 0)))%Z.

Definition days_in_month (y m : Z) : Z :=
  if (m =? 2)%Z then (if is_leap y then 29 else 28)%Z
  else if ((m =? 4) || (m =? 6) || (m =? 9) || (m =? 11))%Z then 30%Z
  else 31%Z.

(** [YYYY-MM-DD HH:MM:SS] *)
Definition strptime (s : string) : option datetime :=
  match list_ascii_of_string s with
  | [y1; y2; y3; y4; "-"%char; m1; m2; "-"%char; d1; d2; " "%char;
     h1; h2; ":"%char; n1; n2; ":"%char; s1; s2] =>
      match digits [y1; y2; y3; y4], digits [m1; m2], digits [d1; d2],
            digits [h1; h2], digits [n1; n2], digits [s1; s2] with
      | Some y, Some m, Some d, Some h, Some n, Some sec =>
          if ((1 <=? y) && (1 <=? m) && (m <=? 12) && (1 <=? d)
              && (d <=? days_in_month y m) && (h <=? 23) && (n <=? 59)
              && (sec <=? 59))%Z
          then Some (mk_datetime (Z.to_nat y) (Z.to_nat m) (Z.to_nat d)
                       (Z.to_nat h) (Z.to_nat n) (Z.to_nat sec))
          else None
      | _, _, _, _, _, _ => None
      end
  | _ => None
  end.

Definition is_space (c : ascii) : bool :=
  let n := nat_of_ascii c in
  (n =? 32) || ((9 <=? n) && (n <=? 13)) || ((28 <=? n) && (n <=? 31)).

Fixpoint lstrip (cs : list ascii) : list ascii :=
  match cs with
  | c :: cs' => if is_space c then lstrip cs' else cs
  | [] => []
  end.

Definition strip (s : string) : string :=
  string_of_list_ascii
    (rev (lstrip (rev (lstrip (list_ascii_of_string s))))).

Definition builtins : Builtins :=
  {| Py.strptime := strptime;
     Py.float_of_str := float_of_str;
     Py.int_of_str := int_of_str;
     Py.strip := strip |}.

(** The row of the specification's scenario, with a given volume:
    [2024-01-15 09:30:00,153.00,155.75,149.25,150.50,<volume>,HINDALCO]. *)
Definition scenario_row (high low volume : string) : Row :=
  <["datetime" := PyStr "2024-01-15 09:30:00"]>
  (<["close" := PyStr "153.00"]>
  (<["high" := PyStr high]>
  (<["low" := PyStr low]>
  (<["open" := PyStr "150.50"]>
  (<["volume" := PyStr volume]>
  (<["instrument" := PyStr "HINDALCO"]> ∅)))))).

Definition day (d : nat) (close : Z) : Api.row :=
  Api.mk_row (mk_datetime 2024 1 d 0 0 0) (Float64.of_Z close).

(** A day whose close is the decimal [cents / 100]. *)
Definition day_cents (d : nat) (cents : Z) : Api.row :=
  Api.mk_row (mk_datetime 2024 1 d 0 0 0) (Float64.of_decimal cents 2).

(** Three days of rising closes. *)
Definition rising : list Api.row := [day 1 100; day 2 110; day 3 121].

(** Six days at the close 0.1. *)
Definition flat : list Api.row :=
  (λ d, Api.mk_row (mk_datetime 2024 1 d 0 0 0) (Float64.of_decimal 1 1))
    <$> [1; 2; 3; 4; 5; 6].

(** Closes that go up, down and up again. *)
Definition zigzag : list Api.row :=
  [day 1 100; day 2 110; day 3 99; day 4 121; day 5 120].

(** The closes 75.39, 50.43, 91.97. *)
Definition prices : list Api.row :=
  [day_cents 1 7539; day_cents 2 5043; day_cents 3 9197].

(** The step-up series of the repository's [test_crossover_detection]:
    [[100] * 10 + [200] * 15]. *)
Definition step_up : list Api.row :=
  ((λ d, day d 100) <$> seq 1 10) ++ ((λ d, day d 200) <$> seq 11 15).

(** A first close of 0. *)
Definition from_zero : list Api.row := [day 1 0; day 2 1].


End Reference.
(* ===================================================================== *)
(** ** app/csv_parser.py: generate_statistics *)
(* ===================================================================== *)

Module Statistics.
Import CSVParser.

(** [min(first, *rest)] and [max(first, *rest)] under a comparison [lt]:
    the builtin keeps the first item and replaces it by a later one that
    compares strictly below (above) it. *)
Definition py_min {A} (lt : A → A → bool) (first : A) (rest : list A) : A :=
  fold_left (λ m v, if lt v m then v else m) rest first.

Definition py_max {A} (lt : A → A → bool) (first : A) (rest : list A) : A :=
  fold_left (λ m v, if lt m v then v else m) rest first.

(** [<] on tuples of naturals, as [datetime.__lt__] compares its fields. *)
Fixpoint lex_ltb (a b : list nat) : bool :=
  match a, b with
  | x :: a', y :: b' => (x <? y) || ((x =? y) && lex_ltb a' b')
  | _, _ => false
  end.

Definition datetime_fields (t : datetime) : list nat :=
  [year t; month t; day t; hour t; minute t; second t].

Definition datetime_ltb (t u : datetime) : bool :=
  lex_ltb (datetime_fields t) (datetime_fields u).

(** [t.date()], as a triple. *)
Definition date_key (t : datetime) : nat * nat * nat :=
  (year t, month t, day t).

(** The dictionary [self.statistics]; [list(set(instruments))] has no
    fixed order and is kept as the set. *)
Record t : Type := mk {
  total_rows : nat;
  invalid_rows : nat;
  date_range : datetime * datetime;
  price_range : float * float;
  volume_range : Z * Z;
  unique_instruments : nat;
  instruments : gset string;
  unique_dates : nat
}.

(** [generate_statistics]: the new value of [self.statistics], given the
    old one ([None] for the empty dictionary of [__init__]). *)
Definition generate_statistics (self : CSVParser.t) (old : option t)
  : option t :=
  match parsed_data self with
  | [] => old
  | first :: rest =>
      let instruments : gset string :=
        list_to_set (r_instrument <$> parsed_data self) in
      let dates : gset (nat * nat * nat) :=
        list_to_set ((λ row, date_key (r_dt row)) <$> parsed_data self) in
      Some (mk (length (parsed_data self))
               (length (CSVParser.invalid_rows self))
               (py_min datetime_ltb (r_dt first) (r_dt <$> rest),
                py_max datetime_ltb (r_dt first) (r_dt <$> rest))
               (py_min Float.ltb (r_close first) (r_close <$> rest),
                py_max Float.ltb (r_close first) (r_close <$> rest))
               (py_min Z.ltb (r_volume first) (r_volume <$> rest),
                py_max Z.ltb (r_volume first) (r_volume <$> rest))
               (size instruments)
               instruments
               (size dates))
  end.

End Statistics.

(* ===================================================================== *)
(** ** app/import_data.py: parse_csv_data and insert_data_batch *)
(* ===================================================================== *)

Module ImportData.
Import CSVParser.

(** The second component of an entry of [invalid_rows]: the message of
    the validator, or ["Data parsing error: ..."]. *)
Inductive row_error : Type :=
| Validation (msg : StockDataImporter.error_msg)
| DataParsingError (e : exn).

(** What the logger of [import_data] receives from the two functions. *)
Inductive log_message : Type :=
| InvalidCsvStructure (got : option (list string))
| CsvStructurePassed
| ParsedValidRows (n : nat)
| FoundInvalidRows (n : nat)
| RowError (row_num : nat) (error : row_error)
| CsvFileNotFound
| ErrorParsingCsv (e : exn)
| InsertedBatch (number size total : nat)
| SuccessfullyInserted (total : nat)
| ErrorInsertingData.

Definition log_record : Type := level * log_message.

Definition validate_csv_structure (header : option (list string))
  : bool * list log_record :=
  if decide (header ≠ Some expected_columns)
  then (false, [(ERROR, InvalidCsvStructure header)])
  else (true, [(INFO, CsvStructurePassed)]).

Section Parsing.
Context `{Builtins}.

(** The tuple built for a valid row (lines 115-123). *)
Definition parse_tuple (row : Row) : M parsed_row :=
  v_datetime ← getitem row "datetime";
  dt ← py_strptime v_datetime;
  v_close ← getitem row "close";
  close ← py_float v_close;
  v_high ← getitem row "high";
  high ← py_float v_high;
  v_low ← getitem row "low";
  low ← py_float v_low;
  v_open ← getitem row "open";
  open_price ← py_float v_open;
  v_volume ← getitem row "volume";
  volume ← py_int v_volume;
  v_instrument ← getitem row "instrument";
  instrument ← py_strip v_instrument;
  mret (mk_parsed_row dt close high low open_price volume instrument).

(** The loop over [enumerate(csv_reader, start)], on the two local
    lists; an exception that escapes a step ends the loop. *)
Fixpoint parse_loop (parsed_data : list parsed_row)
    (invalid_rows : list (nat * row_error)) (row_num : nat)
    (rows : list Row)
  : exn + list parsed_row * list (nat * row_error) :=
  match rows with
  | [] => inr (parsed_data, invalid_rows)
  | row :: rows' =>
      match (StockDataImporter.validate_row_data row []).1 with
      | inl e => inl e
      | inr (true, _) =>
          match (parse_tuple row []).1 with
          | inr parsed_row =>
              parse_loop (parsed_data ++ [parsed_row]) invalid_rows
                (S row_num) rows'
          | inl e =>
              parse_loop parsed_data
                (invalid_rows ++ [(row_num, DataParsingError e)])
                (S row_num) rows'
          end
      | inr (false, error_msg) =>
          parse_loop parsed_data
            (invalid_rows ++ [(row_num, Validation error_msg)])
            (S row_num) rows'
      end
  end.

(** The tuple [parse_loop] stores for a row, if it stores one. *)
Definition stored_tuple (row : Row) : option parsed_row :=
  match (StockDataImporter.validate_row_data row []).1 with
  | inr (true, _) =>
      match (parse_tuple row []).1 with
      | inr parsed_row => Some parsed_row
      | inl _ => None
      end
  | _ => None
  end.

(** The entry [parse_loop] appends to [invalid_rows] for a row the
    validator refuses, if it refuses it. *)
Definition rejected (entry : nat * Row) : option (nat * row_error) :=
  match (StockDataImporter.validate_row_data entry.2 []).1 with
  | inr (false, error_msg) => Some (entry.1, Validation error_msg)
  | _ => None
  end.

(** What [parse_csv_data] logs after the loop. *)
Definition summary_records (parsed_data : list parsed_row)
    (invalid_rows : list (nat * row_error)) : list log_record :=
  (INFO, ParsedValidRows (length parsed_data))
  :: match invalid_rows with
     | [] => []
     | _ :: _ =>
         (WARNING, FoundInvalidRows (length invalid_rows))
         :: ((λ '(row_num, error), (WARNING, RowError row_num error))
               <$> take 10 invalid_rows)
     end.

(** [parse_csv_data]: the returned list and the log.  [open] raising
    [FileNotFoundError] has its own handler; every other exception of
    [open], of the header or of the reader, and any that escapes the
    loop, is logged and the function returns the empty list, whatever
    rows it had stored. *)
Definition parse_csv_data (f : file) : list parsed_row * list log_record :=
  match open_ f with
  | inl e =>
      if is_FileNotFoundError e then ([], [(ERROR, CsvFileNotFound)])
      else ([], [(ERROR, ErrorParsingCsv e)])
  | inr csv_reader =>
      match fieldnames csv_reader with
      | inl e => ([], [(ERROR, ErrorParsingCsv e)])
      | inr header =>
          let '(ok, log) := validate_csv_structure header in
          if negb ok then ([], log)
          else
            match parse_loop [] [] 2 (rows csv_reader), stop csv_reader with
            | inl e, _ | inr _, Some e =>
                ([], log ++ [(ERROR, ErrorParsingCsv e)])
            | inr (parsed_data, invalid_rows), None =>
                (parsed_data, log ++ summary_records parsed_data invalid_rows)
            end
      end
  end.
End Parsing.

(** The table behind the cursor: the committed records and those of the
    open transaction. *)
Record database (A : Type) : Type := mk_database {
  committed : list A;
  pending : list A
}.
Arguments mk_database {A} _ _.
Arguments committed {A} _.
Arguments pending {A} _.

Definition commit {A} (db : database A) : database A :=
  mk_database (committed db ++ pending db) [].

Definition rollback {A} (db : database A) : database A :=
  mk_database (committed db) [].

Section Insert.
Context {A : Type}.

(** Whether [executemany] followed by [commit] goes through for a batch,
    given the state of the table: the database decides. *)
Variable accepts : database A → list A → bool.

Definition batch_size : nat := 1000.

(** [range(0, len(data), batch_size)] *)
Definition batch_starts (data : list A) : list nat :=
  (λ k, k * batch_size) <$> seq 0 ((length data + batch_size - 1) / batch_size).

(** The loop body for the batches starting at [starts]; [None] when a
    batch raised. *)
Fixpoint insert_loop (data : list A) (starts : list nat)
    (db : database A) (total_inserted : nat) (log : list log_record)
  : option nat * database A * list log_record :=
  match starts with
  | [] => (Some total_inserted, db, log)
  | i :: starts' =>
      let batch := take batch_size (drop i data) in
      if accepts db batch then
        let db := commit (mk_database (committed db) (pending db ++ batch)) in
        let total_inserted := total_inserted + length batch in
        insert_loop data starts' db total_inserted
          (log ++ [(INFO, InsertedBatch (i / batch_size + 1) (length batch)
                            total_inserted)])
      else (None, db, log)
  end.

Definition insert_data_batch (data : list A) (db : database A)
  : nat * database A * list log_record :=
  match data with
  | [] => (0, db, [])
  | _ :: _ =>
      match insert_loop data (batch_starts data) db 0 [] with
      | (Some total_inserted, db, log) =>
          (total_inserted, db,
           log ++ [(INFO, SuccessfullyInserted total_inserted)])
      | (None, db, log) =>
          (0, rollback db, log ++ [(ERROR, ErrorInsertingData)])
      end
  end.
End Insert.

End ImportData.

(** A second reference instance: the first one, which also reads the
    spelling [nan] as Python's [float] does. *)
Module ReferenceNaN.

Definition float_of_str (s : string) : option float :=
  if String.eqb s "nan" then Some NaN else Reference.float_of_str s.

Definition builtins : Builtins :=
  {| Py.strptime := Reference.strptime;
     Py.float_of_str := float_of_str;
     Py.int_of_str := Reference.int_of_str;
     Py.strip := Reference.strip |}.

End ReferenceNaN.

(* ===================================================================== *)
(** ** Properties: floating-point values *)
(* ===================================================================== *)

Section FloatFacts.

Lemma Qltb_lt (a b : Q) : Float.Qltb a b = true ↔ (a < b)%Q.
Proof.
  unfold Float.Qltb. rewrite negb_true_iff.
  destruct (Qle_bool b a) eqn:E.
  - apply Qle_bool_iff in E. split; [discriminate |].
    intros Hlt. exfalso. exact (Qlt_not_le _ _ Hlt E).
  - split; [| reflexivity]. intros _. apply Qnot_le_lt.
    intros Hle. apply Qle_bool_iff in Hle. congruence.
Qed.

Lemma Qltb_asym (a b : Q) : Float.Qltb a b = true → Float.Qltb b a = false.
Proof.
  intros Hab. apply Qltb_lt in Hab.
  destruct (Float.Qltb b a) eqn:E; [| reflexivity].
  apply Qltb_lt in E. exfalso. exact (Qlt_irrefl _ (Qlt_trans _ _ _ Hab E)).
Qed.

Lemma ltb_asym (x y : float) : Float.ltb x y = true → Float.ltb y x = false.
Proof.
  destruct x, y; simpl; try reflexivity; try discriminate.
  apply Qltb_asym.
Qed.


End FloatFacts.

(* ===================================================================== *)
(** ** Properties: binary64 comparison and arithmetic *)
(* ===================================================================== *)

Section Binary64Facts.

Lemma SFcompare_antisym (x y : float64) :
  SFcompare y x = CompOpp <$> SFcompare x y.
Proof.
  destruct x as [sx | sx | | sx mx ex], y as [sy | sy | | sy my ey];
    cbn; try reflexivity;
    try (destruct sx; reflexivity); try (destruct sy; reflexivity);
    try (destruct sx, sy; reflexivity).
  pose proof (Pos.compare_cont_antisym mx my Eq) as Hm.
  change (CompOpp Eq) with Eq in Hm.
  destruct sx, sy; cbn; try reflexivity.
  - rewrite (Z.compare_antisym ex ey).
    destruct (ex ?= ey)%Z; cbn; try reflexivity.
    do 2 f_equal. symmetry. exact Hm.
  - rewrite (Z.compare_antisym ex ey).
    destruct (ex ?= ey)%Z; cbn; try reflexivity.
    f_equal. symmetry. exact Hm.
Qed.

Lemma f64_ltb_asym (x y : float64) :
  Float64.ltb x y = true → Float64.ltb y x = false.
Proof.
  unfold Float64.ltb, SFltb. rewrite (SFcompare_antisym x y).
  by destruct (SFcompare x y) as [[| |] |].
Qed.

Lemma f64_eqb_not_ltb (x y : float64) :
  Float64.eqb x y = true →
  Float64.ltb x y = false ∧ Float64.ltb y x = false.
Proof.
  unfold Float64.eqb, Float64.ltb, SFeqb, SFltb.
  rewrite (SFcompare_antisym x y).
  by destruct (SFcompare x y) as [[| |] |].
Qed.

Lemma SFcompare_refl (x : float64) :
  SFcompare x x = if Float64.is_nan x then None else Some Eq.
Proof.
  destruct x as [s | s | | s m e]; cbn; try reflexivity.
  - by destruct s.
  - rewrite Z.compare_refl, Pos.compare_cont_refl. by destruct s.
Qed.

Lemma f64_ltb_irrefl (x : float64) : Float64.ltb x x = false.
Proof.
  unfold Float64.ltb, SFltb. rewrite SFcompare_refl.
  by destruct (Float64.is_nan x).
Qed.

Lemma f64_eqb_refl (x : float64) :
  Float64.eqb x x = negb (Float64.is_nan x).
Proof.
  unfold Float64.eqb, SFeqb. rewrite SFcompare_refl.
  by destruct (Float64.is_nan x).
Qed.

(** Two floats that compare equal are the same float, or two zeros. *)
Lemma f64_eqb_inv (x y : float64) :
  Float64.eqb x y = true →
  (Float64.is_zero x = true ∧ Float64.is_zero y = true)
  ∨ (x = y ∧ Float64.is_nan x = false).
Proof.
  unfold Float64.eqb, SFeqb.
  destruct x as [sx | sx | | sx mx ex], y as [sy | sy | | sy my ey];
    cbn; try discriminate; auto;
    try (destruct sx; discriminate); try (destruct sy; discriminate).
  - destruct sx, sy; try discriminate; auto.
  - destruct sx, sy; try discriminate;
      destruct (ex ?= ey)%Z eqn:Ee; try discriminate;
      apply Z.compare_eq in Ee; subst ey;
      destruct (Pos.compare_cont Eq mx my) eqn:Em; try discriminate;
      apply Pos.compare_eq in Em; subst my; auto.
Qed.

Lemma f64_eqb_sym (x y : float64) :
  Float64.eqb x y = Float64.eqb y x.
Proof.
  unfold Float64.eqb, SFeqb. rewrite (SFcompare_antisym x y).
  by destruct (SFcompare x y) as [[| |] |].
Qed.

Lemma f64_eqb_trans (x y z : float64) :
  Float64.eqb x y = true → Float64.eqb y z = true → Float64.eqb x z = true.
Proof.
  intros Hxy Hyz.
  destruct (f64_eqb_inv _ _ Hxy) as [[Hx Hy] | [-> _]]; [| exact Hyz].
  destruct (f64_eqb_inv _ _ Hyz) as [[_ Hz] | [<- _]]; [| exact Hxy].
  destruct x, z; try discriminate. reflexivity.
Qed.

Lemma f64_add_comm (x y : float64) : Float64.add x y = Float64.add y x.
Proof.
  unfold Float64.add.
  destruct x as [sx | sx | | sx mx ex], y as [sy | sy | | sy my ey];
    cbn; try reflexivity; try (by destruct sx, sy).
  rewrite (Z.min_comm ey ex). f_equal. apply Z.add_comm.
Qed.

Lemma f64_sub_nan (x : float64) :
  Float64.sub x Float64.nan = Float64.nan.
Proof. by destruct x. Qed.

Lemma f64_div_nan (x : float64) :
  Float64.div x Float64.nan = Float64.nan.
Proof. by destruct x. Qed.

(** A product with a zero is a zero or NaN. *)
Lemma f64_mul_zero (x : float64) :
  Float64.is_nan (Float64.mul x Float64.zero) = true
  ∨ Float64.is_zero (Float64.mul x Float64.zero) = true.
Proof. destruct x; cbn; auto. Qed.

(** One added to a zero is one. *)
Lemma f64_zero_add_one (x : float64) :
  Float64.is_zero x = true → Float64.add x Float64.one = Float64.one.
Proof. destruct x as [[|] | | |]; try discriminate; reflexivity. Qed.

(** The difference of two signals is exact. *)
Lemma f64_sub_signals (a b : Z) :
  (a = -1 ∨ a = 0 ∨ a = 1)%Z → (b = -1 ∨ b = 0 ∨ b = 1)%Z →
  Float64.sub (Float64.of_Z a) (Float64.of_Z b) = Float64.of_Z (a - b).
Proof.
  intros [-> | [-> | ->]] [-> | [-> | ->]]; vm_compute; reflexivity.
Qed.

Lemma f64_of_signal_not_nan (g : Z) :
  (g = -1 ∨ g = 0 ∨ g = 1)%Z → Float64.is_nan (Float64.of_Z g) = false.
Proof. intros [-> | [-> | ->]]; reflexivity. Qed.

End Binary64Facts.

(* ===================================================================== *)
(** ** Properties: the data frame of the signal engine *)
(* ===================================================================== *)

Section Frame.
Import Pandas Api.

Lemma length_roll_loop values (w m : Z) st (rows : list nat) :
  length (roll_loop values w m st rows) = length rows.
Proof.
  revert st. induction rows as [| i rows IH]; intros st; [reflexivity |].
  cbn. by rewrite IH.
Qed.

Lemma length_roll_mean values (w m : Z) :
  length (roll_mean values w m) = length values.
Proof. unfold roll_mean. by rewrite length_roll_loop, length_seq. Qed.

(** A window from 1 to 2^63 - 1 is accepted. *)
Lemma rolling_mean_in_range (w : Z) (s : list float64) :
  (0 < w)%Z → (w < 2 ^ 63)%Z →
  rolling_mean w 1 s = inr (roll_mean (prep_values s) w 1).
Proof.
  intros Hw Hmax. unfold rolling_mean.
  destruct (Z.ltb_spec w 1); [lia |].
  destruct (Z.ltb_spec w 0); [lia |].
  destruct (Z.leb_spec (2 ^ 63) w); [lia | reflexivity].
Qed.

(** Any other window is refused. *)
Lemma rolling_mean_out_of_range (w : Z) (s : list float64) :
  ((w <= 0)%Z → ∃ text, rolling_mean w 1 s = inl (ValueError text))
  ∧ ((2 ^ 63 <= w)%Z → rolling_mean w 1 s = inl OverflowError).
Proof.
  unfold rolling_mean. split; intros Hw.
  - destruct (Z.ltb_spec w 1); [by eexists | lia].
  - destruct (Z.ltb_spec w 1); [lia |].
    destruct (Z.ltb_spec w 0); [lia |].
    destruct (Z.leb_spec (2 ^ 63) w); [reflexivity | lia].
Qed.

Lemma length_shift (s : list float64) : length (shift s) = length s.
Proof.
  destruct s as [| x s]; [reflexivity |].
  unfold shift. rewrite removelast_firstn_len. cbn [length].
  rewrite length_take. simpl. lia.
Qed.

Lemma lookup_shift_0 (s : list float64) :
  s ≠ [] → shift s !! 0 = Some Float64.nan.
Proof. destruct s; [congruence | reflexivity]. Qed.

Lemma lookup_removelast {A} (l : list A) (i : nat) :
  S i < length l → removelast l !! i = l !! i.
Proof.
  intros Hi. rewrite removelast_firstn_len.
  apply lookup_take_lt. lia.
Qed.

Lemma lookup_shift_S (s : list float64) (i : nat) :
  S i < length s → shift s !! S i = s !! i.
Proof.
  intros Hi. destruct s as [| x s]; [simpl in Hi; lia |].
  unfold shift. cbn [lookup list_lookup].
  apply lookup_removelast. exact Hi.
Qed.

(** With windows in range the frame is built, column by column. *)
Lemma build_frame_in_range (rows : list row) (sw lw : Z) :
  (0 < sw)%Z → (sw < 2 ^ 63)%Z → (0 < lw)%Z → (lw < 2 ^ 63)%Z →
  ∃ df, build_frame rows sw lw = inr df
    ∧ index df = datetime_ <$> rows
    ∧ close df = close_ <$> rows
    ∧ short_ma df = roll_mean (prep_values (close df)) sw 1
    ∧ long_ma df = roll_mean (prep_values (close df)) lw 1
    ∧ signal df = signal_column (short_ma df) (long_ma df)
    ∧ position df = position_column (signal df)
    ∧ returns df = fillna Float64.zero (pct_change (close df))
    ∧ strategy_returns df = strategy_returns_column (returns df) (signal df).
Proof.
  intros Hs Hs' Hl Hl'. unfold build_frame.
  rewrite (rolling_mean_in_range sw) by assumption.
  rewrite (rolling_mean_in_range lw) by assumption.
  eexists. split; [reflexivity |]. simpl. repeat split.
Qed.

Lemma length_signal_column (s l : list float64) :
  length s = length l → length (signal_column s l) = length s.
Proof.
  intros H. unfold signal_column, loc_assign.
  rewrite !length_zip_with, !length_fmap. lia.
Qed.

Lemma lookup_signal_column (s l : list float64) (i : nat) (a b : float64) :
  s !! i = Some a → l !! i = Some b →
  signal_column s l !! i
  = Some (if Float64.ltb a b then (-1)%Z
          else if Float64.gtb a b then 1%Z else 0%Z).
Proof.
  intros Ha Hb. unfold signal_column, loc_assign.
  rewrite !lookup_zip_with, list_lookup_fmap, Ha, Hb. reflexivity.
Qed.

Lemma signal_column_range (s l : list float64) (i : nat) (g : Z) :
  signal_column s l !! i = Some g → (g = -1 ∨ g = 0 ∨ g = 1)%Z.
Proof.
  unfold signal_column, loc_assign.
  rewrite !lookup_zip_with, list_lookup_fmap.
  destruct (s !! i) as [a |]; [| discriminate].
  destruct (l !! i) as [b |]; [| discriminate]. cbn.
  destruct (Float64.ltb a b), (Float64.gtb a b); intros [= <-]; auto.
Qed.

Lemma frame_lengths (rows : list row) (sw lw : Z) (df : DataFrame) :
  build_frame rows sw lw = inr df →
  length (close df) = length rows
  ∧ length (short_ma df) = length rows
  ∧ length (long_ma df) = length rows
  ∧ length (signal df) = length rows.
Proof.
  unfold build_frame, rolling_mean. intros H.
  repeat match type of H with
         | context [if ?c then _ else _] => destruct c; [discriminate |]
         end.
  injection H as <-. cbn [close short_ma long_ma signal].
  rewrite length_signal_column;
    rewrite ?length_roll_mean; unfold prep_values;
    rewrite !length_fmap; auto.
Qed.

End Frame.

Section Signals.
Import Pandas Api.

Lemma lookup_position_0 (signal : list Z) :
  signal ≠ [] → position_column signal !! 0 = Some Float64.zero.
Proof.
  destruct signal as [| a signal]; [congruence |]. intros _.
  unfold position_column, fillna, diff, astype_float, shift.
  cbn [fmap list_fmap zip_with lookup list_lookup].
  by rewrite f64_sub_nan.
Qed.

Lemma lookup_position_S (signal : list Z) (i : nat) (a b : Z) :
  signal !! S i = Some a → signal !! i = Some b →
  position_column signal !! S i
  = Some (let d := Float64.sub (Float64.of_Z a) (Float64.of_Z b) in
          if Float64.is_nan d then Float64.zero else d).
Proof.
  intros Ha Hb.
  assert (Hlen : S i < length signal) by (apply lookup_lt_is_Some; eauto).
  unfold position_column, fillna, diff, astype_float.
  rewrite list_lookup_fmap, lookup_zip_with, lookup_shift_S
    by (rewrite length_fmap; exact Hlen).
  rewrite !list_lookup_fmap, Ha, Hb. reflexivity.
Qed.

Lemma length_position_column (signal : list Z) :
  length (position_column signal) = length signal.
Proof.
  unfold position_column, fillna, diff, astype_float.
  rewrite length_fmap, length_zip_with, length_shift, !length_fmap. lia.
Qed.

Lemma filter_fmap {A B} (f : A → B) (P : B → bool) (l : list A) :
  List.filter P (f <$> l) = f <$> List.filter (λ x, P (f x)) l.
Proof.
  induction l as [| x l IH]; [reflexivity |].
  cbn [fmap list_fmap List.filter]. fold (f <$> l). rewrite IH.
  destruct (P (f x)); reflexivity.
Qed.

(** Selecting by a mask is selecting the indices at which the mask
    holds. *)
Lemma select_by_index {A} (P : float64 → bool) (index : list A)
    (position : list float64) (d : A) :
  length index = length position →
  select (P <$> position) index
  = (λ i, nth i index d) <$>
      List.filter (λ i, P (nth i position Float64.nan))
        (seq 0 (length index)).
Proof.
  revert position. induction index as [| t index IH]; intros position Hlen.
  - reflexivity.
  - destruct position as [| p position]; [discriminate |].
    injection Hlen as Hlen. specialize (IH position Hlen).
    unfold select in *. cbn [length seq List.filter nth].
    rewrite <- fmap_S_seq, filter_fmap.
    cbn [fmap list_fmap zip zip_with List.filter nth snd].
    fold (P <$> position). fold (zip index (P <$> position)).
    destruct (P p).
    + cbn [fmap list_fmap fst nth]. f_equal.
      etrans; [exact IH |]. rewrite <- list_fmap_compose. reflexivity.
    + etrans; [exact IH |]. rewrite <- list_fmap_compose. reflexivity.
Qed.

Lemma buy_events_spec (index : list datetime) (position : list float64) :
  length index = length position →
  buy_events index position = Spec.events_where 2 index position.
Proof.
  intros Hlen. unfold buy_events, Spec.events_where.
  rewrite (select_by_index _ _ _ (mk_datetime 0 0 0 0 0 0)) by exact Hlen.
  rewrite <- list_fmap_compose. reflexivity.
Qed.

Lemma sell_events_spec (index : list datetime) (position : list float64) :
  length index = length position →
  sell_events index position = Spec.events_where (-2) index position.
Proof.
  intros Hlen. unfold sell_events, Spec.events_where.
  rewrite (select_by_index _ _ _ (mk_datetime 0 0 0 0 0 0)) by exact Hlen.
  rewrite <- list_fmap_compose. reflexivity.
Qed.

End Signals.

Section Engine.
Import Pandas Api.

Lemma performance_in_range (rows : list row) (instr : string) (sw lw : Z)
    (df : DataFrame) :
  rows ≠ [] → build_frame rows sw lw = inr df →
  ∃ p, get_strategy_performance rows instr sw lw = Performance p
    ∧ buy_signals p = buy_events (index df) (position df)
    ∧ sell_signals p = sell_events (index df) (position df)
    ∧ cumulative_return p
      = Float64.sub
          (prod ((λ x, Float64.add x Float64.one) <$> strategy_returns df))
          Float64.one.
Proof.
  intros Hne Hdf. unfold get_strategy_performance.
  destruct rows as [| r rows]; [congruence |].
  rewrite Hdf. eexists. split; [reflexivity |]. simpl. auto.
Qed.

(** C9.  On the empty series the handler returns the "no data" message:
    a response body, not an exception, whatever the window sizes. *)
Theorem empty_series_returns_sentinel (instr : string) (sw lw : Z) :
  get_strategy_performance [] instr sw lw
  = Message "No data found for the given instrument."
  ∧ ∀ status detail,
      get_strategy_performance [] instr sw lw ≠ HTTPException status detail.
Proof.
  split; [reflexivity |]. intros status detail. discriminate.
Qed.

(** C5.  Every signal of the engine is -1, 0 or 1: 1 where the short
    mean is above the long mean, -1 where it is below, 0 where the two
    are equal.  The windows are those the engine computes a frame for:
    from 1 to 2^63 - 1. *)
Theorem signal_values (rows : list row) (sw lw : Z) :
  (0 < sw < 2 ^ 63)%Z → (0 < lw < 2 ^ 63)%Z →
  ∃ df, build_frame rows sw lw = inr df
    ∧ ∀ i, i < length rows →
        ∃ s l g,
          short_ma df !! i = Some s
          ∧ long_ma df !! i = Some l
          ∧ signal df !! i = Some g
          ∧ (g = (-1)%Z ∨ g = 0%Z ∨ g = 1%Z)
          ∧ (Float64.gtb s l = true → g = 1%Z)
          ∧ (Float64.ltb s l = true → g = (-1)%Z)
          ∧ (Float64.eqb s l = true → g = 0%Z).
Proof.
  intros [Hs Hs'] [Hl Hl'].
  destruct (build_frame_in_range rows sw lw Hs Hs' Hl Hl')
    as (df & Hdf & _ & _ & _ & _ & Hsig & _).
  exists df. split; [exact Hdf |]. intros i Hi.
  destruct (frame_lengths _ _ _ _ Hdf) as (_ & Hls & Hll & _).
  destruct (lookup_lt_is_Some_2 (short_ma df) i) as [s Es]; [lia |].
  destruct (lookup_lt_is_Some_2 (long_ma df) i) as [l El]; [lia |].
  exists s, l. eexists. split; [exact Es |]. split; [exact El |].
  split; [rewrite Hsig; apply (lookup_signal_column _ _ _ _ _ Es El) |].
  unfold Float64.gtb. fold (Float64.ltb l s).
  destruct (Float64.ltb s l) eqn:Esl, (Float64.ltb l s) eqn:Els;
    try (apply f64_ltb_asym in Esl; congruence);
    (split; [auto |]); (split; [auto; discriminate |]);
    (split; [auto; discriminate |]);
    intros E; apply f64_eqb_not_ltb in E; destruct E; congruence.
Qed.

(** C4.  [position_delta] is the difference of consecutive signals and 0
    at the first index; the buy events are the indices where it is 2,
    the sell events those where it is -2; the signal path [-1, 0, 1]
    gives [0, 1, 1] and no event. *)
Theorem position_delta_and_events (rows : list row) (instr : string)
    (sw lw : Z) :
  rows ≠ [] → (0 < sw < 2 ^ 63)%Z → (0 < lw < 2 ^ 63)%Z →
  ∃ df p,
    build_frame rows sw lw = inr df
    ∧ get_strategy_performance rows instr sw lw = Performance p
    ∧ position df !! 0 = Some (Float64.of_Z 0)
    ∧ (∀ i, 0 < i < length rows →
         ∃ a b, signal df !! i = Some a
                ∧ signal df !! (i - 1) = Some b
                ∧ position df !! i = Some (Float64.of_Z (a - b)))
    ∧ buy_signals p = Spec.events_where 2 (index df) (position df)
    ∧ sell_signals p = Spec.events_where (-2) (index df) (position df)
    ∧ position_column [-1; 0; 1]%Z
      = [Float64.of_Z 0; Float64.of_Z 1; Float64.of_Z 1]
    ∧ ∀ t0 t1 t2,
        buy_events [t0; t1; t2] (position_column [-1; 0; 1]%Z) = []
        ∧ sell_events [t0; t1; t2] (position_column [-1; 0; 1]%Z) = [].
Proof.
  intros Hne [Hs Hs'] [Hl Hl'].
  destruct (build_frame_in_range rows sw lw Hs Hs' Hl Hl')
    as (df & Hdf & Hidx & _ & _ & _ & Hsig & Hpos & _).
  destruct (performance_in_range rows instr sw lw df Hne Hdf)
    as (p & Hp & Hbuy & Hsell & _).
  destruct (frame_lengths _ _ _ _ Hdf) as (_ & _ & _ & Hlen).
  assert (Hlenpos : length (index df) = length (position df)).
  { rewrite Hidx, Hpos, length_position_column, Hlen, length_fmap.
    reflexivity. }
  exists df, p. split; [exact Hdf |]. split; [exact Hp |].
  split.
  { rewrite Hpos. apply lookup_position_0.
    intros E. rewrite E in Hlen. destruct rows; [congruence | discriminate]. }
  split.
  { intros i [Hi0 Hi].
    destruct i as [| j]; [lia |].
    destruct (lookup_lt_is_Some_2 (signal df) (S j)) as [a Ea]; [lia |].
    destruct (lookup_lt_is_Some_2 (signal df) j) as [b Eb]; [lia |].
    exists a, b. replace (S j - 1) with j by lia.
    split; [exact Ea |]. split; [exact Eb |].
    rewrite Hpos, (lookup_position_S _ _ _ _ Ea Eb). f_equal. cbn zeta.
    assert (Ha : (a = -1 ∨ a = 0 ∨ a = 1)%Z)
      by (rewrite Hsig in Ea; exact (signal_column_range _ _ _ _ Ea)).
    assert (Hb : (b = -1 ∨ b = 0 ∨ b = 1)%Z)
      by (rewrite Hsig in Eb; exact (signal_column_range _ _ _ _ Eb)).
    rewrite (f64_sub_signals a b Ha Hb).
    destruct Ha as [-> | [-> | ->]], Hb as [-> | [-> | ->]]; reflexivity. }
  split; [rewrite Hbuy; apply buy_events_spec; exact Hlenpos |].
  split; [rewrite Hsell; apply sell_events_spec; exact Hlenpos |].
  split; [reflexivity |].
  intros t0 t1 t2. split; reflexivity.
Qed.

End Engine.

(* ===================================================================== *)
(** ** Properties: the rolling mean *)
(* ===================================================================== *)

Section RollingState.
Import Pandas.

Lemma roll_loop_states values (w m : Z) (n k : nat) (st : mean_state)
    (j : nat) :
  advance values w k st = state_at values w k → j < n →
  roll_loop values w m st (seq k n) !! j
  = Some (calc_mean m (state_at values w (k + j))).
Proof.
  revert k st j. induction n as [| n IH]; intros k st j Hst Hj; [lia |].
  cbn [seq roll_loop]. rewrite Hst. destruct j as [| j].
  - cbn. by rewrite Nat.add_0_r.
  - cbn [lookup list_lookup]. rewrite (IH (S k)); [| reflexivity | lia].
    do 3 f_equal. lia.
Qed.

Lemma lookup_roll_mean values (w m : Z) (i : nat) :
  i < length values →
  roll_mean values w m !! i = Some (calc_mean m (state_at values w i)).
Proof.
  intros Hi. unfold roll_mean.
  rewrite (roll_loop_states values w m (length values) 0 _ i);
    [reflexivity | reflexivity | exact Hi].
Qed.

Lemma range_app (a b c : nat) :
  a ≤ b → b ≤ c → range a c = range a b ++ range b c.
Proof.
  intros Hab Hbc. unfold range.
  replace (c - a) with ((b - a) + (c - b)) by lia.
  rewrite seq_app. do 2 f_equal. lia.
Qed.

Lemma slice_app values (a b c : nat) :
  a ≤ b → b ≤ c → slice values a c = slice values a b ++ slice values b c.
Proof.
  intros Hab Hbc. unfold slice. by rewrite (range_app a b c), fmap_app.
Qed.

Lemma add_range_slice values (a b : nat) (st : mean_state) :
  add_range values a b st
  = fold_left (λ st v, add_mean v st) (slice values a b) st.
Proof.
  unfold add_range, slice. generalize (range a b). intros l. revert st.
  induction l as [| j l IH]; intros st; [reflexivity |]. cbn. apply IH.
Qed.

Lemma remove_range_slice values (a b : nat) (st : mean_state) :
  remove_range values a b st
  = fold_left (λ st v, remove_mean v st) (slice values a b) st.
Proof.
  unfold remove_range, slice. generalize (range a b). intros l. revert st.
  induction l as [| j l IH]; intros st; [reflexivity |]. cbn. apply IH.
Qed.

Lemma observed_app (l k : list float64) :
  observed (l ++ k) = observed l ++ observed k.
Proof. unfold observed. apply List.filter_app. Qed.

(** Adding observations: the count grows by their number. *)
Lemma nobs_add (l : list float64) (st : mean_state) :
  nobs (fold_left (λ st v, add_mean v st) l st)
  = (nobs st + Z.of_nat (length (observed l)))%Z.
Proof.
  revert st. induction l as [| v l IH]; intros st; [cbn; lia |].
  cbn [fold_left observed List.filter]. rewrite IH. fold (observed l).
  unfold add_mean. destruct (Float64.eqb v v); cbn [nobs length]; lia.
Qed.

Lemma nobs_remove (l : list float64) (st : mean_state) :
  nobs (fold_left (λ st v, remove_mean v st) l st)
  = (nobs st - Z.of_nat (length (observed l)))%Z.
Proof.
  revert st. induction l as [| v l IH]; intros st; [cbn; lia |].
  cbn [fold_left observed List.filter]. rewrite IH. fold (observed l).
  unfold remove_mean. destruct (Float64.eqb v v); cbn [nobs length]; lia.
Qed.

(** The run of equal observations is not touched by a removal... *)
Lemma run_remove (l : list float64) (st : mean_state) :
  let st' := fold_left (λ st v, remove_mean v st) l st in
  prev_value st' = prev_value st
  ∧ num_consecutive_same_value st' = num_consecutive_same_value st.
Proof.
  revert st. induction l as [| v l IH]; intros st; [by cbn |].
  cbn [fold_left]. cbn zeta in *.
  destruct (IH (remove_mean v st)) as [-> ->].
  unfold remove_mean. by destruct (Float64.eqb v v).
Qed.

(** ... and follows [run_step] at an addition. *)
Lemma run_add (l : list float64) (st : mean_state) :
  let st' := fold_left (λ st v, add_mean v st) l st in
  (prev_value st', num_consecutive_same_value st')
  = fold_left run_step l (prev_value st, num_consecutive_same_value st).
Proof.
  revert st. induction l as [| v l IH]; intros st; [by cbn |].
  cbn [fold_left]. cbn zeta in *. rewrite IH. f_equal.
  unfold add_mean, run_step. cbn [fst snd].
  by destruct (Float64.eqb v v).
Qed.

(** A run that continues: every observation compares equal to [x], as
    did the last one before. *)
Lemma run_continues (l : list float64) (x p0 : float64) (n0 : Z) :
  Forall (λ y, Float64.eqb y x = true) (observed l) →
  Float64.eqb p0 x = true →
  fold_left run_step l (p0, n0)
  = (default p0 (last (observed l)),
     (n0 + Z.of_nat (length (observed l)))%Z).
Proof.
  revert p0 n0. induction l as [| v l IH]; intros p0 n0 Hall Hp0.
  - cbn. f_equal. lia.
  - cbn [fold_left observed List.filter] in *. fold (observed l) in *.
    unfold run_step at 2. cbn [fst snd].
    destruct (Float64.eqb v v) eqn:Ev.
    + apply Forall_cons in Hall. destruct Hall as [Hv Hall].
      assert (Hvp : Float64.eqb v p0 = true).
      { apply (f64_eqb_trans _ x); [exact Hv |].
        by rewrite f64_eqb_sym. }
      rewrite Hvp, (IH v (n0 + 1)%Z Hall Hv). cbn [length]. f_equal.
      * rewrite last_cons. by destruct (last (observed l)).
      * lia.
    + apply IH; assumption.
Qed.

(** A run that ends a list: at least as long as the observations that
    compare equal to [x], and ended by the last of them. *)
Lemma run_ends (l : list float64) (x p0 : float64) (n0 : Z) :
  Forall (λ y, Float64.eqb y x = true) (observed l) → (0 <= n0)%Z →
  (Z.of_nat (length (observed l)) <= (fold_left run_step l (p0, n0)).2)%Z
  ∧ (observed l ≠ [] →
     last (observed l) = Some (fold_left run_step l (p0, n0)).1).
Proof.
  revert p0 n0. induction l as [| v l IH]; intros p0 n0 Hall Hn0.
  - cbn. split; [lia | congruence].
  - cbn [fold_left observed List.filter] in *. fold (observed l) in *.
    unfold run_step at 2 4. cbn [fst snd].
    destruct (Float64.eqb v v) eqn:Ev.
    + apply Forall_cons in Hall. destruct Hall as [Hv Hall].
      rewrite (run_continues l x v _ Hall Hv). cbn [fst snd length].
      split.
      * destruct (Float64.eqb v p0); lia.
      * intros _. rewrite last_cons. by destruct (last (observed l)).
    + apply IH; assumption.
Qed.

End RollingState.

Section RollingWindows.
Import Pandas.

Variable values : list float64.
Variable w : Z.
Hypothesis w_pos : (0 < w)%Z.

Lemma run_nonneg (l : list float64) (p0 : float64) (n0 : Z) :
  (0 <= n0)%Z → (0 <= (fold_left run_step l (p0, n0)).2)%Z.
Proof.
  revert p0 n0. induction l as [| v l IH]; intros p0 n0 Hn0; [exact Hn0 |].
  cbn [fold_left]. unfold run_step at 2. cbn [fst snd].
  destruct (Float64.eqb v v); [| by apply IH].
  destruct (Float64.eqb v p0); apply IH; lia.
Qed.

Lemma advance_first (st : mean_state) :
  advance values w 0 st
  = add_range values 0 1 (setup (value_at values 0)).
Proof.
  unfold advance, window_start, window_end. cbn [Nat.eqb orb].
  replace (Z.to_nat (Z.of_nat 0 + 1 - w)) with 0 by lia. reflexivity.
Qed.

(** With a window of one row every row sets up afresh. *)
Lemma advance_setup (i : nat) (st : mean_state) :
  w = 1%Z →
  advance values w i st
  = add_range values i (i + 1) (setup (value_at values i)).
Proof.
  intros ->. unfold advance, window_start, window_end.
  replace (Z.to_nat (Z.of_nat i + 1 - 1)) with i by lia.
  destruct i as [| i]; [reflexivity |].
  cbn [Nat.eqb orb]. replace (S i - 1 + 1) with (S i) by lia.
  by rewrite Nat.leb_refl.
Qed.

(** With a longer window every row after the first slides. *)
Lemma advance_slide (i : nat) (st : mean_state) :
  (2 <= w)%Z →
  advance values w (S i) st
  = add_range values (S i) (S i + 1)
      (remove_range values (window_start w i) (window_start w (S i)) st).
Proof.
  intros Hw. unfold advance, window_end. cbn [Nat.eqb orb].
  replace (S i - 1) with i by lia.
  destruct (Nat.leb_spec (i + 1) (window_start w (S i))) as [Hle |].
  - unfold window_start in Hle. lia.
  - replace (i + 1) with (S i) by lia. reflexivity.
Qed.

Lemma state_single (i : nat) :
  w = 1%Z →
  state_at values w i
  = add_mean (value_at values i) (setup (value_at values i)).
Proof.
  intros Hw.
  assert (E : ∀ st, advance values w i st
                    = add_mean (value_at values i) (setup (value_at values i))).
  { intros st. rewrite (advance_setup i st Hw). unfold add_range, range.
    replace (i + 1 - i) with 1 by lia. reflexivity. }
  destruct i; cbn [state_at]; apply E.
Qed.

Lemma state_slide (i : nat) :
  (2 <= w)%Z →
  nobs (state_at values w i)
  = Z.of_nat (length (observed (slice values (window_start w i) (i + 1))))
  ∧ (prev_value (state_at values w i),
     num_consecutive_same_value (state_at values w i))
    = fold_left run_step (slice values 0 (i + 1)) (value_at values 0, 0%Z).
Proof.
  intros Hw. induction i as [| i [IHn IHr]].
  - cbn [state_at]. rewrite advance_first, add_range_slice.
    replace (window_start w 0) with 0 by (unfold window_start; lia).
    split; [by rewrite nobs_add | by rewrite run_add].
  - cbn [state_at]. rewrite (advance_slide i _ Hw).
    rewrite add_range_slice, remove_range_slice.
    assert (H1 : window_start w i ≤ window_start w (S i))
      by (unfold window_start; lia).
    assert (H2 : window_start w (S i) ≤ i + 1)
      by (unfold window_start; lia).
    split.
    + rewrite nobs_add, nobs_remove, IHn.
      rewrite (slice_app values (window_start w i) (window_start w (S i))
                 (i + 1)) by lia.
      rewrite (slice_app values (window_start w (S i)) (i + 1) (S i + 1))
        by lia.
      rewrite !observed_app, !length_app.
      replace (S i) with (i + 1) by lia. lia.
    + rewrite run_add.
      destruct (run_remove
                  (slice values (window_start w i) (window_start w (S i)))
                  (state_at values w i)) as [-> ->].
      rewrite IHr.
      rewrite (slice_app values 0 (i + 1) (S i + 1)) by lia.
      rewrite fold_left_app. replace (S i) with (i + 1) by lia. reflexivity.
Qed.

(** The state after row [i], in terms of the window of that row: the
    count is the number of observations of the window, and when these
    all compare equal the run covers them and ends with the last one. *)
Lemma state_window (i : nat) :
  let st := state_at values w i in
  let obs := observed (slice values (window_start w i) (i + 1)) in
  nobs st = Z.of_nat (length obs)
  ∧ ∀ x, Forall (λ y, Float64.eqb y x = true) obs →
         (Z.of_nat (length obs) <= num_consecutive_same_value st)%Z
         ∧ (obs ≠ [] → last obs = Some (prev_value st)).
Proof.
  cbn zeta. destruct (Z.eq_dec w 1%Z) as [Hw | Hw].
  - rewrite (state_single i Hw).
    replace (window_start w i) with i by (unfold window_start; lia).
    unfold slice, range. replace (i + 1 - i) with 1 by lia.
    cbn [seq fmap list_fmap observed List.filter].
    unfold add_mean. cbn [setup prev_value].
    destruct (Float64.eqb (value_at values i) (value_at values i));
      cbn [nobs num_consecutive_same_value prev_value length last];
      (split; [reflexivity |]); intros x _;
      (split; [cbn; lia | first [by intros _ | congruence]]).
  - destruct (state_slide i) as [Hn Hr]; [lia |].
    split; [exact Hn |]. intros x Hall.
    assert (Hs : window_start w i ≤ i + 1) by (unfold window_start; lia).
    rewrite (slice_app values 0 (window_start w i) (i + 1)) in Hr by lia.
    rewrite fold_left_app in Hr.
    destruct (fold_left run_step (slice values 0 (window_start w i))
                (value_at values 0, 0%Z)) as [p0 n0] eqn:E0.
    assert (Hn0 : (0 <= n0)%Z).
    { pose proof (run_nonneg (slice values 0 (window_start w i))
                    (value_at values 0) 0%Z) as Hnn.
      rewrite E0 in Hnn. apply Hnn. lia. }
    destruct (run_ends _ x p0 n0 Hall Hn0) as [Hlen Hlast].
    rewrite <- Hr in Hlen, Hlast. cbn [fst snd] in Hlen, Hlast. auto.
Qed.

(** The value of row [i]. *)
Lemma window_value (i : nat) :
  let st := state_at values w i in
  let obs := observed (slice values (window_start w i) (i + 1)) in
  (obs = [] → calc_mean 1%Z st = Float64.nan)
  ∧ ∀ x, Forall (λ y, Float64.eqb y x = true) obs → last obs = Some x →
         calc_mean 1%Z st = x.
Proof.
  cbn zeta. destruct (state_window i) as [Hn Hrun]. split.
  - intros E. unfold calc_mean. rewrite Hn, E. reflexivity.
  - intros x Hall Hlast.
    destruct (Hrun x Hall) as [Hlen Hprev].
    assert (Hne : observed (slice values (window_start w i) (i + 1)) ≠ [])
      by (intros E; rewrite E in Hlast; discriminate).
    specialize (Hprev Hne). rewrite Hlast in Hprev. injection Hprev as ->.
    unfold calc_mean. rewrite Hn.
    destruct (observed (slice values (window_start w i) (i + 1)))
      as [| y obs] eqn:Eo; [congruence |].
    cbn [length] in *.
    destruct (Z.leb_spec 1 (Z.of_nat (S (length obs)))); [| lia].
    destruct (Z.ltb_spec 0 (Z.of_nat (S (length obs)))); [| lia].
    cbn [andb].
    destruct (Z.leb_spec (Z.of_nat (S (length obs)))
                (num_consecutive_same_value (state_at values w i)));
      [reflexivity | lia].
Qed.

End RollingWindows.

Section TrailingWindows.
Import Pandas Api.

Lemma value_at_prep (close : list float64) (j : nat) :
  value_at (prep_values close) j
  = (let x := nth j close Float64.nan in
     if Float64.is_inf x then Float64.nan else x).
Proof.
  unfold value_at, prep_values. cbn zeta.
  set (f := λ x : float64, if Float64.is_inf x then Float64.nan else x).
  change (nth j (f <$> close) (f Float64.nan)
          = f (nth j close Float64.nan)).
  apply map_nth.
Qed.

Lemma observed_prep (l : list float64) :
  observed ((λ x, if Float64.is_inf x then Float64.nan else x) <$> l)
  = Spec.observations l.
Proof.
  induction l as [| x l IH]; [reflexivity |].
  cbn [fmap list_fmap observed Spec.observations List.filter].
  fold (observed ((λ x, if Float64.is_inf x then Float64.nan else x) <$> l)).
  fold (Spec.observations l). rewrite IH.
  destruct x as [s | s | | s m e]; cbn [Float64.is_inf Float64.is_nan negb andb];
    rewrite f64_eqb_refl; reflexivity.
Qed.

(** The window of row [i] in [roll_mean] is the trailing window of size
    [min(window, i + 1)]. *)
Lemma slice_trailing_window (close : list float64) (w : Z) (i : nat) :
  (0 < w)%Z →
  observed (slice (prep_values close) (window_start w i) (i + 1))
  = Spec.observations
      (Spec.trailing_window close (Spec.window_size w i) i).
Proof.
  intros Hw. rewrite <- observed_prep. f_equal.
  unfold slice, Spec.trailing_window, range.
  rewrite <- list_fmap_compose.
  replace (i + 1 - Spec.window_size w i) with (window_start w i)
    by (unfold window_start, Spec.window_size; lia).
  replace (i + 1 - window_start w i) with (Spec.window_size w i)
    by (unfold window_start, Spec.window_size; lia).
  apply list_fmap_ext. intros k j _. apply value_at_prep.
Qed.

Lemma rolling_mean_trailing (close : list float64) (w : Z) (i : nat) :
  (0 < w)%Z → i < length close →
  ∃ m, roll_mean (prep_values close) w 1 !! i = Some m
       ∧ Spec.trailing_mean close w i m.
Proof.
  intros Hw Hi. eexists. split.
  { apply lookup_roll_mean. unfold prep_values. by rewrite length_fmap. }
  unfold Spec.trailing_mean. cbn zeta.
  rewrite <- (slice_trailing_window close w i Hw).
  destruct (state_window (prep_values close) w Hw i) as [Hn _].
  destruct (window_value (prep_values close) w Hw i) as [Hnone Hsame].
  split; [reflexivity |]. split; [exact Hn |]. split; [exact Hnone |].
  intros x Hlast Hall. apply Hsame; assumption.
Qed.


End TrailingWindows.

(* ===================================================================== *)
(** ** Properties: returns and the cumulative return *)
(* ===================================================================== *)

Section Returns.
Import Pandas Api.

Lemma list_eq_fmap_seq {A} (l : list A) (f : nat → A) :
  (∀ i, i < length l → l !! i = Some (f i)) →
  l = f <$> seq 0 (length l).
Proof.
  intros H. apply list_eq. intros i. rewrite list_lookup_fmap.
  destruct (Nat.lt_ge_cases i (length l)) as [Hi | Hi].
  - rewrite lookup_seq_lt by exact Hi. rewrite (H i Hi). reflexivity.
  - rewrite lookup_seq_ge by exact Hi. apply lookup_ge_None_2. exact Hi.
Qed.

Lemma fold_left_fmap {A B C} (g : C → B → C) (f : A → B) (l : list A) (c : C) :
  fold_left g (f <$> l) c = fold_left (λ acc a, g acc (f a)) l c.
Proof.
  revert c. induction l as [| a l IH]; intros c; [reflexivity |].
  cbn [fmap list_fmap fold_left]. apply IH.
Qed.

Lemma lookup_nth (close : list float64) (i : nat) :
  i < length close → close !! i = Some (nth i close Float64.nan).
Proof.
  intros Hi. destruct (lookup_lt_is_Some_2 close i Hi) as [x Ex].
  rewrite Ex. f_equal. symmetry. by apply nth_lookup_Some with (d := Float64.nan).
Qed.

(** The returns column: [r[i]], with 0 where the quotient is NaN. *)
Lemma lookup_returns (close : list float64) (i : nat) :
  i < length close →
  fillna Float64.zero (pct_change close) !! i
  = Some (if Float64.is_nan (Spec.r close i) then Float64.zero
          else Spec.r close i).
Proof.
  intros Hi. unfold fillna, pct_change.
  rewrite list_lookup_fmap, lookup_zip_with, (lookup_nth close i Hi).
  destruct i as [| j].
  - rewrite lookup_shift_0 by (intros E; rewrite E in Hi; cbn in Hi; lia).
    cbn. by rewrite f64_div_nan.
  - rewrite lookup_shift_S by exact Hi.
    rewrite (lookup_nth close j) by lia. reflexivity.
Qed.

Variable close : list float64.
Variable signal : list Z.
Hypothesis same_length : length signal = length close.
Hypothesis signal_range :
  ∀ i g, signal !! i = Some g → (g = -1 ∨ g = 0 ∨ g = 1)%Z.

Lemma lookup_lagged_signal (j : nat) :
  S j < length close →
  fillna Float64.zero (shift (astype_float signal)) !! S j
  = Some (Float64.of_Z (nth j signal 0%Z)).
Proof.
  intros Hj. unfold fillna, astype_float.
  rewrite list_lookup_fmap, lookup_shift_S
    by (rewrite length_fmap; lia).
  destruct (lookup_lt_is_Some_2 signal j) as [g Eg]; [lia |].
  rewrite list_lookup_fmap, Eg. cbn.
  rewrite (nth_lookup_Some _ _ 0%Z _ Eg).
  by rewrite (f64_of_signal_not_nan g (signal_range _ _ Eg)).
Qed.

(** The strategy returns column, in general. *)
Lemma lookup_strategy_returns_fill (i : nat) :
  i < length close →
  strategy_returns_column (fillna Float64.zero (pct_change close)) signal
    !! i
  = Some match i with
         | 0 => Float64.zero
         | S j =>
             Float64.mul
               (if Float64.is_nan (Spec.r close i) then Float64.zero
                else Spec.r close i)
               (Float64.of_Z (nth j signal 0%Z))
         end.
Proof.
  intros Hi. unfold strategy_returns_column.
  rewrite lookup_zip_with, (lookup_returns close i Hi).
  destruct i as [| j].
  - unfold fillna, astype_float.
    rewrite list_lookup_fmap, lookup_shift_0; [reflexivity |].
    intros E. apply (f_equal length) in E. rewrite length_fmap in E.
    cbn in E. lia.
  - rewrite (lookup_lagged_signal j Hi). reflexivity.
Qed.

Hypothesis factors_defined :
  ∀ i, i < length close →
       Float64.is_nan (Spec.factor close signal i) = false.

Lemma r_defined (j : nat) :
  S j < length close → Float64.is_nan (Spec.r close (S j)) = false.
Proof.
  intros Hj. pose proof (factors_defined (S j) Hj) as Hf.
  unfold Spec.factor, Spec.strat in Hf.
  destruct (Spec.r close (S j)); try reflexivity.
  cbn in Hf. discriminate.
Qed.

Lemma lookup_strategy_returns (i : nat) :
  i < length close →
  strategy_returns_column (fillna Float64.zero (pct_change close)) signal
    !! i
  = Some (Spec.strat close signal i).
Proof.
  intros Hi. rewrite (lookup_strategy_returns_fill i Hi).
  destruct i as [| j]; [reflexivity |].
  rewrite (r_defined j Hi). reflexivity.
Qed.

Lemma length_strategy_returns :
  length (strategy_returns_column
            (fillna Float64.zero (pct_change close)) signal)
  = length close.
Proof.
  unfold strategy_returns_column, fillna, pct_change, astype_float.
  rewrite length_zip_with, !length_fmap, length_zip_with, !length_shift,
    length_fmap.
  lia.
Qed.

(** The compounding: no factor is skipped, and the product runs over the
    factors in time order. *)
Lemma compounded_product :
  Float64.sub
    (prod ((λ x, Float64.add x Float64.one) <$>
             strategy_returns_column
               (fillna Float64.zero (pct_change close)) signal))
    Float64.one
  = Spec.cumulative_return close signal.
Proof.
  unfold Spec.cumulative_return, prod. f_equal.
  rewrite <- list_fmap_compose.
  rewrite (list_eq_fmap_seq
             (strategy_returns_column
                (fillna Float64.zero (pct_change close)) signal)
             (Spec.strat close signal)).
  2:{ intros i Hi. apply lookup_strategy_returns.
      by rewrite length_strategy_returns in Hi. }
  rewrite length_strategy_returns, <- list_fmap_compose.
  assert (E : ∀ i, i < length close →
            ((λ x, if Float64.is_nan x then Float64.one else x)
               ∘ (λ x, Float64.add x Float64.one)
               ∘ Spec.strat close signal) i
            = Spec.factor close signal i).
  { intros i Hi. unfold compose. rewrite f64_add_comm.
    fold (Spec.factor close signal i).
    by rewrite (factors_defined i Hi). }
  assert (E' : ((λ x, if Float64.is_nan x then Float64.one else x)
                  ∘ (λ x, Float64.add x Float64.one)
                  ∘ Spec.strat close signal) <$> seq 0 (length close)
               = Spec.factor close signal <$> seq 0 (length close)).
  { apply list_eq. intros i. rewrite !list_lookup_fmap.
    destruct (Nat.lt_ge_cases i (length close)) as [Hi | Hi].
    - rewrite lookup_seq_lt by exact Hi. cbn. f_equal. apply E. exact Hi.
    - by rewrite lookup_seq_ge by exact Hi. }
  rewrite E'.
  destruct (seq 0 (length close)) as [| i rest]; [reflexivity |].
  cbn [fmap list_fmap]. apply fold_left_fmap.
Qed.

End Returns.

Section Compounding.
Import Pandas Api.

(** C2, as amended.  When every factor [1 + strat[i]] is a number, the
    cumulative return is the product of the factors in time order, minus
    one, where [strat[i]] is the return of step [i] times the signal of
    step [i-1] and [strat[0] = 0], and the return of step [i] is
    [close[i]/close[i-1] - 1] with [r[0] = 0]; the columns of the frame
    are these returns.  In general, for closes that are not NaN, the
    returns column has 0 where the quotient is NaN (0/0 and
    infinity/infinity). *)
Theorem cumulative_return_is_compounded (rows : list row) (instr : string)
    (sw lw : Z) :
  rows ≠ [] → (0 < sw < 2 ^ 63)%Z → (0 < lw < 2 ^ 63)%Z →
  ∃ df p,
    build_frame rows sw lw = inr df
    ∧ get_strategy_performance rows instr sw lw = Performance p
    ∧ close df = close_ <$> rows
    ∧ (Forall (λ x, Float64.is_nan x = false) (close df) →
       ∀ i, i < length rows →
         returns df !! i
         = Some (if Float64.is_nan (Spec.r (close df) i) then Float64.zero
                 else Spec.r (close df) i))
    ∧ ((∀ i, i < length rows →
          Float64.is_nan (Spec.factor (close df) (signal df) i) = false) →
       (∀ i, i < length rows →
          returns df !! i = Some (Spec.r (close df) i)
          ∧ strategy_returns df !! i
            = Some (Spec.strat (close df) (signal df) i))
       ∧ cumulative_return p
         = Spec.cumulative_return (close df) (signal df)).
Proof.
  intros Hne [Hs Hs'] [Hl Hl'].
  destruct (build_frame_in_range rows sw lw Hs Hs' Hl Hl')
    as (df & Hdf & _ & Hclose & _ & _ & Hsig & _ & Hret & Hstrat).
  destruct (performance_in_range rows instr sw lw df Hne Hdf)
    as (p & Hp & _ & _ & Hcum).
  destruct (frame_lengths _ _ _ _ Hdf) as (Hlc & _ & _ & Hlen).
  assert (Hsame : length (signal df) = length (close df)) by lia.
  assert (Hrange : ∀ i g, signal df !! i = Some g →
                     (g = -1 ∨ g = 0 ∨ g = 1)%Z)
    by (intros i g; rewrite Hsig; apply signal_column_range).
  exists df, p. split; [exact Hdf |]. split; [exact Hp |].
  split; [exact Hclose |]. split.
  { intros _ i Hi. rewrite Hret. apply lookup_returns. lia. }
  intros Hdef.
  assert (Hdef' : ∀ i, i < length (close df) →
            Float64.is_nan (Spec.factor (close df) (signal df) i) = false)
    by (intros i Hi; apply Hdef; lia).
  split.
  - intros i Hi. rewrite Hstrat, Hret. split.
    + rewrite lookup_returns by lia.
      destruct i as [| j]; [reflexivity |].
      by rewrite (r_defined (close df) (signal df) Hdef' j) by lia.
    + apply lookup_strategy_returns; [exact Hsame | exact Hrange
                                      | exact Hdef' | lia].
  - rewrite Hcum, Hstrat, Hret.
    apply compounded_product; assumption.
Qed.

End Compounding.

(* ===================================================================== *)
(** ** Properties: series without a crossover *)
(* ===================================================================== *)

Section FlatSignal.
Import Pandas Api.

Lemma lookup_signal_column_same (s : list float64) (i : nat) (g : Z) :
  signal_column s s !! i = Some g → g = 0%Z.
Proof.
  intros Hg.
  assert (Hi : i < length s).
  { apply lookup_lt_Some in Hg. rewrite length_signal_column in Hg; done. }
  destruct (lookup_lt_is_Some_2 s i Hi) as [a Ea].
  rewrite (lookup_signal_column s s i a a Ea Ea) in Hg.
  unfold Float64.gtb in Hg. fold (Float64.ltb a a) in Hg.
  rewrite f64_ltb_irrefl in Hg. congruence.
Qed.

Lemma select_none {X} (mask : list bool) (index : list X) :
  (∀ i b, mask !! i = Some b → b = false) → select mask index = [].
Proof.
  unfold select. revert mask.
  induction index as [| t index IH]; intros [| b mask] Hall; try reflexivity.
  cbn [zip zip_with List.filter snd].
  rewrite (Hall 0 b eq_refl). apply IH.
  intros i b' Hb. apply (Hall (S i)). exact Hb.
Qed.

(** No position delta of 2 or -2: no event. *)
Lemma no_events (index : list datetime) (position : list float64) :
  (∀ i p, position !! i = Some p →
          Float64.eqb p (Float64.of_Z 2) = false
          ∧ Float64.eqb p (Float64.of_Z (-2)) = false) →
  buy_events index position = [] ∧ sell_events index position = [].
Proof.
  intros Hsmall. unfold buy_events, sell_events.
  rewrite !select_none; [done | |].
  - intros i b Hb. rewrite list_lookup_fmap in Hb.
    destruct (position !! i) as [p |] eqn:Ep; [| discriminate].
    injection Hb as <-. apply (Hsmall i p Ep).
  - intros i b Hb. rewrite list_lookup_fmap in Hb.
    destruct (position !! i) as [p |] eqn:Ep; [| discriminate].
    injection Hb as <-. apply (Hsmall i p Ep).
Qed.

(** Signals that stay within two neighbouring values, [lo] and
    [lo + 1], move by one step at most. *)
Lemma position_small (signal : list Z) (lo : Z) (i : nat) (p : float64) :
  (lo = -1 ∨ lo = 0)%Z →
  (∀ i g, signal !! i = Some g → (g = lo ∨ g = lo + 1)%Z) →
  position_column signal !! i = Some p →
  Float64.eqb p (Float64.of_Z 2) = false
  ∧ Float64.eqb p (Float64.of_Z (-2)) = false.
Proof.
  intros Hlo Hsig Hp.
  assert (Hi : i < length signal).
  { apply lookup_lt_Some in Hp. by rewrite length_position_column in Hp. }
  destruct i as [| j].
  - rewrite lookup_position_0 in Hp; [by injection Hp as <- |].
    intros E. rewrite E in Hi. simpl in Hi. lia.
  - destruct (lookup_lt_is_Some_2 signal (S j) Hi) as [a Ea].
    destruct (lookup_lt_is_Some_2 signal j) as [b Eb]; [lia |].
    rewrite (lookup_position_S _ _ _ _ Ea Eb) in Hp. injection Hp as <-.
    destruct Hlo as [-> | ->];
      destruct (Hsig _ _ Ea) as [-> | ->], (Hsig _ _ Eb) as [-> | ->];
      split; reflexivity.
Qed.

Variable signal : list Z.
Hypothesis signal_zero : ∀ i g, signal !! i = Some g → g = 0%Z.

Lemma no_events_flat (index : list datetime) :
  buy_events index (position_column signal) = []
  ∧ sell_events index (position_column signal) = [].
Proof.
  apply no_events. intros i p Hp.
  apply (position_small signal 0 i p); [auto | | exact Hp].
  intros k g Hg. left. exact (signal_zero k g Hg).
Qed.

Lemma lagged_signal_zero (i : nat) (y : float64) :
  fillna Float64.zero (shift (astype_float signal)) !! i = Some y →
  y = Float64.zero.
Proof.
  unfold fillna, astype_float. rewrite list_lookup_fmap. intros Hy.
  destruct (shift (Float64.of_Z <$> signal) !! i) as [x |] eqn:Ex;
    [| discriminate].
  injection Hy as <-.
  assert (Hi : i < length signal).
  { apply lookup_lt_Some in Ex. by rewrite length_shift, length_fmap in Ex. }
  destruct i as [| j].
  - rewrite lookup_shift_0 in Ex; [by injection Ex as <- |].
    intros E. apply (f_equal length) in E. rewrite length_fmap in E.
    cbn in E. lia.
  - rewrite lookup_shift_S in Ex by (rewrite length_fmap; exact Hi).
    rewrite list_lookup_fmap in Ex.
    destruct (signal !! j) as [g |] eqn:Eg; [| discriminate].
    rewrite (signal_zero j g Eg) in Ex. by injection Ex as <-.
Qed.

(** Every factor of the product is one, or NaN and skipped. *)
Lemma factors_flat (returns : list float64) (i : nat) (x : float64) :
  ((λ x, if Float64.is_nan x then Float64.one else x) <$>
     ((λ x, Float64.add x Float64.one) <$>
        strategy_returns_column returns signal)) !! i = Some x →
  x = Float64.one.
Proof.
  rewrite !list_lookup_fmap. unfold strategy_returns_column.
  rewrite lookup_zip_with.
  destruct (returns !! i) as [a |]; [| discriminate].
  destruct (fillna Float64.zero (shift (astype_float signal)) !! i)
    as [b |] eqn:Eb; [| discriminate].
  rewrite (lagged_signal_zero i b Eb).
  cbn -[Float64.add Float64.mul Float64.one Float64.zero Float64.is_nan].
  intros [= <-].
  destruct (f64_mul_zero a) as [Hnan | Hzero].
  - destruct (Float64.mul a Float64.zero); try discriminate. reflexivity.
  - rewrite (f64_zero_add_one _ Hzero). reflexivity.
Qed.

Lemma fold_ones (xs : list float64) :
  (∀ i x, xs !! i = Some x → x = Float64.one) →
  fold_left Float64.mul xs Float64.one = Float64.one.
Proof.
  induction xs as [| x xs IH]; intros Hall; [reflexivity |].
  cbn [fold_left]. rewrite (Hall 0 x eq_refl).
  change (Float64.mul Float64.one Float64.one) with Float64.one.
  apply IH. intros i y Hy. exact (Hall (S i) y Hy).
Qed.

Lemma cumulative_return_flat (returns : list float64) :
  Float64.sub
    (prod ((λ x, Float64.add x Float64.one) <$>
             strategy_returns_column returns signal))
    Float64.one
  = Float64.zero.
Proof.
  unfold prod.
  pose proof (factors_flat returns) as Hall.
  destruct ((λ x, if Float64.is_nan x then Float64.one else x) <$>
              ((λ x, Float64.add x Float64.one) <$>
                 strategy_returns_column returns signal)) as [| x xs];
    [reflexivity |].
  rewrite (Hall 0 x eq_refl), fold_ones; [reflexivity |].
  intros i y Hy. exact (Hall (S i) y Hy).
Qed.

End FlatSignal.

Section FlatSignalEngine.
Import Pandas Api.

(** What a frame whose signals are all 0 gives. *)
Lemma flat_frame (rows : list row) (instr : string) (sw lw : Z)
    (df : DataFrame) :
  rows ≠ [] →
  build_frame rows sw lw = inr df →
  position df = position_column (signal df) →
  strategy_returns df = strategy_returns_column (returns df) (signal df) →
  (∀ i g, signal df !! i = Some g → g = 0%Z) →
  ∃ p, get_strategy_performance rows instr sw lw = Performance p
       ∧ buy_signals p = [] ∧ sell_signals p = []
       ∧ num_buys p = 0 ∧ num_sells p = 0 ∧ total_trades p = 0
       ∧ cumulative_return p = Float64.zero.
Proof.
  intros Hne Hdf Hpos Hstr Hzero.
  unfold get_strategy_performance. destruct rows as [| r rows]; [congruence |].
  rewrite Hdf.
  destruct (no_events_flat (signal df) Hzero (index df)) as [Hbuy Hsell].
  eexists. split; [reflexivity |].
  cbn [buy_signals sell_signals num_buys num_sells total_trades
       cumulative_return].
  rewrite Hpos, Hbuy, Hsell. repeat (split; [reflexivity |]).
  rewrite Hstr. apply cumulative_return_flat. exact Hzero.
Qed.

(** X18.  With equal windows the two moving averages coincide, whatever
    the closes are: every signal is 0, there is no buy and no sell, no
    trade, and the cumulative return is 0. *)
Theorem equal_windows_never_trade (rows : list row) (instr : string) (w : Z) :
  rows ≠ [] → (0 < w < 2 ^ 63)%Z →
  ∃ df p,
    build_frame rows w w = inr df
    ∧ get_strategy_performance rows instr w w = Performance p
    ∧ (∀ i, i < length rows → signal df !! i = Some 0%Z)
    ∧ buy_signals p = [] ∧ sell_signals p = []
    ∧ num_buys p = 0 ∧ num_sells p = 0 ∧ total_trades p = 0
    ∧ Float64.eqb (cumulative_return p) Float64.zero = true.
Proof.
  intros Hne [Hw Hw'].
  destruct (build_frame_in_range rows w w Hw Hw' Hw Hw')
    as (df & Hdf & _ & _ & Hsm & Hlm & Hsig & Hpos & _ & Hstr).
  assert (Hzero : ∀ i g, signal df !! i = Some g → g = 0%Z).
  { intros i g. rewrite Hsig, Hlm, <- Hsm. apply lookup_signal_column_same. }
  destruct (frame_lengths _ _ _ _ Hdf) as (_ & _ & _ & Hlen).
  destruct (flat_frame rows instr w w df Hne Hdf Hpos Hstr Hzero)
    as (p & Hp & Hb & Hs & Hnb & Hns & Ht & Hc).
  exists df, p. split; [exact Hdf |]. split; [exact Hp |].
  split.
  { intros i Hi. destruct (lookup_lt_is_Some_2 (signal df) i) as [g Eg];
      [lia |]. by rewrite Eg, (Hzero i g Eg). }
  repeat (split; [assumption |]). by rewrite Hc.
Qed.

Lemma lookup_rolling_first (w : Z) (c : float64) (cs : list float64) :
  (0 < w)%Z →
  roll_mean (c :: cs) w 1 !! 0
  = Some (calc_mean 1 (add_mean c (setup c))).
Proof.
  intros Hw. rewrite lookup_roll_mean by (cbn; lia).
  cbn [state_at]. rewrite (advance_first (c :: cs) w Hw). reflexivity.
Qed.

(** X19.  The first signal is always 0, because at the first row both
    moving averages are computed from the first close alone.  Hence the
    first two rows never give an event: a series of at most two rows has
    no buy and no sell signal. *)
Theorem first_rows_give_no_event (rows : list row) (instr : string)
    (sw lw : Z) :
  rows ≠ [] → (0 < sw < 2 ^ 63)%Z → (0 < lw < 2 ^ 63)%Z →
  ∃ df p,
    build_frame rows sw lw = inr df
    ∧ get_strategy_performance rows instr sw lw = Performance p
    ∧ signal df !! 0 = Some 0%Z
    ∧ (length rows ≤ 2 → buy_signals p = [] ∧ sell_signals p = []).
Proof.
  intros Hne [Hs Hs'] [Hl Hl'].
  destruct (build_frame_in_range rows sw lw Hs Hs' Hl Hl')
    as (df & Hdf & Hidx & Hc & Hsm & Hlm & Hsig & Hpos & _).
  destruct (performance_in_range rows instr sw lw df Hne Hdf)
    as (p & Hp & Hbuy & Hsell & _).
  destruct (frame_lengths _ _ _ _ Hdf) as (_ & _ & _ & Hlen).
  exists df, p. split; [exact Hdf |]. split; [exact Hp |].
  destruct rows as [| r0 rows]; [congruence |].
  assert (H0 : signal df !! 0 = Some 0%Z).
  { rewrite Hsig.
    erewrite lookup_signal_column.
    2:{ rewrite Hsm, Hc. apply lookup_rolling_first. lia. }
    2:{ rewrite Hlm, Hc. apply lookup_rolling_first. lia. }
    unfold Float64.gtb.
    match goal with |- context [SFltb ?a ?a] =>
      fold (Float64.ltb a a); rewrite (f64_ltb_irrefl a) end.
    reflexivity. }
  split; [exact H0 |].
  assert (Hrange : ∀ i g, signal df !! i = Some g →
                     g = (-1)%Z ∨ g = 0%Z ∨ g = 1%Z)
    by (intros i g; rewrite Hsig; apply signal_column_range).
  intros Hshort. rewrite Hbuy, Hsell, Hpos, Hidx. clear Hsig Hpos.
  destruct (signal df) as [| g0 [| g1 [| g2 gs]]];
    destruct rows as [| r1 [| r2 rows]]; cbn in Hlen, Hshort; try lia.
  - injection H0 as ->. split; reflexivity.
  - injection H0 as ->.
    destruct (Hrange 1 g1 eq_refl) as [-> | [-> | ->]]; split; reflexivity.
Qed.

End FlatSignalEngine.

Section ConstantSeries.
Import Pandas Api.

Variable c : float64.
Variable close : list float64.
Hypothesis close_constant : Forall (λ x, x = c) close.

Lemma trailing_window_constant (w : Z) (i : nat) :
  (0 < w)%Z → i < length close →
  Spec.trailing_window close (Spec.window_size w i) i
  = replicate (Spec.window_size w i) c.
Proof.
  intros Hw Hi. unfold Spec.trailing_window.
  apply list_eq. intros k. rewrite list_lookup_fmap.
  destruct (Nat.lt_ge_cases k (Spec.window_size w i)) as [Hk | Hk].
  - rewrite lookup_seq_lt by exact Hk.
    rewrite lookup_replicate_2 by exact Hk. cbn. f_equal.
    assert (Hj : i + 1 - Spec.window_size w i + k < length close)
      by (unfold Spec.window_size in *; lia).
    destruct (lookup_lt_is_Some_2 close _ Hj) as [x Ex].
    rewrite (nth_lookup_Some _ _ Float64.nan _ Ex).
    exact (proj1 (Forall_lookup _ _) close_constant _ _ Ex).
  - rewrite lookup_seq_ge by exact Hk.
    symmetry. apply lookup_replicate_None. exact Hk.
Qed.

Lemma observations_replicate (n : nat) :
  Spec.observations (replicate n c)
  = if negb (Float64.is_nan c) && negb (Float64.is_inf c)
    then replicate n c else [].
Proof.
  unfold Spec.observations.
  induction n as [| n IH]; [by destruct (_ && _) |].
  cbn [replicate List.filter]. rewrite IH.
  by destruct (negb (Float64.is_nan c) && negb (Float64.is_inf c)).
Qed.

(** Every rolling mean of a constant series is the constant, or NaN
    when the constant is not finite. *)
Lemma trailing_mean_constant (w : Z) (i : nat) (m : float64) :
  (0 < w)%Z → i < length close →
  Spec.trailing_mean close w i m →
  m = if negb (Float64.is_nan c) && negb (Float64.is_inf c)
      then c else Float64.nan.
Proof.
  intros Hw Hi (_ & _ & Hnone & Hsame).
  cbn zeta in Hnone, Hsame.
  rewrite (trailing_window_constant w i Hw Hi), observations_replicate
    in Hnone, Hsame.
  destruct (negb (Float64.is_nan c) && negb (Float64.is_inf c)) eqn:Ec.
  - apply Hsame.
    + assert (Hsize : 0 < Spec.window_size w i)
        by (unfold Spec.window_size; lia).
      destruct (Spec.window_size w i) as [| n]; [lia |].
      clear. induction n as [| n IH]; [reflexivity |].
      change (replicate (S (S n)) c) with (c :: replicate (S n) c).
      by rewrite last_cons, IH.
    + apply Forall_replicate. rewrite f64_eqb_refl.
      by destruct (Float64.is_nan c).
  - by apply Hnone.
Qed.

Lemma signal_constant (sw lw : Z) (i : nat) :
  (0 < sw)%Z → (0 < lw)%Z → i < length close →
  signal_column (roll_mean (prep_values close) sw 1)
    (roll_mean (prep_values close) lw 1) !! i
  = Some 0%Z.
Proof.
  intros Hs Hl Hi.
  destruct (rolling_mean_trailing close sw i Hs Hi) as (s & Es & Ts).
  destruct (rolling_mean_trailing close lw i Hl Hi) as (l & El & Tl).
  rewrite (lookup_signal_column _ _ _ _ _ Es El).
  rewrite (trailing_mean_constant sw i s Hs Hi Ts),
    (trailing_mean_constant lw i l Hl Hi Tl).
  unfold Float64.gtb.
  match goal with |- context [SFltb ?a ?a] =>
    fold (Float64.ltb a a); rewrite (f64_ltb_irrefl a) end.
  reflexivity.
Qed.

End ConstantSeries.

Section ConstantSeriesEngine.
Import Pandas Api.

(** C8, as amended.  On a constant price series every signal is 0 and
    the cumulative return is 0, whatever the windows from 1 to
    2^63 - 1: both moving averages are the constant itself (NaN when
    the constant is not a finite number). *)
Theorem constant_series_is_flat (rows : list row) (instr : string)
    (sw lw : Z) (c : float64) :
  rows ≠ [] → (0 < sw < 2 ^ 63)%Z → (0 < lw < 2 ^ 63)%Z →
  Forall (λ r, close_ r = c) rows →
  ∃ df p,
    build_frame rows sw lw = inr df
    ∧ get_strategy_performance rows instr sw lw = Performance p
    ∧ (∀ i, i < length rows →
         signal df !! i = Some 0%Z
         ∧ short_ma df !! i = long_ma df !! i
         ∧ (Float64.is_nan c = false → Float64.is_inf c = false →
            short_ma df !! i = Some c))
    ∧ buy_signals p = [] ∧ sell_signals p = []
    ∧ cumulative_return p = Float64.zero.
Proof.
  intros Hne [Hs Hs'] [Hl Hl'] Hconst.
  destruct (build_frame_in_range rows sw lw Hs Hs' Hl Hl')
    as (df & Hdf & _ & Hclose & Hshort & Hlong & Hsig & Hpos & Hret & Hstrat).
  destruct (frame_lengths _ _ _ _ Hdf) as (Hlc & _ & _ & Hlen).
  assert (Hconst' : Forall (λ x, x = c) (close df))
    by (rewrite Hclose; apply Forall_fmap; exact Hconst).
  assert (Hzero : ∀ i, i < length rows → signal df !! i = Some 0%Z).
  { intros i Hi. rewrite Hsig, Hshort, Hlong.
    apply (signal_constant c); [exact Hconst' | lia | lia | lia]. }
  assert (Hzero' : ∀ i g, signal df !! i = Some g → g = 0%Z).
  { intros i g Hg.
    assert (Hi : i < length rows).
    { rewrite <- Hlen. apply lookup_lt_is_Some. eauto. }
    rewrite (Hzero i Hi) in Hg. congruence. }
  destruct (flat_frame rows instr sw lw df Hne Hdf Hpos Hstrat Hzero')
    as (p & Hp & Hb & Hsl & _ & _ & _ & Hc).
  exists df, p. split; [exact Hdf |]. split; [exact Hp |].
  split; [| auto].
  intros i Hi. split; [exact (Hzero i Hi) |].
  assert (Hic : i < length (close df)) by lia.
  destruct (rolling_mean_trailing (close df) sw i Hs Hic) as (s & Es & Ts).
  destruct (rolling_mean_trailing (close df) lw i Hl Hic) as (l & El & Tl).
  rewrite Hshort, Hlong, Es, El.
  rewrite (trailing_mean_constant c (close df) Hconst' sw i s Hs Hic Ts),
    (trailing_mean_constant c (close df) Hconst' lw i l Hl Hic Tl).
  split; [reflexivity |]. intros -> ->. reflexivity.
Qed.

End ConstantSeriesEngine.

(* ===================================================================== *)
(** ** Further properties: the signal engine *)
(* ===================================================================== *)

Section EngineOutcome.
Import Pandas Api.

(** X16.  On a non-empty series the windows alone decide the kind of
    answer.  With both windows from 1 to 2^63 - 1 the handler returns a
    performance summary that echoes the windows and the instrument, with
    [total_trades = min(num_buys, num_sells)].  Otherwise it answers
    with HTTP status 500, and the first window out of range decides the
    exception: [ValueError] for a window that is zero or negative,
    [OverflowError] for one of 2^63 or more. *)
Theorem windows_decide_the_response (rows : list row) (instr : string)
    (sw lw : Z) :
  rows ≠ [] →
  ((0 < sw < 2 ^ 63)%Z ∧ (0 < lw < 2 ^ 63)%Z →
   ∃ p, get_strategy_performance rows instr sw lw = Performance p
        ∧ short_window p = sw ∧ long_window p = lw ∧ instrument p = instr
        ∧ num_buys p = length (buy_signals p)
        ∧ num_sells p = length (sell_signals p)
        ∧ total_trades p = Nat.min (num_buys p) (num_sells p))
  ∧ ((sw <= 0)%Z ∨ ((0 < sw < 2 ^ 63)%Z ∧ (lw <= 0)%Z) →
     ∃ text, get_strategy_performance rows instr sw lw
             = HTTPException 500 (ValueError text))
  ∧ ((2 ^ 63 <= sw)%Z ∨ ((0 < sw < 2 ^ 63)%Z ∧ (2 ^ 63 <= lw)%Z) →
     get_strategy_performance rows instr sw lw
     = HTTPException 500 OverflowError).
Proof.
  intros Hne. destruct rows as [| r rows]; [congruence |]. split; [| split].
  - intros [[Hs Hs'] [Hl Hl']].
    destruct (build_frame_in_range (r :: rows) sw lw Hs Hs' Hl Hl')
      as (df & Hdf & _).
    unfold get_strategy_performance. rewrite Hdf.
    eexists. split; [reflexivity |]. cbn. repeat split.
  - intros Hbad. unfold get_strategy_performance, build_frame.
    destruct Hbad as [Hs | [[Hs Hs'] Hl]].
    + destruct (proj1 (rolling_mean_out_of_range sw (close_ <$> r :: rows)) Hs)
        as [text ->]. by eexists.
    + rewrite (rolling_mean_in_range sw) by assumption.
      destruct (proj1 (rolling_mean_out_of_range lw (close_ <$> r :: rows)) Hl)
        as [text ->]. by eexists.
  - intros Hbad. unfold get_strategy_performance, build_frame.
    destruct Hbad as [Hs | [[Hs Hs'] Hl]].
    + by rewrite (proj2 (rolling_mean_out_of_range sw _) Hs).
    + rewrite (rolling_mean_in_range sw) by assumption.
      by rewrite (proj2 (rolling_mean_out_of_range lw _) Hl).
Qed.

End EngineOutcome.

Section Causality.
Import Pandas Api.

Lemma fold_left_ext_in {A B} (f g : A → B → A) (l : list B) (a : A) :
  (∀ a b, b ∈ l → f a b = g a b) → fold_left f l a = fold_left g l a.
Proof.
  revert a. induction l as [| b l IH]; intros a Hfg; [reflexivity |].
  cbn [fold_left]. rewrite (Hfg a b) by (apply elem_of_cons; auto).
  apply IH. intros a' b' Hb'. apply Hfg. apply elem_of_cons. auto.
Qed.

Lemma elem_of_range (a b j : nat) : j ∈ range a b → a ≤ j < b.
Proof. unfold range. rewrite elem_of_seq. lia. Qed.

(** The state after row [i] reads the values up to [i] only. *)
Lemma advance_ext (values values' : list float64) (w : Z) (i : nat)
    (st : mean_state) :
  (0 < w)%Z →
  (∀ j, j ≤ i → value_at values j = value_at values' j) →
  advance values w i st = advance values' w i st.
Proof.
  intros Hw Hsame. unfold advance, add_range, remove_range.
  assert (Hs : window_start w i ≤ i) by (unfold window_start; lia).
  rewrite (Hsame (window_start w i)) by exact Hs.
  destruct ((i =? 0) || (window_end (i - 1) <=? window_start w i)).
  - apply fold_left_ext_in. intros st' j Hj. apply elem_of_range in Hj.
    unfold window_end in Hj. rewrite Hsame by lia. reflexivity.
  - etrans.
    + apply fold_left_ext_in. intros st' j Hj. apply elem_of_range in Hj.
      unfold window_end in Hj. rewrite Hsame by lia. reflexivity.
    + f_equal. apply fold_left_ext_in. intros st' j Hj.
      apply elem_of_range in Hj. rewrite Hsame by lia. reflexivity.
Qed.

Lemma state_at_ext (values values' : list float64) (w : Z) (i : nat) :
  (0 < w)%Z →
  (∀ j, j ≤ i → value_at values j = value_at values' j) →
  state_at values w i = state_at values' w i.
Proof.
  intros Hw. induction i as [| i IH]; intros Hsame.
  - cbn [state_at]. by apply advance_ext.
  - cbn [state_at]. rewrite IH by (intros j Hj; apply Hsame; lia).
    by apply advance_ext.
Qed.

Lemma roll_mean_take (values : list float64) (w : Z) (n : nat) :
  (0 < w)%Z →
  roll_mean (take n values) w 1 = take n (roll_mean values w 1).
Proof.
  intros Hw. apply list_eq. intros i.
  destruct (Nat.lt_ge_cases i (length (take n values))) as [Hi | Hi].
  - rewrite lookup_roll_mean by exact Hi.
    rewrite length_take in Hi.
    rewrite lookup_take_lt by lia.
    rewrite lookup_roll_mean by lia.
    do 2 f_equal. apply state_at_ext; [exact Hw |].
    intros j Hj. unfold value_at.
    destruct (lookup_lt_is_Some_2 values j) as [x Ex]; [lia |].
    rewrite (nth_lookup_Some _ _ _ _ Ex).
    apply nth_lookup_Some. rewrite lookup_take_lt by lia. exact Ex.
  - rewrite (lookup_ge_None_2 (roll_mean _ _ _))
      by (by rewrite length_roll_mean).
    symmetry. apply lookup_ge_None_2.
    rewrite length_take, length_roll_mean.
    rewrite length_take in Hi. lia.
Qed.

Lemma shift_take (s : list float64) (n : nat) :
  shift (take n s) = take n (shift s).
Proof.
  destruct n as [| n]; [by destruct s |].
  destruct s as [| x s]; [reflexivity |].
  unfold shift. cbn [take]. f_equal.
  rewrite !removelast_firstn_len. cbn [length]. rewrite length_take.
  change (x :: take n s) with (take (S n) (x :: s)).
  rewrite !take_take. f_equal. cbn. lia.
Qed.

Lemma signal_column_take (s l : list float64) (n : nat) :
  signal_column (take n s) (take n l) = take n (signal_column s l).
Proof.
  unfold signal_column, loc_assign.
  rewrite !zip_with_take, <- !fmap_take. reflexivity.
Qed.

Lemma position_column_take (g : list Z) (n : nat) :
  position_column (take n g) = take n (position_column g).
Proof.
  unfold position_column, fillna, diff, astype_float.
  rewrite <- fmap_take, zip_with_take, <- shift_take, <- fmap_take.
  reflexivity.
Qed.

(** X17.  No look-ahead.  Computing the frame on the first [n] rows
    gives the first [n] entries of every column of the frame computed on
    all rows: the means, the signal, the position and the strategy return
    of a day do not depend on later days. *)
Theorem frame_has_no_lookahead (rows : list row) (sw lw : Z) (n : nat) :
  (0 < sw < 2 ^ 63)%Z → (0 < lw < 2 ^ 63)%Z →
  ∃ df df',
    build_frame rows sw lw = inr df
    ∧ build_frame (take n rows) sw lw = inr df'
    ∧ short_ma df' = take n (short_ma df)
    ∧ long_ma df' = take n (long_ma df)
    ∧ signal df' = take n (signal df)
    ∧ position df' = take n (position df)
    ∧ returns df' = take n (returns df)
    ∧ strategy_returns df' = take n (strategy_returns df).
Proof.
  intros [Hs Hs'] [Hl Hl'].
  destruct (build_frame_in_range rows sw lw Hs Hs' Hl Hl')
    as (df & Hdf & _ & Hc & Hsm & Hlm & Hsig & Hpos & Hret & Hstr).
  destruct (build_frame_in_range (take n rows) sw lw Hs Hs' Hl Hl')
    as (df' & Hdf' & _ & Hc' & Hsm' & Hlm' & Hsig' & Hpos' & Hret' & Hstr').
  exists df, df'. split; [exact Hdf |]. split; [exact Hdf' |].
  assert (Ec : close df' = take n (close df))
    by (rewrite Hc', Hc; apply fmap_take).
  assert (Ep : prep_values (close df') = take n (prep_values (close df)))
    by (rewrite Ec; apply fmap_take).
  assert (Es : short_ma df' = take n (short_ma df))
    by (rewrite Hsm', Hsm, Ep; apply roll_mean_take; exact Hs).
  assert (El : long_ma df' = take n (long_ma df))
    by (rewrite Hlm', Hlm, Ep; apply roll_mean_take; exact Hl).
  assert (Eg : signal df' = take n (signal df))
    by (rewrite Hsig', Hsig, Es, El; apply signal_column_take).
  assert (Er : returns df' = take n (returns df)).
  { rewrite Hret', Hret, Ec. unfold fillna, pct_change.
    rewrite <- fmap_take, zip_with_take, shift_take. reflexivity. }
  repeat split; try assumption.
  - rewrite Hpos', Hpos, Eg. apply position_column_take.
  - rewrite Hstr', Hstr, Er, Eg. unfold strategy_returns_column, fillna,
      astype_float.
    rewrite zip_with_take, <- !fmap_take, <- shift_take, <- fmap_take.
    reflexivity.
Qed.

End Causality.

Section OneSidedSignal.
Import Pandas Api.

(** X20.  An event needs a signal that jumps between -1 and 1 from one
    row to the next.  A series whose signals are never -1, or never 1,
    has no buy and no sell and no trade: a step from 0 to 1, as a series
    that steps up gives, is not counted as a buy. *)
Theorem one_sided_signal_never_trades (rows : list row) (instr : string)
    (sw lw : Z) :
  rows ≠ [] → (0 < sw < 2 ^ 63)%Z → (0 < lw < 2 ^ 63)%Z →
  ∃ df p,
    build_frame rows sw lw = inr df
    ∧ get_strategy_performance rows instr sw lw = Performance p
    ∧ ((∀ i g, signal df !! i = Some g → g ≠ (-1)%Z)
       ∨ (∀ i g, signal df !! i = Some g → g ≠ 1%Z) →
       buy_signals p = [] ∧ sell_signals p = []
       ∧ num_buys p = 0 ∧ num_sells p = 0 ∧ total_trades p = 0).
Proof.
  intros Hne [Hs Hs'] [Hl Hl'].
  destruct (build_frame_in_range rows sw lw Hs Hs' Hl Hl')
    as (df & Hdf & _ & _ & _ & _ & Hsig & Hpos & _).
  assert (Hrange : ∀ i g, signal df !! i = Some g →
                     (g = -1 ∨ g = 0 ∨ g = 1)%Z)
    by (intros i g; rewrite Hsig; apply signal_column_range).
  unfold get_strategy_performance.
  destruct rows as [| r rows]; [congruence |]. rewrite Hdf.
  exists df. eexists. split; [reflexivity |]. split; [reflexivity |].
  intros Hside.
  cbn [buy_signals sell_signals num_buys num_sells total_trades].
  assert (Hlo : ∃ lo, (lo = -1 ∨ lo = 0)%Z
                      ∧ ∀ i g, signal df !! i = Some g →
                               (g = lo ∨ g = lo + 1)%Z).
  { destruct Hside as [Hno | Hno].
    - exists 0%Z. split; [auto |]. intros i g Hg.
      destruct (Hrange i g Hg) as [-> | [-> | ->]]; auto.
      by destruct (Hno i _ Hg).
    - exists (-1)%Z. split; [auto |]. intros i g Hg.
      destruct (Hrange i g Hg) as [-> | [-> | ->]]; auto.
      by destruct (Hno i _ Hg). }
  destruct Hlo as (lo & Hlo & Hstep).
  destruct (no_events (index df) (position df)) as [-> ->];
    [| repeat split].
  intros i p Hp. rewrite Hpos in Hp.
  exact (position_small (signal df) lo i p Hlo Hstep Hp).
Qed.

End OneSidedSignal.

(* ===================================================================== *)
(** ** Properties: the row validators *)
(* ===================================================================== *)

Section Monad.

Lemma stable_ret {A} (a : A) : stable (Py.ret a).
Proof. intros log. unfold Py.ret. cbn. by rewrite app_nil_r. Qed.

Lemma stable_raise {A} (e : exn) : stable (@Py.raise A e).
Proof. intros log. unfold Py.raise. cbn. by rewrite app_nil_r. Qed.

Lemma stable_logger (l : level) (m : log_message) : stable (logger l m).
Proof. intros log. reflexivity. Qed.

Lemma stable_bind {A B} (c : M A) (k : A → M B) :
  stable c → (∀ a, stable (k a)) → stable (Py.bind c k).
Proof.
  intros Hc Hk log. unfold Py.bind.
  rewrite (Hc log). destruct (c []) as [[e | a] lc]; cbn.
  - reflexivity.
  - rewrite (Hk a (log ++ lc)), (Hk a lc). cbn. by rewrite app_assoc.
Qed.

Lemma stable_try_except {A} (body : M A) (catches : exn → bool)
    (handler : exn → M A) :
  stable body → (∀ e, stable (handler e)) →
  stable (try_except body catches handler).
Proof.
  intros Hb Hh log. unfold try_except.
  rewrite (Hb log). destruct (body []) as [[e | a] lb]; cbn.
  - destruct (catches e); [| reflexivity].
    rewrite (Hh e (log ++ lb)), (Hh e lb). cbn. by rewrite app_assoc.
  - reflexivity.
Qed.

Lemma stable_getitem (row : Row) (key : string) : stable (getitem row key).
Proof.
  unfold getitem. destruct (row !! key); [apply stable_ret | apply stable_raise].
Qed.

Lemma bind_inr {A B} (c : M A) (k : A → M B) (log log' : list log_record)
    (a : A) :
  c log = (inr a, log') → Py.bind c k log = k a log'.
Proof. intros H. unfold Py.bind. by rewrite H. Qed.

Lemma try_except_inr {A} (body : M A) catches handler
    (log log' : list log_record) (a : A) :
  body log = (inr a, log') →
  try_except body catches handler log = (inr a, log').
Proof. intros H. unfold try_except. by rewrite H. Qed.

End Monad.

Ltac stable_step :=
  match goal with
  | |- stable (Py.ret _) => apply stable_ret
  | |- stable (mret _) => apply stable_ret
  | |- stable (Py.raise _) => apply stable_raise
  | |- stable (logger _ _) => apply stable_logger
  | |- stable (getitem _ _) => apply stable_getitem
  | |- stable (try_except _ _ _) => apply stable_try_except; [| intros ?]
  | |- stable (mbind _ _) => apply stable_bind; [| intros ?]
  | |- stable (Py.bind _ _) => apply stable_bind; [| intros ?]
  | |- stable (match ?x with _ => _ end) => destruct x
  end.

Ltac unfold_M :=
  unfold mbind, M_bind, mret, M_ret, Py.bind, Py.ret, Py.raise, logger,
    try_except; cbn beta iota.

Section Validators.
Context `{Builtins}.
Import CSVParser.

Lemma stable_py_strptime v : stable (py_strptime v).
Proof. unfold py_strptime. repeat stable_step. Qed.

Lemma stable_py_float v : stable (py_float v).
Proof. unfold py_float. repeat stable_step. Qed.

Lemma stable_py_int v : stable (py_int v).
Proof. unfold py_int. repeat stable_step. Qed.

Lemma stable_py_strip v : stable (py_strip v).
Proof. unfold py_strip. repeat stable_step. Qed.

Lemma stable_validate_datetime v : stable (validate_datetime v).
Proof.
  unfold validate_datetime.
  repeat first [apply stable_py_strptime | stable_step].
Qed.

Lemma stable_validate_numeric v f : stable (validate_numeric v f).
Proof.
  unfold validate_numeric.
  repeat first [apply stable_py_float | stable_step].
Qed.

Lemma stable_validate_integer v f : stable (validate_integer v f).
Proof.
  unfold validate_integer.
  repeat first [apply stable_py_int | stable_step].
Qed.

Lemma stable_validate_row row n : stable (validate_row row n).
Proof.
  unfold validate_row.
  repeat first
    [ apply stable_validate_datetime | apply stable_validate_numeric
    | apply stable_validate_integer | apply stable_py_strip | stable_step ].
Qed.

(** [validate_row] catches every exception of its body. *)
Lemma validate_row_returns row n log :
  ∃ r log', validate_row row n log = (inr r, log').
Proof.
  unfold validate_row, try_except.
  match goal with |- context [match ?b log with _ => _ end] =>
    destruct (b log) as [[e | r] log'] end.
  - cbn. eauto.
  - eauto.
Qed.

Lemma validate_row_verdict row n log :
  ∃ log', validate_row row n log = (inr (Batch.verdict n row), log').
Proof.
  rewrite (stable_validate_row row n log). unfold Batch.verdict.
  destruct (validate_row_returns row n []) as (r & l' & E).
  rewrite E. cbn. eauto.
Qed.

End Validators.

Section BatchFacts.
Context `{Builtins}.
Import CSVParser.

Lemma parse_step_verdict (self : t) (n : nat) (row : Row) log :
  ∃ log',
    parse_step self n row log
    = (inr (mk (csv_file_path self)
               (parsed_data self ++ option_list (Batch.accepted (n, row)))
               (invalid_rows self ++ option_list (Batch.rejected (n, row)))),
       log').
Proof.
  destruct (validate_row_verdict row n log) as (log' & E).
  exists log'. unfold parse_step.
  change (mbind ?k ?c) with (Py.bind c k).
  rewrite (bind_inr _ _ _ _ _ E).
  unfold Batch.accepted, Batch.rejected. cbn [fst snd].
  destruct (Batch.verdict n row) as [[[|] msg] [parsed |]];
    cbn; by rewrite ?app_nil_r.
Qed.

Lemma omap_cons_option_list {A B} (f : A → option B) (x : A) (l : list A) :
  omap f (x :: l) = option_list (f x) ++ omap f l.
Proof. cbn. by destruct (f x). Qed.

Lemma parse_rows_verdicts (rows : list Row) (self : t) (start : nat) log :
  ∃ log',
    parse_rows self start rows log
    = (inr (mk (csv_file_path self)
               (parsed_data self
                  ++ omap Batch.accepted (Spec.enumerate start rows))
               (invalid_rows self
                  ++ omap Batch.rejected (Spec.enumerate start rows))),
       log').
Proof.
  revert self start log.
  induction rows as [| row rows IH]; intros self start log.
  - exists log. cbn. rewrite !app_nil_r. by destruct self.
  - destruct (parse_step_verdict self start row log) as (log1 & E1).
    cbn [parse_rows]. change (mbind ?k ?c) with (Py.bind c k).
    rewrite (bind_inr _ _ _ _ _ E1).
    destruct (IH (mk (csv_file_path self)
                   (parsed_data self
                      ++ option_list (Batch.accepted (start, row)))
                   (invalid_rows self
                      ++ option_list (Batch.rejected (start, row))))
                (S start) log1) as (log2 & E2).
    exists log2. rewrite E2. cbn [csv_file_path parsed_data invalid_rows].
    cbn [Spec.enumerate]. rewrite !omap_cons_option_list, !app_assoc.
    reflexivity.
Qed.

Lemma accepted_or_rejected (entry : nat * Row) :
  length (option_list (Batch.accepted entry))
  + length (option_list (Batch.rejected entry)) = 1.
Proof.
  unfold Batch.accepted, Batch.rejected.
  by destruct (Batch.verdict entry.1 entry.2) as [[[|] msg] [parsed |]].
Qed.

Lemma partition_lengths (entries : list (nat * Row)) :
  length (omap Batch.accepted entries)
  + length (omap Batch.rejected entries) = length entries.
Proof.
  induction entries as [| e entries IH]; [reflexivity |].
  rewrite !omap_cons_option_list, !length_app. cbn [length].
  pose proof (accepted_or_rejected e). lia.
Qed.

Lemma length_enumerate {A} (start : nat) (rows : list A) :
  length (Spec.enumerate start rows) = length rows.
Proof.
  revert start. induction rows as [| r rows IH]; intros start;
    [reflexivity |].
  cbn. by rewrite IH.
Qed.

Lemma lookup_enumerate {A} (start : nat) (rows : list A) (i : nat) :
  Spec.enumerate start rows !! i = (λ r, (start + i, r)) <$> rows !! i.
Proof.
  revert start i. induction rows as [| r rows IH]; intros start i;
    [reflexivity |].
  destruct i as [| i]; cbn.
  - by rewrite Nat.add_0_r.
  - setoid_rewrite IH. by rewrite Nat.add_succ_r.
Qed.

Lemma parse_csv_rows_log (self : t) (rows : list Row) (stop : option exn) log :
  ∃ log1,
    let self' :=
      mk (csv_file_path self)
         (parsed_data self ++ omap Batch.accepted (Spec.enumerate 2 rows))
         (invalid_rows self ++ omap Batch.rejected (Spec.enumerate 2 rows)) in
    parse_csv self
      (mk_file true (inr (mk_reader (inr (Some expected_columns)) rows stop)))
      log
    = (inr (match stop with None => true | Some _ => false end, self'),
       log1 ++ closing_records self' stop).
Proof.
  unfold parse_csv, validate_header.
  cbn [exists_ open_ fieldnames Py.rows Py.stop negb].
  destruct (decide (Some expected_columns ≠ Some expected_columns))
    as [Hne | _]; [congruence |].
  unfold_M. cbn [negb].
  destruct (parse_rows_verdicts rows self 2
              (log ++ [(INFO, HeaderValidationPassed)])) as (log' & E).
  rewrite E. exists log'. destruct stop; cbn [closing_records].
  - reflexivity.
  - rewrite <- !app_assoc. reflexivity.
Qed.

Lemma parse_csv_rows (self : t) (rows : list Row) (stop : option exn) log :
  ∃ log',
    parse_csv self
      (mk_file true (inr (mk_reader (inr (Some expected_columns)) rows stop)))
      log
    = (inr (match stop with None => true | Some _ => false end,
            mk (csv_file_path self)
               (parsed_data self ++ omap Batch.accepted (Spec.enumerate 2 rows))
               (invalid_rows self
                  ++ omap Batch.rejected (Spec.enumerate 2 rows))),
       log').
Proof.
  destruct (parse_csv_rows_log self rows stop log) as (log1 & E).
  eexists. exact E.
Qed.

(** C6.  Batch validation of the [N] rows the reader yields never raises
    and puts every row into exactly one of the two lists: the lengths add
    up to [N], the accepted records keep the input order, and a rejection
    carries the ordinal of its row, the first data row having ordinal 2.
    This is so whether the reader is exhausted after these rows or stops
    with an exception; [parse_csv] answers [True] in the first case
    only. *)
Theorem batch_partitions_rows (path : string) (rows : list Row)
    (stop : option exn) (log : list log_record) :
  ∃ self' log',
    parse_rows (__init__ path) 2 rows log = (inr self', log')
    ∧ length (parsed_data self') + length (invalid_rows self')
      = length rows
    ∧ parsed_data self' = omap Batch.accepted (Spec.enumerate 2 rows)
    ∧ invalid_rows self' = omap Batch.rejected (Spec.enumerate 2 rows)
    ∧ (∃ log'',
         parse_csv (__init__ path)
           (mk_file true
              (inr (mk_reader (inr (Some expected_columns)) rows stop)))
           log
         = (inr (match stop with None => true | Some _ => false end, self'),
            log''))
    ∧ (∀ i row, rows !! i = Some row →
         Spec.enumerate 2 rows !! i = Some (i + 2, row))
    ∧ (∀ n msg, (n, msg) ∈ invalid_rows self' →
         ∃ i row, rows !! i = Some row ∧ n = i + 2
                  ∧ Batch.rejected (n, row) = Some (n, msg)).
Proof.
  destruct (parse_rows_verdicts rows (__init__ path) 2 log) as (log' & E).
  eexists. exists log'. split; [exact E |].
  cbn [__init__ parsed_data invalid_rows app].
  split; [rewrite partition_lengths; apply length_enumerate |].
  split; [reflexivity |]. split; [reflexivity |].
  split; [apply parse_csv_rows |]. split.
  - intros i row Hrow. rewrite lookup_enumerate, Hrow. cbn.
    f_equal. f_equal. lia.
  - intros n msg Hin.
    apply list_elem_of_omap in Hin. destruct Hin as ([n' row] & Hin & Hrej).
    apply list_elem_of_lookup in Hin. destruct Hin as (i & Hi).
    rewrite lookup_enumerate in Hi.
    destruct (rows !! i) as [row' |] eqn:Erow; [| discriminate].
    cbn in Hi. injection Hi as <- <-.
    exists i, row'. split; [exact Erow |].
    assert (Hn : n = S (S i)).
    { unfold Batch.rejected in Hrej. cbn [fst snd] in Hrej.
      destruct (Batch.verdict _ _) as [[[|] m] [pr |]] in Hrej;
        try discriminate; injection Hrej as <- _; reflexivity. }
    subst n. split; [lia | exact Hrej].
Qed.

End BatchFacts.

Section ParsedRows.
Context `{Builtins}.
Import CSVParser.

Lemma validate_datetime_parsed (s : string) (t : datetime) log :
  strptime s = Some t →
  validate_datetime (PyStr s) log = (inr (Some t), log).
Proof.
  intros E. unfold validate_datetime, py_strptime. unfold_M.
  rewrite E. reflexivity.
Qed.

Lemma validate_numeric_parsed (s field_name : string) (x : float) log :
  float_of_str s = Some x →
  validate_numeric (PyStr s) field_name log
  = (inr (Some x), log ++ numeric_warning field_name x).
Proof.
  intros E. unfold validate_numeric, py_float, numeric_warning. unfold_M.
  rewrite E. destruct (Float.ltb x Float.zero); unfold_M;
    by rewrite ?app_nil_r.
Qed.

Lemma validate_integer_parsed (s field_name : string) (z : Z) log :
  int_of_str s = Some z →
  validate_integer (PyStr s) field_name log
  = (inr (Some z), log ++ integer_warning field_name z).
Proof.
  intros E. unfold validate_integer, py_int, integer_warning. unfold_M.
  rewrite E. destruct (z <? 0)%Z; unfold_M; by rewrite ?app_nil_r.
Qed.

Lemma getitem_lookup (row : Row) (key : string) (v : pyval) log :
  row !! key = Some v → getitem row key log = (inr v, log).
Proof. intros E. unfold getitem. by rewrite E. Qed.

Variable row : Row.
Variables s_datetime s_close s_high s_low s_open s_volume s_instrument : string.
Variable dt : datetime.
Variables close high low open_price : float.
Variable volume : Z.

Hypothesis row_datetime : row !! "datetime" = Some (PyStr s_datetime).
Hypothesis row_close : row !! "close" = Some (PyStr s_close).
Hypothesis row_high : row !! "high" = Some (PyStr s_high).
Hypothesis row_low : row !! "low" = Some (PyStr s_low).
Hypothesis row_open : row !! "open" = Some (PyStr s_open).
Hypothesis row_volume : row !! "volume" = Some (PyStr s_volume).
Hypothesis row_instrument : row !! "instrument" = Some (PyStr s_instrument).

Hypothesis parse_datetime : strptime s_datetime = Some dt.
Hypothesis parse_close : float_of_str s_close = Some close.
Hypothesis parse_high : float_of_str s_high = Some high.
Hypothesis parse_low : float_of_str s_low = Some low.
Hypothesis parse_open : float_of_str s_open = Some open_price.
Hypothesis parse_volume : int_of_str s_volume = Some volume.

(** On a row whose six typed fields parse, [validate_row] logs the
    warnings of the negative values and answers what [checks] says. *)
Lemma validate_row_parsed (n : nat) log :
  validate_row row n log
  = (inr (checks dt close high low open_price volume (strip s_instrument)),
     log ++ numeric_warning "close" close ++ numeric_warning "high" high
         ++ numeric_warning "low" low ++ numeric_warning "open" open_price
         ++ integer_warning "volume" volume).
Proof.
  unfold validate_row. apply try_except_inr.
  change (mbind ?k ?c) with (Py.bind c k).
  rewrite (bind_inr _ _ _ _ _ (getitem_lookup _ _ _ _ row_datetime)).
  change (mbind ?k ?c) with (Py.bind c k).
  rewrite (bind_inr _ _ _ _ _ (validate_datetime_parsed _ _ _ parse_datetime)).
  change (mbind ?k ?c) with (Py.bind c k).
  rewrite (bind_inr _ _ _ _ _ (getitem_lookup _ _ _ _ row_close)).
  change (mbind ?k ?c) with (Py.bind c k).
  rewrite (bind_inr _ _ _ _ _ (validate_numeric_parsed _ _ _ _ parse_close)).
  change (mbind ?k ?c) with (Py.bind c k).
  rewrite (bind_inr _ _ _ _ _ (getitem_lookup _ _ _ _ row_high)).
  change (mbind ?k ?c) with (Py.bind c k).
  rewrite (bind_inr _ _ _ _ _ (validate_numeric_parsed _ _ _ _ parse_high)).
  change (mbind ?k ?c) with (Py.bind c k).
  rewrite (bind_inr _ _ _ _ _ (getitem_lookup _ _ _ _ row_low)).
  change (mbind ?k ?c) with (Py.bind c k).
  rewrite (bind_inr _ _ _ _ _ (validate_numeric_parsed _ _ _ _ parse_low)).
  change (mbind ?k ?c) with (Py.bind c k).
  rewrite (bind_inr _ _ _ _ _ (getitem_lookup _ _ _ _ row_open)).
  change (mbind ?k ?c) with (Py.bind c k).
  rewrite (bind_inr _ _ _ _ _ (validate_numeric_parsed _ _ _ _ parse_open)).
  change (mbind ?k ?c) with (Py.bind c k).
  rewrite (bind_inr _ _ _ _ _ (getitem_lookup _ _ _ _ row_volume)).
  change (mbind ?k ?c) with (Py.bind c k).
  rewrite (bind_inr _ _ _ _ _ (validate_integer_parsed _ _ _ _ parse_volume)).
  change (mbind ?k ?c) with (Py.bind c k).
  rewrite (bind_inr _ _ _ _ _ (getitem_lookup _ _ _ _ row_instrument)).
  unfold py_strip, checks. unfold_M. rewrite <- !app_assoc.
  repeat match goal with
         | |- context [if ?b then _ else _] => destruct b
         end; reflexivity.
Qed.

End ParsedRows.

Section StrictValidator.
Context `{Builtins}.
Import CSVParser.

(** C7.  When every field of a row parses (the timestamp, the prices and
    the volume by their parsers, the instrument to a non-empty trimmed
    name) and [high < low], the row is rejected as "high price is less
    than low price", whatever the other two OHLC checks would say: the
    three checks run in the order high < low, high < open or close,
    low > open or close, and the first one that fails decides. *)
Theorem ohlc_checks_in_order (row : Row) (n : nat) (log : list log_record)
    (s_datetime s_close s_high s_low s_open s_volume s_instrument : string)
    (dt : datetime) (close high low open_price : float) (volume : Z) :
  row !! "datetime" = Some (PyStr s_datetime) →
  row !! "close" = Some (PyStr s_close) →
  row !! "high" = Some (PyStr s_high) →
  row !! "low" = Some (PyStr s_low) →
  row !! "open" = Some (PyStr s_open) →
  row !! "volume" = Some (PyStr s_volume) →
  row !! "instrument" = Some (PyStr s_instrument) →
  strptime s_datetime = Some dt →
  float_of_str s_close = Some close →
  float_of_str s_high = Some high →
  float_of_str s_low = Some low →
  float_of_str s_open = Some open_price →
  int_of_str s_volume = Some volume →
  strip s_instrument ≠ "" →
  (Float.ltb high low = true →
   (validate_row row n log).1 = inr (false, HighLessThanLow high low, None))
  ∧ (Float.ltb high low = false →
     Float.ltb high open_price || Float.ltb high close = true →
     (validate_row row n log).1
     = inr (false, HighLessThanOpenOrClose high open_price close, None))
  ∧ (Float.ltb high low = false →
     Float.ltb high open_price || Float.ltb high close = false →
     Float.gtb low open_price || Float.gtb low close = true →
     (validate_row row n log).1
     = inr (false, LowGreaterThanOpenOrClose low open_price close, None))
  ∧ (Float.ltb high low = false →
     Float.ltb high open_price || Float.ltb high close = false →
     Float.gtb low open_price || Float.gtb low close = false →
     (validate_row row n log).1
     = inr (true, NoError,
            Some (mk_parsed_row dt close high low open_price volume
                    (strip s_instrument)))).
Proof.
  intros R1 R2 R3 R4 R5 R6 R7 P1 P2 P3 P4 P5 P6 Hinstr.
  rewrite (validate_row_parsed row _ _ _ _ _ _ _ _ _ _ _ _ _
             R1 R2 R3 R4 R5 R6 R7 P1 P2 P3 P4 P5 P6 n log).
  cbn [fst]. unfold checks.
  apply String.eqb_neq in Hinstr. rewrite Hinstr.
  repeat split; intros; repeat match goal with
                               | E : _ = _ |- _ => rewrite E
                               end; reflexivity.
Qed.

(** C1, as the code has it.  A row whose volume parses as a negative
    integer and which is otherwise valid is not rejected at all: parsing
    the volume succeeds and logs a warning, and [validate_row] accepts
    the row with the negative volume in the parsed record. *)
Theorem negative_volume_is_accepted (row : Row) (n : nat)
    (log : list log_record)
    (s_datetime s_close s_high s_low s_open s_volume s_instrument : string)
    (dt : datetime) (close high low open_price : float) (volume : Z) :
  row !! "datetime" = Some (PyStr s_datetime) →
  row !! "close" = Some (PyStr s_close) →
  row !! "high" = Some (PyStr s_high) →
  row !! "low" = Some (PyStr s_low) →
  row !! "open" = Some (PyStr s_open) →
  row !! "volume" = Some (PyStr s_volume) →
  row !! "instrument" = Some (PyStr s_instrument) →
  strptime s_datetime = Some dt →
  float_of_str s_close = Some close →
  float_of_str s_high = Some high →
  float_of_str s_low = Some low →
  float_of_str s_open = Some open_price →
  int_of_str s_volume = Some volume →
  (volume < 0)%Z →
  strip s_instrument ≠ "" →
  Float.ltb high low = false →
  Float.ltb high open_price || Float.ltb high close = false →
  Float.gtb low open_price || Float.gtb low close = false →
  validate_integer (PyStr s_volume) "volume" log
  = (inr (Some volume),
     log ++ [(WARNING, NegativeValueFound "volume" (NumInt volume))])
  ∧ ∃ warnings,
      validate_row row n log
      = (inr (true, NoError,
              Some (mk_parsed_row dt close high low open_price volume
                      (strip s_instrument))),
         log ++ warnings
             ++ [(WARNING, NegativeValueFound "volume" (NumInt volume))]).
Proof.
  intros R1 R2 R3 R4 R5 R6 R7 P1 P2 P3 P4 P5 P6 Hneg Hinstr C1 C2 C3.
  assert (Hw : integer_warning "volume" volume
               = [(WARNING, NegativeValueFound "volume" (NumInt volume))]).
  { unfold integer_warning. destruct (Z.ltb_spec volume 0); [reflexivity | lia]. }
  split.
  - rewrite (validate_integer_parsed _ _ _ _ P6), Hw. reflexivity.
  - rewrite (validate_row_parsed row _ _ _ _ _ _ _ _ _ _ _ _ _
               R1 R2 R3 R4 R5 R6 R7 P1 P2 P3 P4 P5 P6 n log).
    unfold checks. apply String.eqb_neq in Hinstr.
    rewrite Hinstr, C1, C2, C3, Hw.
    exists (numeric_warning "close" close ++ numeric_warning "high" high
            ++ numeric_warning "low" low ++ numeric_warning "open" open_price).
    by rewrite <- !app_assoc.
Qed.

End StrictValidator.

Section LenientValidator.
Context `{Builtins}.
Import StockDataImporter.

(** C10.  The import path accepts every row whose timestamp, prices and
    volume parse and whose instrument is not blank: it checks no
    relation between the prices, and it neither logs nor rejects a
    negative volume. *)
Theorem lenient_validator_accepts (row : Row) (log : list log_record)
    (s_datetime s_close s_high s_low s_open s_volume s_instrument : string)
    (dt : datetime) (close high low open_price : float) (volume : Z) :
  row !! "datetime" = Some (PyStr s_datetime) →
  row !! "close" = Some (PyStr s_close) →
  row !! "high" = Some (PyStr s_high) →
  row !! "low" = Some (PyStr s_low) →
  row !! "open" = Some (PyStr s_open) →
  row !! "volume" = Some (PyStr s_volume) →
  row !! "instrument" = Some (PyStr s_instrument) →
  strptime s_datetime = Some dt →
  float_of_str s_close = Some close →
  float_of_str s_high = Some high →
  float_of_str s_low = Some low →
  float_of_str s_open = Some open_price →
  int_of_str s_volume = Some volume →
  strip s_instrument ≠ "" →
  validate_row_data row log = (inr (true, NoError), log).
Proof.
  intros R1 R2 R3 R4 R5 R6 R7 P1 P2 P3 P4 P5 P6 Hinstr.
  apply String.eqb_neq in Hinstr.
  unfold validate_row_data, getitem, py_strptime, py_float, py_int, py_strip.
  rewrite R1, R2, R3, R4, R5, R6, R7. unfold_M.
  rewrite P1, P2, P3, P4, P5, P6, Hinstr. reflexivity.
Qed.

End LenientValidator.

(* ===================================================================== *)
(** ** The signal engine at concrete inputs *)
(* ===================================================================== *)

Section Examples.
Import Pandas Api.

Lemma signal_values_witness :
  ∃ df, build_frame Reference.zigzag 1 2 = inr df
    ∧ signal df = [0; 1; -1; 1; -1]%Z
    ∧ ∀ i, i < length Reference.zigzag →
        ∃ s l g,
          short_ma df !! i = Some s
          ∧ long_ma df !! i = Some l
          ∧ signal df !! i = Some g
          ∧ (g = (-1)%Z ∨ g = 0%Z ∨ g = 1%Z)
          ∧ (Float64.gtb s l = true → g = 1%Z)
          ∧ (Float64.ltb s l = true → g = (-1)%Z)
          ∧ (Float64.eqb s l = true → g = 0%Z).
Proof.
  destruct (signal_values Reference.zigzag 1 2) as (df & Hdf & H);
    [lia | lia |].
  exists df. split; [exact Hdf |]. split; [| exact H].
  vm_compute in Hdf. by injection Hdf as <-.
Defined.

Lemma position_delta_and_events_witness :
  ∃ df p,
    build_frame Reference.zigzag 1 2 = inr df
    ∧ get_strategy_performance Reference.zigzag "HINDALCO" 1 2
      = Performance p
    ∧ position df !! 0 = Some (Float64.of_Z 0)
    ∧ position df !! 3 = Some (Float64.of_Z 2)
    ∧ buy_signals p = Spec.events_where 2 (index df) (position df)
    ∧ sell_signals p = Spec.events_where (-2) (index df) (position df)
    ∧ buy_signals p = [mk_date 2024 1 4].
Proof.
  destruct (position_delta_and_events Reference.zigzag "HINDALCO" 1 2)
    as (df & p & Hdf & Hp & H0 & Hd & Hbuy & Hsell & _);
    [discriminate | lia | lia |].
  exists df, p. split; [exact Hdf |]. split; [exact Hp |].
  split; [exact H0 |].
  destruct (Hd 3) as (a & b & Ha & Hb & H3); [cbn; lia |].
  vm_compute in Hdf. injection Hdf as <-.
  vm_compute in Hp. injection Hp as <-.
  repeat split; reflexivity.
Defined.



Lemma cumulative_return_is_compounded_witness :
  ∃ df p,
    build_frame Reference.zigzag 1 2 = inr df
    ∧ get_strategy_performance Reference.zigzag "HINDALCO" 1 2
      = Performance p
    ∧ strategy_returns df !! 2
      = Some (Float64.sub (Float64.div (Float64.of_Z 99) (Float64.of_Z 110))
                Float64.one)
    ∧ cumulative_return p = Spec.cumulative_return (close df) (signal df)
    ∧ Float64.ltb (cumulative_return p) Float64.zero = true.
Proof.
  destruct (cumulative_return_is_compounded Reference.zigzag "HINDALCO" 1 2)
    as (df & p & Hdf & Hp & _ & _ & Hcum);
    [discriminate | lia | lia |].
  exists df, p. split; [exact Hdf |]. split; [exact Hp |].
  destruct Hcum as [Hcols Hcum].
  { vm_compute in Hdf. injection Hdf as <-. intros i Hi.
    do 5 (destruct i as [| i]; [reflexivity |]). cbn in Hi. lia. }
  split; [| split; [exact Hcum |]].
  - vm_compute in Hdf. injection Hdf as <-. reflexivity.
  - vm_compute in Hp. injection Hp as <-. reflexivity.
Defined.

(** C2 fails as stated.  With the closes 0 and 1: [r[1]] is infinite,
    [strat[1]] is infinity times the signal 0, which is NaN, and so is
    the product of the claim; the engine skips the factor and returns
    0. *)
Lemma zero_close_breaks_the_product :
  ∃ df p,
    build_frame Reference.from_zero 1 2 = inr df
    ∧ get_strategy_performance Reference.from_zero "HINDALCO" 1 2
      = Performance p
    ∧ Spec.strat (close df) (signal df) 1 = Float64.nan
    ∧ Spec.cumulative_return (close df) (signal df) = Float64.nan
    ∧ cumulative_return p = Float64.zero
    ∧ cumulative_return p ≠ Spec.cumulative_return (close df) (signal df).
Proof.
  do 2 eexists. split; [vm_compute; reflexivity |].
  split; [vm_compute; reflexivity |].
  split; [vm_compute; reflexivity |].
  split; [vm_compute; reflexivity |].
  split; [vm_compute; reflexivity |].
  vm_compute. discriminate.
Qed.

(** Six days at 0.1 with the windows 2 and 3: each mean is 0.1 itself,
    although 0.1 + 0.1 + 0.1 divided by 3 is not. *)
Lemma constant_series_is_flat_witness :
  ∃ df p,
    build_frame Reference.flat 2 3 = inr df
    ∧ get_strategy_performance Reference.flat "HINDALCO" 2 3
      = Performance p
    ∧ (∀ i, i < length Reference.flat → signal df !! i = Some 0%Z)
    ∧ long_ma df !! 5 = Some (Float64.of_decimal 1 1)
    ∧ Spec.arithmetic_mean (replicate 3 (Float64.of_decimal 1 1))
      ≠ Float64.of_decimal 1 1
    ∧ cumulative_return p = Float64.zero.
Proof.
  destruct (constant_series_is_flat Reference.flat "HINDALCO" 2 3
              (Float64.of_decimal 1 1))
    as (df & p & Hdf & Hp & Hrows & _ & _ & Hc);
    [discriminate | lia | lia | repeat constructor |].
  exists df, p. split; [exact Hdf |]. split; [exact Hp |].
  split; [intros i Hi; apply (Hrows i Hi) |].
  split.
  { destruct (Hrows 5) as (_ & <- & Hs); [cbn; lia |].
    apply Hs; reflexivity. }
  split; [vm_compute; discriminate | exact Hc].
Defined.

(** C8 fails as stated: 2^63 is a positive window, and with it a
    constant series gives no signal and no cumulative return, but the
    status 500. *)
Lemma constant_series_window_overflow :
  Forall (λ r, close_ r = Float64.of_decimal 1 1) Reference.flat
  ∧ build_frame Reference.flat (2 ^ 63) 3 = inl OverflowError
  ∧ get_strategy_performance Reference.flat "HINDALCO" (2 ^ 63) 3
    = HTTPException 500 OverflowError.
Proof.
  split; [repeat constructor |]. split; reflexivity.
Qed.

Lemma windows_decide_the_response_witness :
  (∃ p, get_strategy_performance Reference.rising "HINDALCO" 2 3
        = Performance p ∧ short_window p = 2%Z)
  ∧ (∃ text, get_strategy_performance Reference.rising "HINDALCO" 0 3
             = HTTPException 500 (ValueError text))
  ∧ get_strategy_performance Reference.rising "HINDALCO" 2 (2 ^ 63)
    = HTTPException 500 OverflowError.
Proof.
  destruct (windows_decide_the_response Reference.rising "HINDALCO" 2 3)
    as (Hok & _ & _); [discriminate |].
  destruct (windows_decide_the_response Reference.rising "HINDALCO" 0 3)
    as (_ & Hbad & _); [discriminate |].
  destruct (windows_decide_the_response Reference.rising "HINDALCO" 2
              (2 ^ 63)) as (_ & _ & Hover); [discriminate |].
  split; [| split].
  - destruct Hok as (p & Hp & Hs & _); [lia |]. eauto.
  - apply Hbad. left. lia.
  - apply Hover. right. lia.
Defined.

Lemma frame_has_no_lookahead_witness :
  ∃ df df',
    build_frame Reference.prices 2 3 = inr df
    ∧ build_frame (take 2 Reference.prices) 2 3 = inr df'
    ∧ short_ma df' = take 2 (short_ma df)
    ∧ signal df' = take 2 (signal df)
    ∧ strategy_returns df' = take 2 (strategy_returns df).
Proof.
  destruct (frame_has_no_lookahead Reference.prices 2 3 2)
    as (df & df' & H1 & H2 & Hs & _ & H3 & _ & _ & H4);
    [lia | lia |].
  exists df, df'. repeat split; assumption.
Defined.

Lemma equal_windows_never_trade_witness :
  ∃ p, get_strategy_performance Reference.zigzag "HINDALCO" 3 3
       = Performance p
       ∧ total_trades p = 0
       ∧ Float64.eqb (cumulative_return p) Float64.zero = true.
Proof.
  destruct (equal_windows_never_trade Reference.zigzag "HINDALCO" 3)
    as (df & p & _ & Hp & _ & _ & _ & _ & _ & Ht & Hc);
    [discriminate | lia |].
  exists p. repeat split; assumption.
Defined.

Lemma first_rows_give_no_event_witness :
  ∃ p, get_strategy_performance (take 2 Reference.zigzag) "HINDALCO" 1 2
       = Performance p
       ∧ buy_signals p = [] ∧ sell_signals p = [].
Proof.
  destruct (first_rows_give_no_event (take 2 Reference.zigzag) "HINDALCO" 1 2)
    as (df & p & _ & Hp & _ & Hnone);
    [discriminate | lia | lia |].
  exists p. split; [exact Hp |]. apply Hnone. cbn. lia.
Defined.

(** The step-up series of [test_crossover_detection], with its windows
    5 and 20: the signal goes from 0 to 1 and stays there, so there is
    no buy event. *)
Lemma one_sided_signal_never_trades_witness :
  ∃ df p,
    build_frame Reference.step_up 5 20 = inr df
    ∧ get_strategy_performance Reference.step_up "HINDALCO" 5 20
      = Performance p
    ∧ signal df = replicate 10 0%Z ++ replicate 15 1%Z
    ∧ buy_signals p = [] ∧ num_buys p = 0.
Proof.
  destruct (one_sided_signal_never_trades Reference.step_up "HINDALCO" 5 20)
    as (df & p & Hdf & Hp & Hnone); [discriminate | lia | lia |].
  exists df, p. split; [exact Hdf |]. split; [exact Hp |].
  assert (Hsig : signal df = replicate 10 0%Z ++ replicate 15 1%Z)
    by (vm_compute in Hdf; by injection Hdf as <-).
  split; [exact Hsig |].
  destruct Hnone as (Hb & _ & Hn & _); [| auto].
  left. intros i g Hg. rewrite Hsig in Hg.
  do 25 (destruct i as [| i]; [injection Hg as <-; discriminate |]).
  discriminate.
Defined.

End Examples.

Section ValidatorExamples.
Import CSVParser.

(** The scenario row with its high and low swapped is rejected for
    that, before the other two checks are looked at. *)
Lemma ohlc_checks_in_order_witness :
  (validate_row (H := Reference.builtins)
     (Reference.scenario_row "100" "150" "1000000") 2 []).1
  = inr (false, HighLessThanLow (Float.of_Z 100) (Float.of_Z 150), None).
Proof.
  apply (ohlc_checks_in_order (H := Reference.builtins)
           (Reference.scenario_row "100" "150" "1000000") 2 []
           "2024-01-15 09:30:00" "153.00" "100" "150" "150.50" "1000000"
           "HINDALCO" (mk_datetime 2024 1 15 9 30 0)
           (Float.of_Z 153) (Float.of_Z 100) (Float.of_Z 150)
           (Fin (301 # 2)) 1000000);
    [reflexivity .. | discriminate | reflexivity].
Defined.

(** C1, at the scenario row with [volume=-5]: the volume parses, and
    the strict validator accepts the row; no rejection of any class is
    produced. *)
Lemma negative_volume_not_rejected :
  Reference.int_of_str "-5" = Some (-5)%Z
  ∧ validate_row (H := Reference.builtins)
      (Reference.scenario_row "155.75" "149.25" "-5") 2 []
    = (inr (true, NoError,
            Some (mk_parsed_row (mk_datetime 2024 1 15 9 30 0)
                    (Float.of_Z 153) (Fin (623 # 4)) (Fin (597 # 4))
                    (Fin (301 # 2)) (-5) "HINDALCO")),
       [(WARNING, NegativeValueFound "volume" (NumInt (-5)))])
  ∧ ¬ ∃ msg log',
        validate_row (H := Reference.builtins)
          (Reference.scenario_row "155.75" "149.25" "-5") 2 []
        = (inr (false, msg, None), log').
Proof.
  split; [reflexivity |].
  assert (E : validate_row (H := Reference.builtins)
                (Reference.scenario_row "155.75" "149.25" "-5") 2 []
              = (inr (true, NoError,
                      Some (mk_parsed_row (mk_datetime 2024 1 15 9 30 0)
                              (Float.of_Z 153) (Fin (623 # 4)) (Fin (597 # 4))
                              (Fin (301 # 2)) (-5) "HINDALCO")),
                 [(WARNING, NegativeValueFound "volume" (NumInt (-5)))]))
    by (vm_compute; reflexivity).
  split; [exact E |].
  intros (msg & log' & E'). rewrite E in E'. discriminate.
Qed.

Lemma negative_volume_is_accepted_witness :
  ∃ warnings,
    validate_row (H := Reference.builtins)
      (Reference.scenario_row "155.75" "149.25" "-5") 2 []
    = (inr (true, NoError,
            Some (mk_parsed_row (mk_datetime 2024 1 15 9 30 0)
                    (Float.of_Z 153) (Fin (623 # 4)) (Fin (597 # 4))
                    (Fin (301 # 2)) (-5) "HINDALCO")),
       [] ++ warnings
          ++ [(WARNING, NegativeValueFound "volume" (NumInt (-5)))]).
Proof.
  apply (negative_volume_is_accepted (H := Reference.builtins)
           (Reference.scenario_row "155.75" "149.25" "-5") 2 []
           "2024-01-15 09:30:00" "153.00" "155.75" "149.25" "150.50" "-5"
           "HINDALCO" (mk_datetime 2024 1 15 9 30 0)
           (Float.of_Z 153) (Fin (623 # 4)) (Fin (597 # 4))
           (Fin (301 # 2)) (-5));
    try reflexivity; discriminate.
Defined.

(** The lenient validator on a row with high below low and a negative
    volume. *)
Lemma lenient_validator_accepts_witness :
  StockDataImporter.validate_row_data (H := Reference.builtins)
    (Reference.scenario_row "100" "150" "-5") []
  = (inr (true, StockDataImporter.NoError), []).
Proof.
  apply (lenient_validator_accepts (H := Reference.builtins)
           (Reference.scenario_row "100" "150" "-5") []
           "2024-01-15 09:30:00" "153.00" "100" "150" "150.50" "-5"
           "HINDALCO" (mk_datetime 2024 1 15 9 30 0)
           (Float.of_Z 153) (Float.of_Z 100) (Float.of_Z 150)
           (Fin (301 # 2)) (-5));
    try reflexivity; discriminate.
Defined.

End ValidatorExamples.

(* ===================================================================== *)
(** ** Further properties: the strict validator *)
(* ===================================================================== *)

Ltac unfold_M_in H :=
  unfold mbind, M_bind, mret, M_ret, Py.bind, Py.ret, Py.raise, logger,
    try_except in H; cbn beta iota in H.

Ltac reduce_in H := cbn beta iota delta [is_ValueError Exception orb] in H.

(** Case analysis on the next lookup, parse or test that [H] is stuck on. *)
Ltac split_scrutinee H :=
  match type of H with
  | context [@lookup _ _ _ _ ?k ?row] =>
      destruct (@lookup _ _ _ _ k row) as [[| ?] |] eqn:?
  | context [strptime ?s] => destruct (strptime s) eqn:?
  | context [float_of_str ?s] => destruct (float_of_str s) eqn:?
  | context [int_of_str ?s] => destruct (int_of_str s) eqn:?
  | context [Float.ltb ?a ?b] => destruct (Float.ltb a b) eqn:?
  | context [Float.gtb ?a ?b] => destruct (Float.gtb a b) eqn:?
  | context [Z.ltb ?a ?b] => destruct (Z.ltb a b) eqn:?
  | context [String.eqb ?a ?b] => destruct (String.eqb a b) eqn:?
  end; reduce_in H; try discriminate H.

Section StrictInversion.
Context `{Builtins}.
Import CSVParser.

(** What an accepting answer of [validate_row] tells about the row. *)
Lemma validate_row_accepted_inv (row : Row) (n : nat) (log log' : list log_record)
    (msg : error_msg) (p : parsed_row) :
  validate_row row n log = (inr (true, msg, Some p), log') →
  msg = NoError
  ∧ ∃ s_datetime s_close s_high s_low s_open s_volume s_instrument,
      row !! "datetime" = Some (PyStr s_datetime)
      ∧ row !! "close" = Some (PyStr s_close)
      ∧ row !! "high" = Some (PyStr s_high)
      ∧ row !! "low" = Some (PyStr s_low)
      ∧ row !! "open" = Some (PyStr s_open)
      ∧ row !! "volume" = Some (PyStr s_volume)
      ∧ row !! "instrument" = Some (PyStr s_instrument)
      ∧ strptime s_datetime = Some (r_dt p)
      ∧ float_of_str s_close = Some (r_close p)
      ∧ float_of_str s_high = Some (r_high p)
      ∧ float_of_str s_low = Some (r_low p)
      ∧ float_of_str s_open = Some (r_open_price p)
      ∧ int_of_str s_volume = Some (r_volume p)
      ∧ r_instrument p = strip s_instrument
      ∧ checks (r_dt p) (r_close p) (r_high p) (r_low p) (r_open_price p)
          (r_volume p) (r_instrument p)
        = (true, NoError, Some p).
Proof.
  intros Hv.
  unfold validate_row, validate_datetime, validate_numeric, validate_integer,
    getitem, py_strptime, py_float, py_int, py_strip in Hv.
  unfold_M_in Hv. reduce_in Hv.
  repeat split_scrutinee Hv.
  all: injection Hv as <- <- <-.
  all: split; [reflexivity |].
  all: do 7 eexists; repeat (split; [eassumption || reflexivity |]).
  all: cbn [r_dt r_close r_high r_low r_open_price r_volume r_instrument].
  all: unfold checks;
    repeat match goal with
           | E : _ = _ |- _ => rewrite E
           end; reflexivity.
Qed.

End StrictInversion.

Ltac reduce_goal := cbn beta iota delta [is_ValueError Exception orb].

Ltac split_goal_scrutinee :=
  match goal with
  | |- context [@lookup _ _ _ _ ?k ?row] =>
      destruct (@lookup _ _ _ _ k row) as [[| ?] |] eqn:?
  | |- context [strptime ?s] => destruct (strptime s) eqn:?
  | |- context [float_of_str ?s] => destruct (float_of_str s) eqn:?
  | |- context [int_of_str ?s] => destruct (int_of_str s) eqn:?
  | |- context [Float.ltb ?a ?b] => destruct (Float.ltb a b) eqn:?
  | |- context [Float.gtb ?a ?b] => destruct (Float.gtb a b) eqn:?
  | |- context [Z.ltb ?a ?b] => destruct (Z.ltb a b) eqn:?
  | |- context [String.eqb ?a ?b] => destruct (String.eqb a b) eqn:?
  end; reduce_goal.

Section StrictAnswers.
Context `{Builtins}.
Import CSVParser.

(** X1.  [validate_row] never raises, whatever the row holds (missing
    keys and [None] cells included), and its answer is consistent: either
    [(True, "", tuple)] or [(False, message, None)] with a message that is
    not empty. *)
Theorem validate_row_answer_shape (row : Row) (n : nat)
    (log : list log_record) :
  ∃ r log',
    validate_row row n log = (inr r, log')
    ∧ ((∃ p, r = (true, NoError, Some p))
       ∨ (∃ msg, r = (false, msg, None) ∧ msg ≠ NoError)).
Proof.
  unfold validate_row, validate_datetime, validate_numeric, validate_integer,
    getitem, py_strptime, py_float, py_int, py_strip.
  unfold_M. reduce_goal.
  repeat split_goal_scrutinee.
  all: eexists; eexists; (split; [reflexivity |]).
  all: first [ left; eexists; reflexivity
             | right; eexists; split; [reflexivity | discriminate] ].
Qed.

(** An accepted record has a name and passed the five comparisons. *)
Lemma accepted_row_checks (row : Row) (n : nat)
    (log log' : list log_record) (msg : error_msg) (p : parsed_row) :
  validate_row row n log = (inr (true, msg, Some p), log') →
  r_instrument p ≠ ""
  ∧ Float.ltb (r_high p) (r_low p) = false
  ∧ Float.ltb (r_high p) (r_open_price p) = false
  ∧ Float.ltb (r_high p) (r_close p) = false
  ∧ Float.gtb (r_low p) (r_open_price p) = false
  ∧ Float.gtb (r_low p) (r_close p) = false.
Proof.
  intros Hv.
  destruct (validate_row_accepted_inv _ _ _ _ _ _ Hv)
    as (_ & s1 & s2 & s3 & s4 & s5 & s6 & s7 & _ & _ & _ & _ & _
        & _ & _ & _ & _ & _ & _ & _ & _ & _ & Hc).
  unfold checks in Hc.
  destruct (String.eqb (r_instrument p) "") eqn:Ei; [discriminate |].
  destruct (Float.ltb (r_high p) (r_low p)); [discriminate |].
  destruct (Float.ltb (r_high p) (r_open_price p)); [discriminate |].
  destruct (Float.ltb (r_high p) (r_close p)); [discriminate |].
  destruct (Float.gtb (r_low p) (r_open_price p)); [discriminate |].
  destruct (Float.gtb (r_low p) (r_close p)); [discriminate |].
  apply String.eqb_neq in Ei. repeat split; try reflexivity. exact Ei.
Qed.

(** X2.  A row that is accepted has text in all seven cells; the record
    holds exactly what the parsers make of them, with the instrument
    trimmed and not empty, and none of the three OHLC tests fires on it. *)
Theorem accepted_row_is_consistent (row : Row) (n : nat)
    (log log' : list log_record) (msg : error_msg) (p : parsed_row) :
  validate_row row n log = (inr (true, msg, Some p), log') →
  msg = NoError
  ∧ (∃ s_datetime s_close s_high s_low s_open s_volume s_instrument,
      row !! "datetime" = Some (PyStr s_datetime)
      ∧ row !! "close" = Some (PyStr s_close)
      ∧ row !! "high" = Some (PyStr s_high)
      ∧ row !! "low" = Some (PyStr s_low)
      ∧ row !! "open" = Some (PyStr s_open)
      ∧ row !! "volume" = Some (PyStr s_volume)
      ∧ row !! "instrument" = Some (PyStr s_instrument)
      ∧ strptime s_datetime = Some (r_dt p)
      ∧ float_of_str s_close = Some (r_close p)
      ∧ float_of_str s_high = Some (r_high p)
      ∧ float_of_str s_low = Some (r_low p)
      ∧ float_of_str s_open = Some (r_open_price p)
      ∧ int_of_str s_volume = Some (r_volume p)
      ∧ r_instrument p = strip s_instrument)
  ∧ r_instrument p ≠ ""
  ∧ Float.ltb (r_high p) (r_low p) = false
  ∧ Float.ltb (r_high p) (r_open_price p) = false
  ∧ Float.ltb (r_high p) (r_close p) = false
  ∧ Float.gtb (r_low p) (r_open_price p) = false
  ∧ Float.gtb (r_low p) (r_close p) = false.
Proof.
  intros Hv.
  destruct (validate_row_accepted_inv _ _ _ _ _ _ Hv)
    as (Hmsg & s1 & s2 & s3 & s4 & s5 & s6 & s7 & R1 & R2 & R3 & R4 & R5
        & R6 & R7 & P1 & P2 & P3 & P4 & P5 & P6 & Hi & Hc).
  split; [exact Hmsg |].
  split; [by exists s1, s2, s3, s4, s5, s6, s7 |].
  unfold checks in Hc.
  destruct (String.eqb (r_instrument p) "") eqn:Ei; [discriminate |].
  destruct (Float.ltb (r_high p) (r_low p)); [discriminate |].
  destruct (Float.ltb (r_high p) (r_open_price p)); [discriminate |].
  destruct (Float.ltb (r_high p) (r_close p)); [discriminate |].
  destruct (Float.gtb (r_low p) (r_open_price p)); [discriminate |].
  destruct (Float.gtb (r_low p) (r_close p)); [discriminate |].
  apply String.eqb_neq in Ei. repeat split; try reflexivity. exact Ei.
Qed.

(** X3.  A timestamp that does not parse decides the answer alone: the
    row is rejected as "Invalid datetime format" with the offending text
    and nothing is logged, whatever the other cells hold or lack. *)
Theorem bad_datetime_is_reported_first (row : Row) (n : nat)
    (log : list log_record) (s_datetime : string) :
  row !! "datetime" = Some (PyStr s_datetime) →
  strptime s_datetime = None →
  validate_row row n log
  = (inr (false, InvalidDatetimeFormat (PyStr s_datetime), None), log).
Proof.
  intros R P.
  unfold validate_row, validate_datetime, getitem, py_strptime.
  unfold_M. rewrite R. reduce_goal. rewrite P. reflexivity.
Qed.

(** X4.  A blank instrument is reported before any OHLC violation: when
    the six typed fields parse and the instrument is empty after
    trimming, the answer is "Empty instrument name" even if high < low. *)
Theorem blank_instrument_precedes_ohlc (row : Row) (n : nat)
    (log : list log_record)
    (s_datetime s_close s_high s_low s_open s_volume s_instrument : string)
    (dt : datetime) (close high low open_price : float) (volume : Z) :
  row !! "datetime" = Some (PyStr s_datetime) →
  row !! "close" = Some (PyStr s_close) →
  row !! "high" = Some (PyStr s_high) →
  row !! "low" = Some (PyStr s_low) →
  row !! "open" = Some (PyStr s_open) →
  row !! "volume" = Some (PyStr s_volume) →
  row !! "instrument" = Some (PyStr s_instrument) →
  strptime s_datetime = Some dt →
  float_of_str s_close = Some close →
  float_of_str s_high = Some high →
  float_of_str s_low = Some low →
  float_of_str s_open = Some open_price →
  int_of_str s_volume = Some volume →
  strip s_instrument = "" →
  (validate_row row n log).1 = inr (false, EmptyInstrumentName, None).
Proof.
  intros R1 R2 R3 R4 R5 R6 R7 P1 P2 P3 P4 P5 P6 Hinstr.
  rewrite (validate_row_parsed row _ _ _ _ _ _ _ _ _ _ _ _ _
             R1 R2 R3 R4 R5 R6 R7 P1 P2 P3 P4 P5 P6 n log).
  cbn [fst]. unfold checks. rewrite Hinstr. reflexivity.
Qed.

(** X5.  The OHLC tests are comparisons, and a comparison with NaN is
    false: when high and low both parse to NaN the row passes all three
    tests and is accepted, whatever open and close are. *)
Theorem nan_bounds_pass_the_checks (row : Row) (n : nat)
    (log : list log_record)
    (s_datetime s_close s_high s_low s_open s_volume s_instrument : string)
    (dt : datetime) (close open_price : float) (volume : Z) :
  row !! "datetime" = Some (PyStr s_datetime) →
  row !! "close" = Some (PyStr s_close) →
  row !! "high" = Some (PyStr s_high) →
  row !! "low" = Some (PyStr s_low) →
  row !! "open" = Some (PyStr s_open) →
  row !! "volume" = Some (PyStr s_volume) →
  row !! "instrument" = Some (PyStr s_instrument) →
  strptime s_datetime = Some dt →
  float_of_str s_close = Some close →
  float_of_str s_high = Some NaN →
  float_of_str s_low = Some NaN →
  float_of_str s_open = Some open_price →
  int_of_str s_volume = Some volume →
  strip s_instrument ≠ "" →
  (validate_row row n log).1
  = inr (true, NoError,
         Some (mk_parsed_row dt close NaN NaN open_price volume
                 (strip s_instrument))).
Proof.
  intros R1 R2 R3 R4 R5 R6 R7 P1 P2 P3 P4 P5 P6 Hinstr.
  rewrite (validate_row_parsed row _ _ _ _ _ _ _ _ _ _ _ _ _
             R1 R2 R3 R4 R5 R6 R7 P1 P2 P3 P4 P5 P6 n log).
  cbn [fst]. unfold checks. apply String.eqb_neq in Hinstr. rewrite Hinstr.
  unfold Float.gtb. by destruct open_price, close.
Qed.

End StrictAnswers.

Section BatchExtras.
Context `{Builtins}.
Import CSVParser.

Lemma accepted_validate_row (n : nat) (row : Row) (p : parsed_row) :
  Batch.accepted (n, row) = Some p →
  ∃ msg log', validate_row row n [] = (inr (true, msg, Some p), log').
Proof.
  unfold Batch.accepted, Batch.verdict. cbn [fst snd].
  destruct (validate_row row n []) as [[e | [[[|] msg] [q |]]] log'];
    cbn; try discriminate.
  intros [= ->]. eauto.
Qed.

Lemma Qltb_false_le (a b : Q) : Float.Qltb a b = false → (b <= a)%Q.
Proof.
  unfold Float.Qltb. rewrite negb_false_iff. apply Qle_bool_iff.
Qed.

(** X6.  The answer of [parse_csv].  It is [True] exactly when the file
    exists, opens, has the expected header, in that order, and is read to
    its end, however many rows are rejected.  When it is [False], either
    no row has been looked at (the object is unchanged and one ERROR
    record has been logged), or the reader stopped with an exception: the
    rows it had yielded before are stored in the object as usual, and the
    last record of the log is the ERROR with that exception. *)
Theorem parse_csv_answer (self : t) (f : file) (log : list log_record) :
  ∃ b self' log',
    parse_csv self f log = (inr (b, self'), log')
    ∧ (b = true ↔ ∃ rows, f = readable (Some expected_columns) rows)
    ∧ (b = false →
         (self' = self ∧ ∃ m, log' = log ++ [(ERROR, m)])
         ∨ ∃ rows e log1,
             f = mk_file true
                   (inr (mk_reader (inr (Some expected_columns)) rows
                           (Some e)))
             ∧ parsed_data self'
               = parsed_data self
                   ++ omap Batch.accepted (Spec.enumerate 2 rows)
             ∧ invalid_rows self'
               = invalid_rows self
                   ++ omap Batch.rejected (Spec.enumerate 2 rows)
             ∧ log' = log1 ++ [(ERROR, ErrorParsingCsvFile e)]).
Proof.
  destruct f as [[|] op].
  2:{ unfold parse_csv. cbn [exists_ negb]. unfold_M.
      do 3 eexists. split; [reflexivity |]. split.
      - split; [discriminate |]. intros (rows' & [=]).
      - intros _. left. eauto. }
  destruct op as [e | [[e | header] rows stop]].
  - unfold parse_csv. cbn [exists_ open_ negb]. unfold_M.
    do 3 eexists. split; [reflexivity |]. split.
    + split; [discriminate |]. intros (rows' & [=]).
    + intros _. left. eauto.
  - unfold parse_csv. cbn [exists_ open_ fieldnames negb]. unfold_M.
    do 3 eexists. split; [reflexivity |]. split.
    + split; [discriminate |]. intros (rows' & [=]).
    + intros _. left. eauto.
  - destruct (decide (header ≠ Some expected_columns)) as [Hne | Heq].
    + unfold parse_csv, validate_header.
      cbn [exists_ open_ fieldnames negb].
      destruct (decide (header ≠ Some expected_columns)); [| done].
      unfold_M. cbn [negb]. do 3 eexists. split; [reflexivity |]. split.
      * split; [discriminate |]. intros (rows' & [= E _]). congruence.
      * intros _. left. eauto.
    + apply dec_stable in Heq. subst header.
      destruct (parse_csv_rows_log self rows stop log) as (log1 & E).
      cbn zeta in E. rewrite E. do 3 eexists. split; [reflexivity |].
      destruct stop as [e |]; cbn [closing_records]; split.
      * split; [discriminate |]. intros (rows' & [=]).
      * intros _. right. exists rows, e, log1. repeat split.
      * split; [| reflexivity]. intros _. exists rows. reflexivity.
      * discriminate.
Qed.

(** X7.  Every record that batch validation stores has a non-empty
    instrument, and when its four prices are finite they satisfy
    [low <= open <= high] and [low <= close <= high]. *)
Theorem stored_records_satisfy_ohlc (path : string) (rows : list Row)
    (log : list log_record) :
  ∃ self' log',
    parse_rows (__init__ path) 2 rows log = (inr self', log')
    ∧ ∀ p, p ∈ parsed_data self' →
        r_instrument p ≠ ""
        ∧ ∀ o h l c,
            r_open_price p = Fin o → r_high p = Fin h →
            r_low p = Fin l → r_close p = Fin c →
            (l <= o)%Q ∧ (o <= h)%Q ∧ (l <= c)%Q ∧ (c <= h)%Q.
Proof.
  destruct (parse_rows_verdicts rows (__init__ path) 2 log) as (log' & E).
  eexists. exists log'. split; [exact E |].
  cbn [__init__ parsed_data app]. intros p Hp.
  apply list_elem_of_omap in Hp. destruct Hp as ([n row] & _ & Hacc).
  destruct (accepted_validate_row n row p Hacc) as (msg & l' & Hv).
  destruct (accepted_row_checks _ _ _ _ _ _ Hv)
    as (Hi & C1 & C2 & C3 & C4 & C5).
  split; [exact Hi |].
  intros o h l c Eo Eh El Ec. unfold Float.gtb in *.
  rewrite Eo, Eh, El, Ec in *. cbn in C2, C3, C4, C5.
  repeat split; by apply Qltb_false_le.
Qed.

(** X8.  The object accumulates: a second [parse_csv] of the same file on
    the same object keeps what the first one stored and appends the same
    records and rejections again, whether or not the reader fails after
    the rows. *)
Theorem parse_csv_twice_duplicates (path : string) (rows : list Row)
    (stop : option exn) :
  ∃ self1 log1 self2 log2,
    let f :=
      mk_file true (inr (mk_reader (inr (Some expected_columns)) rows stop)) in
    let b := match stop with None => true | Some _ => false end in
    parse_csv (__init__ path) f [] = (inr (b, self1), log1)
    ∧ parse_csv self1 f log1 = (inr (b, self2), log2)
    ∧ parsed_data self2 = parsed_data self1 ++ parsed_data self1
    ∧ invalid_rows self2 = invalid_rows self1 ++ invalid_rows self1.
Proof.
  destruct (parse_csv_rows (__init__ path) rows stop []) as (log1 & E1).
  eexists. exists log1.
  match type of E1 with _ = (inr (_, ?s), _) =>
    destruct (parse_csv_rows s rows stop log1) as (log2 & E2) end.
  eexists. exists log2. cbn zeta. split; [exact E1 |]. split; [exact E2 |].
  split; reflexivity.
Qed.

End BatchExtras.

(* ===================================================================== *)
(** ** Further properties: generate_statistics *)
(* ===================================================================== *)

Section MinMax.
Import Statistics.
Context {A : Type} (lt : A → A → bool).
Hypothesis lt_asym : ∀ x y, lt x y = true → lt y x = false.
Hypothesis lt_negtrans :
  ∀ x y z, lt x y = false → lt y z = false → lt x z = false.

Lemma py_min_least (first : A) (rest : list A) :
  py_min lt first rest ∈ first :: rest
  ∧ ∀ x, x ∈ first :: rest → lt x (py_min lt first rest) = false.
Proof.
  revert first. induction rest as [| v rest IH]; intros first.
  - cbn. split; [left |]. intros x Hx. apply list_elem_of_singleton in Hx.
    subst x. destruct (lt first first) eqn:E; [| reflexivity].
    by rewrite (lt_asym _ _ E) in E.
  - unfold py_min. cbn [fold_left]. fold (py_min lt (if lt v first then v else first) rest).
    destruct (IH (if lt v first then v else first)) as [Hin Hle].
    destruct (lt v first) eqn:E.
    + split.
      * apply elem_of_cons in Hin. destruct Hin as [-> | Hin];
          [right; left | right; right; exact Hin].
      * intros x Hx. apply elem_of_cons in Hx. destruct Hx as [-> | Hx];
          [| apply Hle; exact Hx].
        apply (lt_negtrans _ v); [apply lt_asym; exact E | apply Hle; left].
    + split.
      * apply elem_of_cons in Hin. destruct Hin as [-> | Hin];
          [left | right; right; exact Hin].
      * intros x Hx. apply elem_of_cons in Hx. destruct Hx as [-> | Hx];
          [apply Hle; left |].
        apply elem_of_cons in Hx. destruct Hx as [-> | Hx];
          [| apply Hle; right; exact Hx].
        apply (lt_negtrans _ first); [exact E | apply Hle; left].
Qed.

End MinMax.

Section MinMaxInstances.
Import Statistics.

Lemma py_max_greatest {A} (lt : A → A → bool) (first : A) (rest : list A) :
  (∀ x y, lt x y = true → lt y x = false) →
  (∀ x y z, lt x y = false → lt y z = false → lt x z = false) →
  py_max lt first rest ∈ first :: rest
  ∧ ∀ x, x ∈ first :: rest → lt (py_max lt first rest) x = false.
Proof.
  intros Hasym Hneg.
  apply (py_min_least (λ a b, lt b a)).
  - intros x y. apply Hasym.
  - intros x y z Hxy Hyz. apply (Hneg z y x); assumption.
Qed.

Lemma Zltb_asym (x y : Z) : (x <? y)%Z = true → (y <? x)%Z = false.
Proof. rewrite Z.ltb_lt, Z.ltb_ge. lia. Qed.

Lemma Zltb_negtrans (x y z : Z) :
  (x <? y)%Z = false → (y <? z)%Z = false → (x <? z)%Z = false.
Proof. rewrite !Z.ltb_ge. lia. Qed.

Lemma lex_ltb_asym (a b : list nat) : lex_ltb a b = true → lex_ltb b a = false.
Proof.
  revert b. induction a as [| x a IH]; intros [| y b]; cbn [lex_ltb];
    try done.
  intros Hab.
  destruct (Nat.ltb_spec x y), (Nat.ltb_spec y x), (Nat.eqb_spec x y),
    (Nat.eqb_spec y x); cbn [orb andb] in *; try lia; try done.
  apply IH. exact Hab.
Qed.

Lemma lex_ltb_negtrans (a b c : list nat) :
  length a = length b → length b = length c →
  lex_ltb a b = false → lex_ltb b c = false → lex_ltb a c = false.
Proof.
  revert b c.
  induction a as [| x a IH]; intros [| y b] [| z c]; cbn [lex_ltb length];
    try done.
  intros [= Hab] [= Hbc] H1 H2.
  destruct (Nat.ltb_spec x y), (Nat.ltb_spec y z), (Nat.ltb_spec x z),
    (Nat.eqb_spec x y), (Nat.eqb_spec y z), (Nat.eqb_spec x z);
    cbn [orb andb] in *; try lia; try done.
  eapply IH; eauto.
Qed.

Lemma datetime_ltb_asym (t u : datetime) :
  datetime_ltb t u = true → datetime_ltb u t = false.
Proof. apply lex_ltb_asym. Qed.

Lemma datetime_ltb_negtrans (t u v : datetime) :
  datetime_ltb t u = false → datetime_ltb u v = false →
  datetime_ltb t v = false.
Proof. apply lex_ltb_negtrans; reflexivity. Qed.

Lemma size_list_to_set_le `{Countable K} (l : list K) :
  size (list_to_set l : gset K) ≤ length l.
Proof.
  induction l as [| x l IH]; [by rewrite list_to_set_nil, size_empty |].
  rewrite list_to_set_cons, size_union_alt, size_singleton. cbn [length].
  pose proof (subseteq_size (list_to_set l ∖ {[x]} : gset K) (list_to_set l))
    as Hsub.
  assert (Hincl : (list_to_set l ∖ {[x]} : gset K) ⊆ list_to_set l)
    by (intros y Hy; apply elem_of_difference in Hy; tauto).
  specialize (Hsub Hincl). lia.
Qed.

Lemma size_list_to_set_pos `{Countable K} (l : list K) :
  l ≠ [] → 1 ≤ size (list_to_set l : gset K).
Proof.
  destruct l as [| x l]; [congruence |]. intros _.
  assert (size (list_to_set (x :: l) : gset K) ≠ 0); [| lia].
  apply size_non_empty_iff. set_solver.
Qed.

End MinMaxInstances.

Section StatisticsFacts.
Import CSVParser Statistics.

(** X9.  Statistics exist exactly when a row was accepted.  With no
    accepted row [generate_statistics] leaves [self.statistics] as it
    was; otherwise it counts the two lists, and the numbers of distinct
    instruments and of distinct dates lie between 1 and the number of
    accepted rows, the instrument set being that of the accepted rows. *)
Theorem statistics_counts (self : CSVParser.t) (old : option Statistics.t) :
  (parsed_data self = [] → generate_statistics self old = old)
  ∧ (parsed_data self ≠ [] →
     ∃ st, generate_statistics self old = Some st
       ∧ total_rows st = length (parsed_data self)
       ∧ 0 < total_rows st
       ∧ Statistics.invalid_rows st = length (CSVParser.invalid_rows self)
       ∧ 1 ≤ unique_instruments st ≤ total_rows st
       ∧ 1 ≤ unique_dates st ≤ total_rows st
       ∧ unique_instruments st = size (instruments st)
       ∧ ∀ name, name ∈ instruments st
                 ↔ ∃ p, p ∈ parsed_data self ∧ r_instrument p = name).
Proof.
  unfold generate_statistics. split.
  - intros ->. reflexivity.
  - intros Hne. destruct (parsed_data self) as [| first rest] eqn:E;
      [congruence |].
    eexists. split; [reflexivity |].
    cbn [total_rows Statistics.invalid_rows unique_instruments unique_dates
         instruments].
    split; [reflexivity |]. split; [cbn; lia |]. split; [reflexivity |].
    split.
    { split; [apply size_list_to_set_pos; discriminate |].
      etrans; [apply size_list_to_set_le |]. by rewrite length_fmap. }
    split.
    { split; [apply size_list_to_set_pos; discriminate |].
      etrans; [apply size_list_to_set_le |]. by rewrite length_fmap. }
    split; [reflexivity |].
    intros name. rewrite elem_of_list_to_set, list_elem_of_fmap.
    split; intros (p & H1 & H2); exists p; auto.
Qed.

(** X10.  The ranges of the statistics bound the accepted rows: the two
    ends of [volume_range] and of [date_range] are values of accepted
    rows, no accepted volume is below the first or above the second, and
    no accepted timestamp is earlier than the first or later than the
    second. *)
Theorem statistics_ranges (self : CSVParser.t) (old : option Statistics.t) :
  parsed_data self ≠ [] →
  ∃ st, generate_statistics self old = Some st
    ∧ (∃ p q, p ∈ parsed_data self ∧ q ∈ parsed_data self
              ∧ volume_range st = (r_volume p, r_volume q))
    ∧ (∀ p, p ∈ parsed_data self →
         ((volume_range st).1 ≤ r_volume p ≤ (volume_range st).2)%Z)
    ∧ (∃ p q, p ∈ parsed_data self ∧ q ∈ parsed_data self
              ∧ date_range st = (r_dt p, r_dt q))
    ∧ (∀ p, p ∈ parsed_data self →
         datetime_ltb (r_dt p) (date_range st).1 = false
         ∧ datetime_ltb (date_range st).2 (r_dt p) = false).
Proof.
  intros Hne. unfold generate_statistics.
  destruct (parsed_data self) as [| first rest] eqn:E; [congruence |].
  eexists. split; [reflexivity |]. cbn [volume_range date_range fst snd].
  destruct (py_min_least Z.ltb Zltb_asym Zltb_negtrans
              (r_volume first) (r_volume <$> rest)) as [Hvmin_in Hvmin].
  destruct (py_max_greatest Z.ltb (r_volume first) (r_volume <$> rest)
              Zltb_asym Zltb_negtrans) as [Hvmax_in Hvmax].
  destruct (py_min_least datetime_ltb datetime_ltb_asym datetime_ltb_negtrans
              (r_dt first) (r_dt <$> rest)) as [Hdmin_in Hdmin].
  destruct (py_max_greatest datetime_ltb (r_dt first) (r_dt <$> rest)
              datetime_ltb_asym datetime_ltb_negtrans) as [Hdmax_in Hdmax].
  change (r_volume first :: (r_volume <$> rest))
    with (r_volume <$> first :: rest) in *.
  change (r_dt first :: (r_dt <$> rest)) with (r_dt <$> first :: rest) in *.
  split.
  { apply list_elem_of_fmap in Hvmin_in as (p & Ep & Hp).
    apply list_elem_of_fmap in Hvmax_in as (q & Eq & Hq).
    exists p, q. by rewrite Ep, Eq. }
  split.
  { intros p Hp.
    assert (Hin : r_volume p ∈ r_volume <$> first :: rest)
      by (apply list_elem_of_fmap; eauto).
    specialize (Hvmin _ Hin). specialize (Hvmax _ Hin).
    apply Z.ltb_ge in Hvmin, Hvmax. lia. }
  split.
  { apply list_elem_of_fmap in Hdmin_in as (p & Ep & Hp).
    apply list_elem_of_fmap in Hdmax_in as (q & Eq & Hq).
    exists p, q. by rewrite Ep, Eq. }
  intros p Hp.
  assert (Hin : r_dt p ∈ r_dt <$> first :: rest)
    by (apply list_elem_of_fmap; eauto).
  split; [apply Hdmin | apply Hdmax]; exact Hin.
Qed.

End StatisticsFacts.

(* ===================================================================== *)
(** ** Further properties: the import path *)
(* ===================================================================== *)

Section LenientFacts.
Context `{Builtins}.
Import CSVParser.

Lemma validate_row_data_parsed (row : Row) (log : list log_record)
    (s_datetime s_close s_high s_low s_open s_volume s_instrument : string)
    (dt : datetime) (close high low open_price : float) (volume : Z) :
  row !! "datetime" = Some (PyStr s_datetime) →
  row !! "close" = Some (PyStr s_close) →
  row !! "high" = Some (PyStr s_high) →
  row !! "low" = Some (PyStr s_low) →
  row !! "open" = Some (PyStr s_open) →
  row !! "volume" = Some (PyStr s_volume) →
  row !! "instrument" = Some (PyStr s_instrument) →
  strptime s_datetime = Some dt →
  float_of_str s_close = Some close →
  float_of_str s_high = Some high →
  float_of_str s_low = Some low →
  float_of_str s_open = Some open_price →
  int_of_str s_volume = Some volume →
  StockDataImporter.validate_row_data row log
  = (inr (negb (String.eqb (strip s_instrument) ""),
          if String.eqb (strip s_instrument) ""
          then StockDataImporter.EmptyInstrumentName
          else StockDataImporter.NoError), log)
  ∧ ImportData.parse_tuple row log
    = (inr (mk_parsed_row dt close high low open_price volume
              (strip s_instrument)), log).
Proof.
  intros R1 R2 R3 R4 R5 R6 R7 P1 P2 P3 P4 P5 P6.
  unfold StockDataImporter.validate_row_data, ImportData.parse_tuple,
    getitem, py_strptime, py_float, py_int, py_strip.
  rewrite R1, R2, R3, R4, R5, R6, R7. unfold_M.
  rewrite P1, P2, P3, P4, P5, P6.
  split; [| reflexivity].
  by destruct (String.eqb (strip s_instrument) "").
Qed.

(** What an accepting answer of the lenient validator tells about the
    row. *)
Lemma validate_row_data_accepted_inv (row : Row)
    (log log' : list log_record) (msg : StockDataImporter.error_msg) :
  StockDataImporter.validate_row_data row log = (inr (true, msg), log') →
  msg = StockDataImporter.NoError ∧ log' = log
  ∧ ∃ p, ImportData.parse_tuple row [] = (inr p, []).
Proof.
  intros Hv.
  unfold StockDataImporter.validate_row_data, getitem, py_strptime,
    py_float, py_int, py_strip in Hv.
  unfold_M_in Hv. reduce_in Hv.
  repeat split_scrutinee Hv.
  injection Hv as <- <-. split; [reflexivity |]. split; [reflexivity |].
  eexists.
  unfold ImportData.parse_tuple, getitem, py_strptime, py_float, py_int,
    py_strip.
  unfold_M.
  repeat match goal with E : _ = _ |- _ => rewrite E end.
  reflexivity.
Qed.

(** X11.  The lenient validator never raises and never logs.  It answers
    [True] only with the empty message; "Data validation error" always
    carries a [ValueError] (text that did not parse) and "Unexpected
    error" a [KeyError], [TypeError] or [AttributeError]; a row with a
    missing key or a [None] cell is never accepted. *)
Theorem lenient_validator_answer_shape (row : Row) (log : list log_record) :
  ∃ b msg,
    StockDataImporter.validate_row_data row log = (inr (b, msg), log)
    ∧ (b = true ↔ msg = StockDataImporter.NoError)
    ∧ (∀ e, msg = StockDataImporter.DataValidationError e →
            ∃ text, e = ValueError text)
    ∧ (∀ e, msg = StockDataImporter.UnexpectedError e →
            e = TypeError ∨ e = AttributeError ∨ ∃ key, e = KeyError key)
    ∧ ((∃ key, key ∈ expected_columns
               ∧ (row !! key = None ∨ row !! key = Some PyNone)) →
       b = false).
Proof.
  unfold StockDataImporter.validate_row_data, getitem, py_strptime,
    py_float, py_int, py_strip.
  unfold_M. reduce_goal.
  repeat split_goal_scrutinee.
  all: do 2 eexists; (split; [reflexivity |]).
  all: split; [split; [try discriminate; reflexivity
                      | try discriminate; reflexivity] |].
  all: split; [intros e' [=]; subst; eauto |].
  all: split; [intros e' [=]; subst; eauto |].
  all: try (intros _; reflexivity).
  all: intros (key & Hkey & Hcell); exfalso.
  all: unfold expected_columns in Hkey;
    repeat (apply elem_of_cons in Hkey; destruct Hkey as [-> | Hkey]);
    try (by apply elem_of_nil in Hkey);
    destruct Hcell; congruence.
Qed.

End LenientFacts.

Section ImportLoop.
Context `{Builtins}.
Import CSVParser ImportData.

(** The lenient validator always returns, without logging. *)
Lemma validate_row_data_returns (row : Row) (log : list Py.log_record) :
  ∃ b msg,
    StockDataImporter.validate_row_data row log = (inr (b, msg), log)
    ∧ (b = false → msg ≠ StockDataImporter.NoError).
Proof.
  unfold StockDataImporter.validate_row_data, getitem, py_strptime,
    py_float, py_int, py_strip.
  unfold_M. reduce_goal.
  repeat split_goal_scrutinee.
  all: do 2 eexists; (split; [reflexivity |]).
  all: try discriminate.
  all: intros _; discriminate.
Qed.

Lemma parse_loop_spec (rows : list Row) (parsed : list parsed_row)
    (invalid : list (nat * row_error)) (n : nat) :
  ∃ invalid',
    parse_loop parsed invalid n rows
    = inr (parsed ++ omap stored_tuple rows, invalid ++ invalid')
    ∧ length (omap stored_tuple rows) + length invalid' = length rows
    ∧ ∀ k e, (k, e) ∈ invalid' →
        n ≤ k < n + length rows
        ∧ ∃ m, e = Validation m ∧ m ≠ StockDataImporter.NoError.
Proof.
  revert parsed invalid n.
  induction rows as [| row rows IH]; intros parsed invalid n.
  - exists []. cbn. rewrite !app_nil_r. split; [reflexivity |].
    split; [reflexivity |]. intros k e Hin. by apply elem_of_nil in Hin.
  - destruct (validate_row_data_returns row []) as (b & msg & Ev & Hb).
    destruct b.
    + destruct (validate_row_data_accepted_inv row [] [] msg Ev)
        as (_ & _ & p & Ep).
      assert (Est : stored_tuple row = Some p)
        by (unfold stored_tuple; rewrite Ev, Ep; reflexivity).
      cbn [parse_loop omap list_omap]. rewrite Est, Ev. cbn [fst].
      rewrite Ep. cbn [fst].
      destruct (IH (parsed ++ [p]) invalid (S n)) as (inv' & E & Hlen & Hinv).
      exists inv'. rewrite E, <- app_assoc. split; [reflexivity |].
      split; [cbn; lia |].
      intros k e Hin. destruct (Hinv k e Hin) as [Hk Hm].
      split; [cbn; lia | exact Hm].
    + assert (Est : stored_tuple row = None)
        by (unfold stored_tuple; rewrite Ev; reflexivity).
      cbn [parse_loop omap list_omap]. rewrite Est, Ev. cbn [fst].
      destruct (IH parsed (invalid ++ [(n, Validation msg)]) (S n))
        as (inv' & E & Hlen & Hinv).
      exists ((n, Validation msg) :: inv'). rewrite E, <- app_assoc.
      split; [reflexivity |]. split; [cbn; lia |].
      intros k e Hin. apply elem_of_cons in Hin.
      destruct Hin as [[= -> ->] | Hin].
      * split; [cbn; lia |]. exists msg. split; [reflexivity |].
        exact (Hb eq_refl).
      * destruct (Hinv k e Hin) as [Hk Hm]. split; [cbn; lia | exact Hm].
Qed.

Lemma stored_or_rejected (n : nat) (row : Row) :
  (∃ p, stored_tuple row = Some p ∧ rejected (n, row) = None)
  ∨ (∃ m, stored_tuple row = None
          ∧ rejected (n, row) = Some (n, Validation m)
          ∧ m ≠ StockDataImporter.NoError
          ∧ (StockDataImporter.validate_row_data row []).1 = inr (false, m)).
Proof.
  destruct (validate_row_data_returns row []) as (b & msg & Ev & Hb).
  unfold stored_tuple, rejected. cbn [fst snd]. rewrite Ev. cbn [fst].
  destruct b.
  - left. destruct (validate_row_data_accepted_inv row [] [] msg Ev)
      as (_ & _ & p & Ep).
    rewrite Ep. cbn [fst]. eauto.
  - right. exists msg. auto.
Qed.

Lemma parse_loop_rejected (rows : list Row) (parsed : list parsed_row)
    (invalid : list (nat * row_error)) (n : nat) :
  parse_loop parsed invalid n rows
  = inr (parsed ++ omap stored_tuple rows,
         invalid ++ omap rejected (Spec.enumerate n rows)).
Proof.
  revert parsed invalid n.
  induction rows as [| row rows IH]; intros parsed invalid n.
  - cbn. by rewrite !app_nil_r.
  - cbn [parse_loop Spec.enumerate omap list_omap].
    destruct (stored_or_rejected n row)
      as [(p & Es & Er) | (m & Es & Er & _ & Ev)]; rewrite Es, Er.
    + unfold stored_tuple in Es.
      destruct ((StockDataImporter.validate_row_data row []).1)
        as [e | [[|] msg]]; try discriminate.
      destruct ((parse_tuple row []).1) as [e | q]; [discriminate |].
      injection Es as ->. rewrite IH, <- app_assoc. reflexivity.
    + rewrite Ev, IH, <- !app_assoc. reflexivity.
Qed.

Lemma import_partition_lengths (rows : list Row) (n : nat) :
  length (omap stored_tuple rows)
  + length (omap rejected (Spec.enumerate n rows)) = length rows.
Proof.
  revert n. induction rows as [| row rows IH]; intros n; [reflexivity |].
  cbn [Spec.enumerate omap list_omap length]. specialize (IH (S n)).
  destruct (stored_or_rejected n row)
    as [(p & -> & ->) | (m & -> & -> & _)]; cbn [length]; lia.
Qed.

(** X12.  [parse_csv_data] never aborts on a row.  Its loop puts each of
    the [N] rows into exactly one of the two lists; a row the validator
    refuses is entered under its own ordinal, the first data row having
    ordinal 2, with the validator's message (the "Data parsing error"
    branch is never taken, since a row that validates parses again).  On
    a file read to its end the function returns the stored tuples in
    input order and logs the summary; it returns the empty list when the
    reader stops with an exception, whatever rows it had stored, when the
    file does not open, and when the header is not the expected one. *)
Theorem import_loop_partitions (rows : list Row) :
  ∃ parsed invalid,
    parse_loop [] [] 2 rows = inr (parsed, invalid)
    ∧ parsed = omap stored_tuple rows
    ∧ invalid = omap rejected (Spec.enumerate 2 rows)
    ∧ length parsed + length invalid = length rows
    ∧ (∀ k e, (k, e) ∈ invalid →
         ∃ i row m,
           rows !! i = Some row ∧ k = i + 2 ∧ e = Validation m
           ∧ m ≠ StockDataImporter.NoError
           ∧ (StockDataImporter.validate_row_data row []).1
             = inr (false, m))
    ∧ (∀ i row, rows !! i = Some row → stored_tuple row = None →
         ∃ m, (i + 2, Validation m) ∈ invalid)
    ∧ parse_csv_data (readable (Some expected_columns) rows)
      = (parsed, (INFO, CsvStructurePassed) :: summary_records parsed invalid)
    ∧ (∀ e,
         (parse_csv_data
            (mk_file true
               (inr (mk_reader (inr (Some expected_columns)) rows
                       (Some e))))).1 = [])
    ∧ (∀ ex e, (parse_csv_data (mk_file ex (inl e))).1 = [])
    ∧ (∀ ex e rows' stop,
         (parse_csv_data
            (mk_file ex (inr (mk_reader (inl e) rows' stop)))).1 = [])
    ∧ (∀ ex header stop, header ≠ Some expected_columns →
         (parse_csv_data
            (mk_file ex (inr (mk_reader (inr header) rows stop)))).1 = []).
Proof.
  pose proof (parse_loop_rejected rows [] [] 2) as E. cbn [app] in E.
  exists (omap stored_tuple rows), (omap rejected (Spec.enumerate 2 rows)).
  split; [exact E |]. split; [reflexivity |]. split; [reflexivity |].
  split; [apply import_partition_lengths |].
  split.
  { intros k e Hin.
    apply list_elem_of_omap in Hin. destruct Hin as ([n row] & Hin & Hrej).
    apply list_elem_of_lookup in Hin. destruct Hin as (i & Hi).
    rewrite lookup_enumerate in Hi.
    destruct (rows !! i) as [row' |] eqn:Erow; [| discriminate].
    cbn in Hi. injection Hi as Hn <-.
    destruct (stored_or_rejected n row')
      as [(p & _ & Er) | (m & _ & Er & Hm & Ev)];
      rewrite Er in Hrej; [discriminate |].
    injection Hrej as <- <-.
    exists i, row', m. split; [exact Erow |]. split; [cbn in Hn; lia |].
    split; [reflexivity |]. split; [exact Hm | exact Ev]. }
  split.
  { intros i row Hrow Hnone.
    destruct (stored_or_rejected (i + 2) row)
      as [(p & Es & _) | (m & _ & Er & _)]; [congruence |].
    exists m. apply list_elem_of_omap. exists (i + 2, row).
    split; [| exact Er].
    apply list_elem_of_lookup. exists i.
    rewrite lookup_enumerate, Hrow. cbn. f_equal. f_equal. lia. }
  split.
  { unfold parse_csv_data, readable, validate_csv_structure.
    cbn [open_ fieldnames Py.rows Py.stop].
    destruct (decide (Some expected_columns ≠ Some expected_columns))
      as [Hne | _]; [congruence |].
    cbn [negb]. rewrite E. reflexivity. }
  split.
  { intros e. unfold parse_csv_data, validate_csv_structure.
    cbn [open_ fieldnames Py.rows Py.stop].
    destruct (decide (Some expected_columns ≠ Some expected_columns))
      as [Hne | _]; [congruence |].
    cbn [negb]. rewrite E. reflexivity. }
  split.
  { intros ex e. unfold parse_csv_data. cbn [open_].
    by destruct (is_FileNotFoundError e). }
  split; [reflexivity |].
  intros ex header stop Hne. unfold parse_csv_data, validate_csv_structure.
  cbn [open_ fieldnames].
  destruct (decide (header ≠ Some expected_columns)); [reflexivity | done].
Qed.

Lemma strict_accepted_is_stored (n : nat) (row : Row) (p : parsed_row) :
  Batch.accepted (n, row) = Some p → stored_tuple row = Some p.
Proof.
  intros Hacc.
  destruct (accepted_validate_row n row p Hacc) as (msg & l' & Hv).
  destruct (validate_row_accepted_inv _ _ _ _ _ _ Hv)
    as (_ & s1 & s2 & s3 & s4 & s5 & s6 & s7 & R1 & R2 & R3 & R4 & R5
        & R6 & R7 & P1 & P2 & P3 & P4 & P5 & P6 & Hi & Hc).
  destruct (validate_row_data_parsed row [] _ _ _ _ _ _ _ _ _ _ _ _ _
              R1 R2 R3 R4 R5 R6 R7 P1 P2 P3 P4 P5 P6) as [Ev Ep].
  unfold stored_tuple. rewrite Ev, Ep. cbn [fst].
  unfold checks in Hc.
  destruct (String.eqb (r_instrument p) "") eqn:Ei; [discriminate |].
  rewrite <- Hi, Ei. cbn [negb]. f_equal. by destruct p.
Qed.

Lemma omap_sublist_enumerate {B} (f : nat * Row → option B)
    (g : Row → option B) (rows : list Row) (start : nat) :
  (∀ n row y, f (n, row) = Some y → g row = Some y) →
  omap f (Spec.enumerate start rows) `sublist_of` omap g rows.
Proof.
  intros Hfg. revert start.
  induction rows as [| row rows IH]; intros start; [constructor |].
  cbn [Spec.enumerate omap list_omap].
  destruct (f (start, row)) as [y |] eqn:Ef.
  - rewrite (Hfg _ _ _ Ef). constructor. apply IH.
  - destruct (g row); [constructor |]; apply IH.
Qed.

(** X13.  The strict validator is the lenient one plus checks: on the
    same rows, the records [CSVParser] stores are a sub-sequence of the
    tuples the import path stores, with equal values. *)
Theorem strict_records_are_imported (path : string) (rows : list Row)
    (log : list Py.log_record) :
  ∃ self' log' parsed invalid,
    parse_rows (__init__ path) 2 rows log = (inr self', log')
    ∧ parse_loop [] [] 2 rows = inr (parsed, invalid)
    ∧ parsed_data self' `sublist_of` parsed
    ∧ length (CSVParser.invalid_rows self') ≥ length invalid.
Proof.
  destruct (parse_rows_verdicts rows (__init__ path) 2 log) as (log' & E).
  destruct (parse_loop_spec rows [] [] 2) as (invalid & E' & Hlen & _).
  cbn [app] in E'.
  eexists. exists log', (omap stored_tuple rows), invalid.
  split; [exact E |]. split; [exact E' |].
  cbn [__init__ parsed_data CSVParser.invalid_rows app].
  assert (Hsub : omap Batch.accepted (Spec.enumerate 2 rows)
                 `sublist_of` omap stored_tuple rows).
  { apply omap_sublist_enumerate. intros n row y.
    apply strict_accepted_is_stored. }
  split; [exact Hsub |].
  pose proof (partition_lengths (Spec.enumerate 2 rows)) as Hpart.
  rewrite length_enumerate in Hpart.
  apply sublist_length in Hsub. lia.
Qed.

End ImportLoop.

Section InsertBatches.
Import ImportData.
Context {A : Type}.
Implicit Types data : list A.

Lemma batch_size_pos : 0 < batch_size.
Proof. unfold batch_size. lia. Qed.

Lemma batch_count_covers data :
  length data ≤ (length data + batch_size - 1) / batch_size * batch_size.
Proof.
  pose proof batch_size_pos as Hb.
  pose proof (Nat.div_mod_eq (length data + batch_size - 1) batch_size) as E.
  pose proof (Nat.mod_upper_bound (length data + batch_size - 1) batch_size).
  lia.
Qed.

Lemma batch_start_inside data (k : nat) :
  k < (length data + batch_size - 1) / batch_size →
  k * batch_size < length data.
Proof.
  pose proof batch_size_pos as Hb. intros Hk.
  pose proof (Nat.div_mod_eq (length data + batch_size - 1) batch_size) as E.
  pose proof (Nat.mod_upper_bound (length data + batch_size - 1) batch_size).
  nia.
Qed.

Lemma chunks_concat (b m : nat) data :
  length data ≤ m * b →
  concat ((λ i, take b (drop i data)) <$> ((λ k, k * b) <$> seq 0 m)) = data.
Proof.
  revert data. induction m as [| m IH]; intros data Hlen.
  - destruct data; [reflexivity | simpl in Hlen; lia].
  - cbn [seq]. rewrite <- fmap_S_seq, !fmap_cons. cbn [concat].
    transitivity (take b data ++ drop b data); [| apply take_drop].
    f_equal.
    etrans; [| apply (IH (drop b data)); rewrite length_drop; lia].
    rewrite <- !list_fmap_compose. f_equal.
    apply list_fmap_ext. intros _ k _. cbn.
    rewrite drop_drop. reflexivity.
Qed.

(** X14.  [insert_data_batch] cuts the data into consecutive batches
    that cover it exactly once and in order; every batch holds between 1
    and 1000 records. *)
Theorem batches_partition_data data :
  concat ((λ i, take batch_size (drop i data)) <$> batch_starts data) = data
  ∧ Forall (λ i, 0 < length (take batch_size (drop i data)) ≤ batch_size)
      (batch_starts data).
Proof.
  split.
  - apply chunks_concat, batch_count_covers.
  - unfold batch_starts. apply Forall_fmap, Forall_forall. intros k Hk.
    apply elem_of_seq in Hk. destruct Hk as [_ Hk]. cbn [Nat.add] in Hk.
    apply batch_start_inside in Hk. unfold compose.
    pose proof batch_size_pos.
    rewrite length_take, length_drop. lia.
Qed.

End InsertBatches.

Section InsertOutcome.
Import ImportData.
Context {A : Type} (accepts : database A → list A → bool).
Implicit Types data : list A.

Lemma chunk_step (b j k : nat) data :
  j * b + b ≤ k * b →
  take b (drop (j * b) data) ++ drop (j * b + b) (take (k * b) data)
  = drop (j * b) (take (k * b) data).
Proof.
  intros Hjk.
  rewrite <- (take_drop b (drop (j * b) (take (k * b) data))).
  rewrite drop_drop. f_equal.
  rewrite !take_drop_commute, take_take. do 2 f_equal. lia.
Qed.

(** The loop from batch [j] on: [k] is the number of batches that went
    through in all. *)
Lemma insert_loop_spec data (m j : nat) (db : database A) (total : nat)
    (log : list ImportData.log_record) :
  (0 < j → pending db = []) →
  ∃ k db' log',
    j ≤ k ≤ j + m
    ∧ insert_loop accepts data ((λ i, i * batch_size) <$> seq j m) db total log
      = (if decide (k = j + m)
         then Some (total + length (drop (j * batch_size)
                                      (take ((j + m) * batch_size) data)))
         else None, db', log')
    ∧ (k = j → db' = db)
    ∧ (j < k →
       pending db' = []
       ∧ committed db'
         = committed db ++ pending db
             ++ drop (j * batch_size) (take (k * batch_size) data))
    ∧ (k < j + m →
       accepts db' (take batch_size (drop (k * batch_size) data)) = false).
Proof.
  revert j db total log. induction m as [| m IH]; intros j db total log Hpend.
  - exists j, db, log. split; [lia |].
    rewrite Nat.add_0_r. destruct (decide (j = j)) as [_ |]; [| done].
    split.
    { cbn. do 3 f_equal. rewrite drop_ge; [cbn; lia |].
      rewrite length_take. lia. }
    split; [done |]. split; intros; lia.
  - cbn [seq fmap list_fmap insert_loop].
    fold (list_fmap nat nat (λ i, i * batch_size)).
    destruct (accepts db (take batch_size (drop (j * batch_size) data)))
      eqn:Eacc.
    + set (batch := take batch_size (drop (j * batch_size) data)) in *.
      set (db1 := commit (mk_database (committed db) (pending db ++ batch))).
      destruct (IH (S j) db1 (total + length batch)
                  (log ++ [(INFO, InsertedBatch (j * batch_size / batch_size + 1)
                                     (length batch) (total + length batch))]))
        as (k & db' & log' & Hk & E & Hsame & Hmore & Hrej); [done |].
      exists k, db', log'. split; [lia |].
      assert (Hchunk : ∀ k', S j ≤ k' →
                batch ++ drop (S j * batch_size) (take (k' * batch_size) data)
                = drop (j * batch_size) (take (k' * batch_size) data)).
      { intros k' Hk'. subst batch.
        replace (S j * batch_size) with (j * batch_size + batch_size) by lia.
        apply chunk_step. nia. }
      split.
      { rewrite E.
        destruct (decide (k = S j + m)) as [-> | Hne];
          destruct (decide (_ = j + S m)) as [Heq | Hne']; try lia;
          [| reflexivity].
        do 3 f_equal.
        replace (j + S m) with (S j + m) by lia.
        rewrite <- (Hchunk (S j + m)) by lia.
        rewrite length_app. lia. }
      split; [intros ->; lia |]. split.
      { intros _. destruct (decide (k = S j)) as [-> | Hne].
        - rewrite (Hsame eq_refl). subst db1. cbn [commit pending committed].
          split; [reflexivity |].
          rewrite <- (Hchunk (S j)) by lia.
          rewrite drop_ge by (rewrite length_take; lia).
          by rewrite app_nil_r, app_assoc.
        - destruct Hmore as [Hp Hc]; [lia |]. split; [exact Hp |].
          rewrite Hc. subst db1. cbn [commit pending committed].
          rewrite <- (Hchunk k) by lia.
          by rewrite app_nil_l, <- !app_assoc. }
      intros Hlt. apply Hrej. lia.
    + exists j, db, log. split; [lia |].
      destruct (decide (j = j + S m)); [lia |].
      split; [reflexivity |]. split; [done |]. split; [intros; lia |].
      intros _. exact Eacc.
Qed.

(** X15.  The count [insert_data_batch] returns is all or nothing, the
    table is not.  The function returns [len(data)] when every batch goes
    through, and then the table holds all the records, in order; when a
    batch fails it returns 0, yet the batches before it stay committed.
    Empty data returns 0 without touching the database. *)
Theorem insert_data_batch_outcome data (db : database A) :
  (data = [] → insert_data_batch accepts data db = (0, db, []))
  ∧ (data ≠ [] →
     ∃ k n db' log,
       insert_data_batch accepts data db = (n, db', log)
       ∧ pending db' = []
       ∧ committed db'
         = match k with
           | 0 => committed db
           | S _ => committed db ++ pending db ++ take (k * batch_size) data
           end
       ∧ ((n = length data ∧ length data ≤ k * batch_size)
          ∨ (n = 0 ∧ k * batch_size < length data
             ∧ accepts (if decide (k = 0) then db else db')
                 (take batch_size (drop (k * batch_size) data)) = false))).
Proof.
  split; [intros ->; reflexivity |].
  intros Hne. unfold insert_data_batch.
  destruct data as [| x data'] eqn:Edata; [congruence |].
  rewrite <- Edata in *. clear Hne.
  unfold batch_starts.
  set (m := (length data + batch_size - 1) / batch_size).
  destruct (insert_loop_spec data m 0 db 0 []) as
    (k & db' & log' & Hk & E & Hsame & Hmore & Hrej); [lia |].
  rewrite E. cbn [Nat.add Nat.mul drop] in *.
  pose proof (batch_count_covers data) as Hcover. fold m in Hcover.
  destruct (decide (k = m)) as [-> | Hkm].
  - exists m. do 3 eexists. split; [reflexivity |].
    assert (Hm : 0 < m).
    { destruct m; [| lia]. rewrite Edata in Hcover. cbn in Hcover. lia. }
    destruct (Hmore Hm) as [Hp Hc].
    split; [exact Hp |]. split.
    + rewrite Hc. destruct m; [lia | reflexivity].
    + left. split; [| exact Hcover].
      rewrite take_ge by exact Hcover. reflexivity.
  - exists k. do 3 eexists. split; [reflexivity |].
    cbn [rollback pending committed]. split; [reflexivity |].
    assert (Hkb : k * batch_size < length data)
      by (apply batch_start_inside; fold m; lia).
    destruct k as [| k'].
    + rewrite (Hsame eq_refl). split; [reflexivity |]. right.
      split; [reflexivity |]. split; [exact Hkb |].
      specialize (Hrej ltac:(lia)). rewrite (Hsame eq_refl) in Hrej.
      exact Hrej.
    + destruct Hmore as [Hp Hc]; [lia |]. split; [exact Hc |]. right.
      split; [reflexivity |]. split; [exact Hkb |].
      destruct (decide (S k' = 0)); [lia |].
      specialize (Hrej ltac:(lia)).
      destruct db' as [c p]. cbn [pending rollback committed] in *.
      subst p. exact Hrej.
Qed.

End InsertOutcome.

Section FurtherExamples.
Import CSVParser Pandas Api.

Lemma accepted_row_is_consistent_witness :
  "HINDALCO" ≠ "" ∧ Float.ltb (Fin (623 # 4)) (Fin (597 # 4)) = false.
Proof.
  destruct (accepted_row_is_consistent (H := Reference.builtins)
              (Reference.scenario_row "155.75" "149.25" "1000000") 2 [] []
              NoError
              (mk_parsed_row (mk_datetime 2024 1 15 9 30 0) (Float.of_Z 153)
                 (Fin (623 # 4)) (Fin (597 # 4)) (Fin (301 # 2)) 1000000
                 "HINDALCO"))
    as (_ & _ & Hi & Hhl & _); [vm_compute; reflexivity |].
  split; assumption.
Defined.

Lemma bad_datetime_is_reported_first_witness :
  validate_row (H := Reference.builtins)
    (<["datetime" := PyStr "15/01/2024"]> ∅) 2 []
  = (inr (false, InvalidDatetimeFormat (PyStr "15/01/2024"), None), []).
Proof.
  apply (bad_datetime_is_reported_first (H := Reference.builtins));
    reflexivity.
Defined.

Lemma blank_instrument_precedes_ohlc_witness :
  (validate_row (H := Reference.builtins)
     (<["instrument" := PyStr "   "]>
        (Reference.scenario_row "100" "150" "1000000")) 2 []).1
  = inr (false, EmptyInstrumentName, None).
Proof.
  apply (blank_instrument_precedes_ohlc (H := Reference.builtins)
           _ 2 [] "2024-01-15 09:30:00" "153.00" "100" "150" "150.50"
           "1000000" "   " (mk_datetime 2024 1 15 9 30 0)
           (Float.of_Z 153) (Float.of_Z 100) (Float.of_Z 150)
           (Fin (301 # 2)) 1000000);
    reflexivity.
Defined.

Lemma nan_bounds_pass_the_checks_witness :
  (validate_row (H := ReferenceNaN.builtins)
     (Reference.scenario_row "nan" "nan" "1000000") 2 []).1
  = inr (true, NoError,
         Some (mk_parsed_row (mk_datetime 2024 1 15 9 30 0)
                 (Float.of_Z 153) NaN NaN (Fin (301 # 2)) 1000000
                 "HINDALCO")).
Proof.
  apply (nan_bounds_pass_the_checks (H := ReferenceNaN.builtins)
           _ 2 [] "2024-01-15 09:30:00" "153.00" "nan" "nan" "150.50"
           "1000000" "HINDALCO" (mk_datetime 2024 1 15 9 30 0)
           (Float.of_Z 153) (Fin (301 # 2)) 1000000);
    try reflexivity; discriminate.
Defined.

Lemma statistics_ranges_witness :
  ∃ st,
    Statistics.generate_statistics
      (CSVParser.mk "data.csv"
         [mk_parsed_row (mk_datetime 2024 1 16 9 30 0) (Float.of_Z 153)
            (Float.of_Z 155) (Float.of_Z 149) (Float.of_Z 150) 700 "HINDALCO";
          mk_parsed_row (mk_datetime 2024 1 15 9 30 0) (Float.of_Z 151)
            (Float.of_Z 152) (Float.of_Z 150) (Float.of_Z 150) (-5) "HINDALCO"]
         []) None
    = Some st
    ∧ Statistics.volume_range st = ((-5)%Z, 700%Z).
Proof.
  destruct (statistics_ranges
              (CSVParser.mk "data.csv"
                 [mk_parsed_row (mk_datetime 2024 1 16 9 30 0) (Float.of_Z 153)
                    (Float.of_Z 155) (Float.of_Z 149) (Float.of_Z 150) 700
                    "HINDALCO";
                  mk_parsed_row (mk_datetime 2024 1 15 9 30 0) (Float.of_Z 151)
                    (Float.of_Z 152) (Float.of_Z 150) (Float.of_Z 150) (-5)
                    "HINDALCO"]
                 []) None) as (st & Hst & _); [discriminate |].
  exists st. split; [exact Hst |].
  cbn in Hst. injection Hst as <-. reflexivity.
Defined.

End FurtherExamples.
